(** * Pool date-range reconciliation and rule-window clipping

    A shallow embedding of the pooling-management code
    ([params.py], [schemas.py], [models.py], [crud.py], [api.py]) and of
    [adjust_dates] from the not-available-rule component, followed by the
    properties of the reconciliation engine.

    Conventions of the embedding:
    - a Python [date] is its proleptic Gregorian ordinal ([date.toordinal()]),
      an integer; Python compares dates exactly as it compares ordinals;
    - a Python dict with string keys is a [gmap string pyval];
    - the booking service reached over gRPC is a stub whose answer may depend
      on the calls made before (a scripted stub); every call is appended to a
      log, which is the only state [validate_service_pool_changes] touches;
    - the gRPC call is taken to return: transport faults are not modelled;
    - [datetime.now().date()] is one value for the whole call. *)

From Stdlib Require Import ZArith List Lia Bool Ascii String.
From stdpp Require Import base option list gmap strings.
Import ListNotations.
Open Scope Z_scope.

(** ** Python values

    The values the modelled code stores in its dicts: [None], booleans,
    integers, strings and dates. *)

Abbreviation date := Z (only parsing).

Inductive pyval : Type :=
  | VNone
  | VBool (b : bool)
  | VInt (z : Z)
  | VStr (s : string)
  | VDate (d : date).

(** Truth value of an object, as [if x:] tests it. *)
Definition truthy (v : pyval) : bool :=
  match v with
  | VNone => false
  | VBool b => b
  | VInt z => negb (z =? 0)
  | VStr s => negb (String.eqb s "")
  | VDate _ => true
  end.

(** [x == False]: holds of [False] and of the integer [0]. *)
Definition eq_False (v : pyval) : bool :=
  match v with
  | VBool b => negb b
  | VInt z => z =? 0
  | _ => false
  end.

(** [x is False]. *)
Definition is_False (v : pyval) : bool :=
  match v with
  | VBool false => true
  | _ => false
  end.

(** [d.get(key, default)]. *)
Definition dict_get (d : gmap string pyval) (key : string) (dflt : pyval) : pyval :=
  default dflt (d !! key).

(** ** params.py *)

Module Params.
Definition DATA_UPDATE_SUCCESSFUL : string := "Data updated succesfully.".
Definition DATA_INSERT_SUCCESSFUL : string := "Data inserted succesfully.".
Definition UNIQUE_POOL_NAME : string := "Pool name must be unique.".
Definition POOL_NOT_FOUND : string := "Pool not found.".
Definition REDUCE_DATE_MESSAGE : string :=
  "There are bookings made during the period you have excluded from this date range using this service pool. Do you want to continue?".
Definition REDUCE_CAPACITY_MESSSAGE : string :=
  "Bookings already exceed the new capacity limit. Proceed with reducing capacity?".
Definition REDUCED_DATE_CAPACITY_MESSAGE : string :=
  "Bookings exceed the new capacity for the excluded dates. Shall we proceed with reducing the date range and capacity?".
Definition PAST_DATE_ERROR : string := "Dates in the past are not allowed".
Definition DATE_VALIDATION : string := "Start date cannot be after end date".
End Params.

(** ** schemas.py *)

Module Schemas.
Record PoolDateRangeCreate : Type := {
  start_date : date;
  end_date : option date;
  capacity : Z
}.

Record PoolCreate : Type := {
  pc_name : string;
  pc_remarks : option string;
  pc_date_ranges : list PoolDateRangeCreate
}.

Record PoolUpdate : Type := {
  id : Z;
  check_date_ranges : bool;
  name : option string;
  remarks : option string;
  date_ranges : option (list PoolDateRangeCreate)
}.
End Schemas.

(** ** models.py

    The timestamp columns are filled by the database server and read by no
    code of the package; they are left out. *)

Module Models.
Record Pool : Type := {
  id : Z;
  name : string;
  remarks : option string;
  created_by_id : Z;
  updated_by_id : option Z;
  subscriber_id : Z;
  deleted : Z;
  record_status : Z
}.

Record PoolDateRange : Type := {
  pdr_id : Z;
  pool_id : Z;
  start_date : date;
  end_date : option date;
  capacity : Z;
  pdr_created_by_id : Z;
  pdr_updated_by_id : option Z;
  pdr_subscriber_id : Z;
  pdr_deleted : Z;
  pdr_record_status : Z
}.

Record PoolDateRangeHistory : Type := {
  h_id : Z;
  h_pool_id : Z;
  pool_date_range_id : Z;
  action_type : string;
  old_start_date : option date;
  old_end_date : option date;
  old_capacity : option Z;
  h_created_by_id : Z;
  h_subscriber_id : Z
}.
End Models.

(** ** The booking service

    [check_booking_available] sends one JSON request and decodes one JSON
    answer.  The request is kept as a record of the six fields of the
    payload; [end_date] is optional because the capacity check passes the
    stored end date, which may be [None]. *)

Module Booking.
Record Request : Type := {
  pool_id : Z;
  start_date : date;
  end_date : option date;
  capacity : Z;
  subscriber_id : Z;
  capacity_check : bool
}.
End Booking.

(** A computation that may call the booking service: it reads the log of
    the calls made so far and returns the extended log. *)
Definition Calls (A : Type) : Type :=
  list Booking.Request -> A * list Booking.Request.

Definition ret {A : Type} (a : A) : Calls A := fun log => (a, log).

Definition bind {A B : Type} (m : Calls A) (k : A -> Calls B) : Calls B :=
  fun log => let (a, log') := m log in k a log'.

Notation "'do' x <- m ; k" := (bind m (fun x => k))
  (at level 10, x name, m at level 100, k at level 200).

(** The value a computation returns from a log, and the log it leaves. *)
Definition result_of {A : Type} (m : Calls A) (log : list Booking.Request) : A :=
  fst (m log).
Definition log_after {A : Type} (m : Calls A) (log : list Booking.Request)
  : list Booking.Request :=
  snd (m log).

(** The three shapes of dict returned by [validate_service_pool_changes]. *)
Definition hard_reject (message : string) : gmap string pyval :=
  {[ "success" := VBool false; "dialogue" := VBool false; "message" := VStr message ]}.
Definition soft_reject (message : string) : gmap string pyval :=
  {[ "success" := VBool false; "dialogue" := VBool true; "message" := VStr message ]}.
Definition accept : gmap string pyval :=
  {[ "success" := VBool true; "dialogue" := VBool false ]}.

Section Reconciler.

(** The remote [CheckBookings] procedure: the decoded answer to a request,
    given the requests already served. *)
Variable stub : list Booking.Request -> Booking.Request -> gmap string pyval.

(** [datetime.now().date()]. *)
Variable current_date : date.

(** crud.py, [check_booking_available]. *)
Definition check_booking_available (pool_id : Z) (start_date : date)
    (end_date : option date) (capacity : Z) (subscriber_id : Z)
    (capacity_check : bool) : Calls (gmap string pyval) :=
  fun log =>
    let data := {| Booking.pool_id := pool_id;
                   Booking.start_date := start_date;
                   Booking.end_date := end_date;
                   Booking.capacity := capacity;
                   Booking.subscriber_id := subscriber_id;
                   Booking.capacity_check := capacity_check |} in
    (stub log data, log ++ [data]).

(** Lines 556-574: the flag [date_range_changed] and the list
    [excluded_date_ranges] after the two scenarios. *)
Definition start_scenario (start1 start2 : date)
    (st : bool * list (date * date)) : bool * list (date * date) :=
  if negb (start2 =? start1) then
    (true, snd st ++ [if start2 <? start1 then (start2, start1) else (start1, start2)])
  else st.

Definition end_scenario (end1 end2 : option date)
    (st : bool * list (date * date)) : bool * list (date * date) :=
  match end1, end2 with
  | Some e1, Some e2 =>
      if negb (e2 =? e1) then
        (true, snd st ++ [if e2 <? e1 then (e2, e1) else (e1, e2)])
      else st
  | _, _ => st
  end.

Definition date_changes (start1 : date) (end1 : option date)
    (start2 : date) (end2 : option date) : bool * list (date * date) :=
  end_scenario end1 end2 (start_scenario start1 start2 (false, [])).

Definition date_range_changed (start1 : date) (end1 : option date)
    (start2 : date) (end2 : option date) : bool :=
  fst (date_changes start1 end1 start2 end2).

Definition excluded_date_ranges (start1 : date) (end1 : option date)
    (start2 : date) (end2 : option date) : list (date * date) :=
  snd (date_changes start1 end1 start2 end2).

(** Lines 578-611: the loop over the excluded periods.  [Some d] is a
    [return d] out of the function, [None] is the loop running out. *)
Fixpoint check_excluded (pool_id subscriber_id old_capacity new_capacity : Z)
    (is_capacity_reduced : bool) (excluded : list (date * date))
    : Calls (option (gmap string pyval)) :=
  match excluded with
  | [] => ret None
  | (excluded_start, excluded_end) :: rest =>
      do booking_check <-
        check_booking_available pool_id excluded_start (Some excluded_end)
          old_capacity subscriber_id false;
      if truthy (dict_get booking_check "is_booking_exists" (VBool false)) then
        if is_capacity_reduced then
          do capacity_check <-
            check_booking_available pool_id excluded_start (Some excluded_end)
              new_capacity subscriber_id true;
          if truthy (dict_get capacity_check "is_capacity_check" (VBool false)) then
            ret (Some (soft_reject Params.REDUCED_DATE_CAPACITY_MESSAGE))
          else
            ret (Some (soft_reject Params.REDUCE_DATE_MESSAGE))
        else
          ret (Some (soft_reject Params.REDUCE_DATE_MESSAGE))
      else
        check_excluded pool_id subscriber_id old_capacity new_capacity
          is_capacity_reduced rest
  end.

(** Lines 545-551: the two date validations of one proposed tuple. *)
Definition basic_date_validations (start2 : date) (end2 : option date)
    : option (gmap string pyval) :=
  if match end2 with Some e => e <? current_date | None => false end then
    Some (hard_reject Params.PAST_DATE_ERROR)
  else if match end2 with Some e => start2 >? e | None => false end then
    Some (hard_reject Params.DATE_VALIDATION)
  else None.

(** Lines 576-611: the branch taken when the date range changed. *)
Definition date_change_branch (pool_id subscriber_id : Z)
    (start1 : date) (end1 : option date) (start2 : date) (end2 : option date)
    (old_capacity new_capacity : Z) : Calls (option (gmap string pyval)) :=
  if date_range_changed start1 end1 start2 end2 then
    check_excluded pool_id subscriber_id old_capacity new_capacity
      (old_capacity >? new_capacity)
      (excluded_date_ranges start1 end1 start2 end2)
  else ret None.

(** Lines 613-630: the standalone capacity reduction. *)
Definition capacity_branch (pool_id subscriber_id : Z)
    (start1 : date) (end1 : option date) (old_capacity new_capacity : Z)
    : Calls (option (gmap string pyval)) :=
  if old_capacity >? new_capacity then
    do capacity_check <-
      check_booking_available pool_id start1 end1 new_capacity subscriber_id true;
    if truthy (dict_get capacity_check "is_booking_exists" (VBool false))
       && truthy (dict_get capacity_check "is_capacity_check" (VBool false))
    then ret (Some (soft_reject Params.REDUCE_CAPACITY_MESSSAGE))
    else ret None
  else ret None.

(** The body of the [for] loop of [validate_service_pool_changes] for one
    pair [(old_range, date_range)]. *)
Definition validate_position (pool_id subscriber_id : Z)
    (old_range : Models.PoolDateRange)
    (date_range : Schemas.PoolDateRangeCreate)
    : Calls (option (gmap string pyval)) :=
  let start1 := Models.start_date old_range in
  let end1 := Models.end_date old_range in
  let start2 := Schemas.start_date date_range in
  let end2 := Schemas.end_date date_range in
  let old_capacity := Models.capacity old_range in
  let new_capacity := Schemas.capacity date_range in
  match basic_date_validations start2 end2 with
  | Some rejection => ret (Some rejection)
  | None =>
      do found <- date_change_branch pool_id subscriber_id
                    start1 end1 start2 end2 old_capacity new_capacity;
      match found with
      | Some rejection => ret (Some rejection)
      | None =>
          capacity_branch pool_id subscriber_id start1 end1
            old_capacity new_capacity
      end
  end.

(** The [for] loop over [zip(existing_ranges, date_ranges)], and the
    [return] that follows it. *)
Fixpoint validate_pairs (pool_id subscriber_id : Z)
    (pairs : list (Models.PoolDateRange * Schemas.PoolDateRangeCreate))
    : Calls (gmap string pyval) :=
  match pairs with
  | [] => ret accept
  | (old_range, date_range) :: rest =>
      do found <- validate_position pool_id subscriber_id old_range date_range;
      match found with
      | Some rejection => ret rejection
      | None => validate_pairs pool_id subscriber_id rest
      end
  end.

(** crud.py, [validate_service_pool_changes]. *)
Definition validate_service_pool_changes
    (existing_ranges : list Models.PoolDateRange)
    (date_ranges : list Schemas.PoolDateRangeCreate)
    (pool_id subscriber_id : Z) : Calls (gmap string pyval) :=
  validate_pairs pool_id subscriber_id (combine existing_ranges date_ranges).

End Reconciler.

(** ** Dates as text

    [datetime.strptime(s, "%Y-%m-%d").date()] and [d.strftime('%Y-%m-%d')]
    are library code.  The embedding is parametric in them; [strptime]
    answers [inl msg] where the library raises [ValueError(msg)]. *)

Class DateText : Type := {
  strptime : string -> string + date;
  strftime : date -> string
}.

(** An instance for the ISO form, used to run the code on the dates of the
    examples.  The calendar arithmetic is that of the library
    ([_ymd2ord], [_ord2ymd]). *)

Module Iso.
Definition is_leap (y : Z) : bool :=
  (y mod 4 =? 0) && (negb (y mod 100 =? 0) || (y mod 400 =? 0)).

Definition days_before_year (year : Z) : Z :=
  let y := year - 1 in y * 365 + y / 4 - y / 100 + y / 400.

Definition days_in_month (year month : Z) : Z :=
  if (month =? 2) && is_leap year then 29
  else nth (Z.to_nat month) [0; 31; 28; 31; 30; 31; 30; 31; 31; 30; 31; 30; 31] 0.

Definition days_before_month (year month : Z) : Z :=
  nth (Z.to_nat month) [0; 0; 31; 59; 90; 120; 151; 181; 212; 243; 273; 304; 334] 0
  + (if (month >? 2) && is_leap year then 1 else 0).

Definition ymd2ord (year month day : Z) : date :=
  days_before_year year + days_before_month year month + day.

Definition ord2ymd (ordinal : date) : Z * Z * Z :=
  let n := ordinal - 1 in
  let n400 := n / 146097 in
  let n := n mod 146097 in
  let n100 := n / 36524 in
  let n := n mod 36524 in
  let n4 := n / 1461 in
  let n := n mod 1461 in
  let n1 := n / 365 in
  let n := n mod 365 in
  let year := n400 * 400 + 1 + n100 * 100 + n4 * 4 + n1 in
  if (n1 =? 4) || (n100 =? 4) then (year - 1, 12, 31)
  else
    let leapyear := (n1 =? 3) && (negb (n4 =? 24) || (n100 =? 3)) in
    let month := (n + 50) / 32 in
    let preceding :=
      nth (Z.to_nat month) [0; 0; 31; 59; 90; 120; 151; 181; 212; 243; 273; 304; 334] 0
      + (if (month >? 2) && leapyear then 1 else 0) in
    if preceding >? n then
      let month := month - 1 in
      let preceding :=
        preceding
        - (nth (Z.to_nat month) [0; 31; 28; 31; 30; 31; 30; 31; 31; 30; 31; 30; 31] 0
           + (if (month =? 2) && leapyear then 1 else 0)) in
      (year, month, n - preceding + 1)
    else (year, month, n - preceding + 1).

Definition digit (n : Z) : string :=
  String (Ascii.ascii_of_N (48 + Z.to_N n)) EmptyString.
Definition digits2 (n : Z) : string := digit (n / 10) +:+ digit (n mod 10).
Definition digits4 (n : Z) : string := digits2 (n / 100) +:+ digits2 (n mod 100).

Definition format (d : date) : string :=
  let '(y, m, dd) := ord2ymd d in
  digits4 y +:+ "-" +:+ digits2 m +:+ "-" +:+ digits2 dd.

Definition digit_value (c : Ascii.ascii) : option Z :=
  let n := Z.of_N (Ascii.N_of_ascii c) in
  if (48 <=? n) && (n <=? 57) then Some (n - 48) else None.

Fixpoint number (acc : Z) (s : string) : option Z :=
  match s with
  | EmptyString => Some acc
  | String c rest =>
      match digit_value c with
      | Some v => number (acc * 10 + v) rest
      | None => None
      end
  end.

Fixpoint fields (cur : string) (s : string) : list string :=
  match s with
  | EmptyString => [cur]
  | String c rest =>
      if Ascii.eqb c "-"%char then cur :: fields EmptyString rest
      else fields (cur +:+ String c EmptyString) rest
  end.

Definition no_match (s : string) : string :=
  "time data '" +:+ s +:+ "' does not match format '%Y-%m-%d'".

Definition parse (s : string) : string + date :=
  match fields EmptyString s with
  | [ys; ms; ds] =>
      match number 0 ys, number 0 ms, number 0 ds with
      | Some y, Some m, Some d =>
          if (String.length ys =? 4)%nat
             && (1 <=? Z.of_nat (String.length ms)) && (Z.of_nat (String.length ms) <=? 2)
             && (1 <=? Z.of_nat (String.length ds)) && (Z.of_nat (String.length ds) <=? 2)
             && (1 <=? m) && (m <=? 12) && (1 <=? d) && (d <=? 31) && (1 <=? y)
          then
            if d <=? days_in_month y m then inr (ymd2ord y m d)
            else inl "day is out of range for month"
          else inl (no_match s)
      | _, _, _ => inl (no_match s)
      end
  | _ => inl (no_match s)
  end.

(** A date written as text, for the examples; [0] where the text is not
    a date. *)
Definition on (s : string) : date :=
  match parse s with inr d => d | inl _ => 0 end.
End Iso.

#[export] Instance iso_date_text : DateText :=
  {| strptime := Iso.parse; strftime := Iso.format |}.

(** ** The not-available-rule component: [adjust_dates] *)

(** An argument of type [Union[str, date]]. *)
Inductive date_arg : Type :=
  | AStr (s : string)
  | ADate (d : date).

(** [max(a, b)] and [min(a, b)] of the interpreter: the first argument
    unless the second is strictly greater (smaller). *)
Definition py_max (a b : date) : date := if b >? a then b else a.
Definition py_min (a b : date) : date := if b <? a then b else a.

Section AdjustDates.
Context `{DateText}.

(** Two messages of [app.CalendarManagement.params], a module the
    component imports. *)
Variable STARTDATEGREATERTHANENDDATE : string.
Variable INVALIDDATEFORMAT : string.

(** [datetime.strptime(x, "%Y-%m-%d").date() if isinstance(x, str) else x] *)
Definition as_date (x : date_arg) : string + date :=
  match x with
  | AStr s => strptime s
  | ADate d => inr d
  end.

Definition invalid_date_format (ve : string) : gmap string pyval :=
  {[ "success" := VBool false;
     "api_error" := VStr ve;
     "message" := VStr INVALIDDATEFORMAT;
     "translation_key" := VStr "INVALID_DATE_FORMAT" ]}.

(** The four conversions run in the order of the code; the first
    [ValueError] is the one the handler sees.  With arguments that are
    strings or dates nothing else in the body can raise, so the last
    handler ([UNEXPECTED_ERROR]) is not reached. *)
Definition adjust_dates (rule_start_date rule_end_date
    request_start_date request_end_date : date_arg) : gmap string pyval :=
  match as_date rule_start_date with
  | inl ve => invalid_date_format ve
  | inr rule_start =>
  match as_date rule_end_date with
  | inl ve => invalid_date_format ve
  | inr rule_end =>
  match as_date request_start_date with
  | inl ve => invalid_date_format ve
  | inr request_start =>
  match as_date request_end_date with
  | inl ve => invalid_date_format ve
  | inr request_end =>
      if request_start >? request_end then
        {[ "success" := VBool false;
           "message" := VStr STARTDATEGREATERTHANENDDATE;
           "translation_key" := VStr "START_DATE_GREATER_THAN_END_DATE" ]}
      else
        let adjusted_start_date := py_max request_start rule_start in
        let adjusted_end_date := py_min request_end rule_end in
        {[ "success" := VBool true;
           "start_date" := VDate adjusted_start_date;
           "end_date" := VDate adjusted_end_date ]}
  end end end end.
End AdjustDates.

(** ** The database

    The three tables as lists of rows in insertion order, with the
    auto-increment counters the code draws identifiers from. *)

Record Database : Type := {
  pools : list Models.Pool;
  pool_date_ranges : list Models.PoolDateRange;
  pool_date_range_history : list Models.PoolDateRangeHistory;
  next_pool_id : Z;
  next_pool_date_range_id : Z;
  next_history_id : Z
}.

(** What a request handler works on: the database and the log of the calls
    made to the booking service. *)
Record World : Type := {
  db : Database;
  calls : list Booking.Request
}.

(** An exception caught by a handler of api.py. *)
Inductive exn : Type :=
  | IntegrityError
  | OtherException (message : string).

Inductive outcome (A : Type) : Type :=
  | Return (a : A)
  | Raise (e : exn).
Arguments Return {A} a.
Arguments Raise {A} e.

(** A response of a route: an explicit [JSONResponse], or a dict handed to
    the framework. *)
Inductive HttpResult : Type :=
  | JSONResponse (status_code : Z) (content : gmap string pyval)
  | PlainDict (content : gmap string pyval).

Definition opt_int (o : option Z) : pyval :=
  match o with Some z => VInt z | None => VNone end.

(** models.py, [PoolDateRange.to_dict]. *)
Definition to_dict `{DateText} (self : Models.PoolDateRange) : gmap string pyval :=
  {[ "id" := VInt (Models.pdr_id self);
     "pool_id" := VInt (Models.pool_id self);
     "start_date" := VStr (strftime (Models.start_date self));
     "end_date" := match Models.end_date self with
                   | Some e => VStr (strftime e)
                   | None => VNone
                   end;
     "capacity" := VInt (Models.capacity self);
     "created_by_id" := VInt (Models.pdr_created_by_id self);
     "updated_by_id" := opt_int (Models.pdr_updated_by_id self);
     "subscriber_id" := VInt (Models.pdr_subscriber_id self);
     "deleted" := VInt (Models.pdr_deleted self);
     "record_status" := VInt (Models.pdr_record_status self) ]}.

(** crud.py, [log_pool_date_range_history]. *)
Definition log_pool_date_range_history (d : Database) (pool_id pool_date_range_id : Z)
    (action_type : string) (old_start_date old_end_date : option date)
    (old_capacity : option Z) (user_id subscriber_id : Z) : Database :=
  let history_entry :=
    {| Models.h_id := next_history_id d;
       Models.h_pool_id := pool_id;
       Models.pool_date_range_id := pool_date_range_id;
       Models.action_type := action_type;
       Models.old_start_date := old_start_date;
       Models.old_end_date := old_end_date;
       Models.old_capacity := old_capacity;
       Models.h_created_by_id := user_id;
       Models.h_subscriber_id := subscriber_id |} in
  {| pools := pools d;
     pool_date_ranges := pool_date_ranges d;
     pool_date_range_history := pool_date_range_history d ++ [history_entry];
     next_pool_id := next_pool_id d;
     next_pool_date_range_id := next_pool_date_range_id d;
     next_history_id := next_history_id d + 1 |}.

(** The filter of the two queries of [update_pool_date_ranges]. *)
Definition live_range_of (pool_id : Z) (r : Models.PoolDateRange) : bool :=
  (Models.pool_id r =? pool_id) && (Models.pdr_deleted r =? 0)
  && (Models.pdr_record_status r =? 1).

(** Lines 156-168: the history of the rows about to be deleted. *)
Fixpoint log_deletions (d : Database) (pool_id user_id subscriber_id : Z)
    (existing_ranges : list Models.PoolDateRange) (deleted_ids : list Z)
    : Database * list Z :=
  match existing_ranges with
  | [] => (d, deleted_ids)
  | old_range :: rest =>
      let deleted_ids := deleted_ids ++ [Models.pdr_id old_range] in
      let d := log_pool_date_range_history d pool_id (Models.pdr_id old_range)
                 "DELETE" (Some (Models.start_date old_range))
                 (Models.end_date old_range) (Some (Models.capacity old_range))
                 user_id subscriber_id in
      log_deletions d pool_id user_id subscriber_id rest deleted_ids
  end.

(** Lines 170-175. *)
Definition delete_live_ranges (d : Database) (pool_id : Z) : Database :=
  {| pools := pools d;
     pool_date_ranges :=
       List.filter (fun r => negb (live_range_of pool_id r)) (pool_date_ranges d);
     pool_date_range_history := pool_date_range_history d;
     next_pool_id := next_pool_id d;
     next_pool_date_range_id := next_pool_date_range_id d;
     next_history_id := next_history_id d |}.

(** [db.add(new_date_range); db.commit(); db.refresh(new_date_range)]: the
    row gets the next identifier and the server defaults of the two status
    columns. *)
Definition add_pool_date_range (d : Database) (pool_id : Z)
    (date_range : Schemas.PoolDateRangeCreate) (created_by_id : Z)
    (updated_by_id : option Z)
    (subscriber_id : Z) : Database * Models.PoolDateRange :=
  let row :=
    {| Models.pdr_id := next_pool_date_range_id d;
       Models.pool_id := pool_id;
       Models.start_date := Schemas.start_date date_range;
       Models.end_date := Schemas.end_date date_range;
       Models.capacity := Schemas.capacity date_range;
       Models.pdr_created_by_id := created_by_id;
       Models.pdr_updated_by_id := updated_by_id;
       Models.pdr_subscriber_id := subscriber_id;
       Models.pdr_deleted := 0;
       Models.pdr_record_status := 1 |} in
  ({| pools := pools d;
      pool_date_ranges := pool_date_ranges d ++ [row];
      pool_date_range_history := pool_date_range_history d;
      next_pool_id := next_pool_id d;
      next_pool_date_range_id := next_pool_date_range_id d + 1;
      next_history_id := next_history_id d |}, row).

Section Crud.
Context `{DateText}.
Variable stub : list Booking.Request -> Booking.Request -> gmap string pyval.
Variable current_date : date.

(** Lines 65-90 of [create_pool_date_ranges] and 177-204 of
    [update_pool_date_ranges]: the new rows, their dicts and their
    history.  The first loop leaves [updated_by_id] unset, the second sets
    it to the user. *)
Fixpoint insert_ranges (d : Database) (pool_id user_id : Z)
    (updated_by_id : option Z) (subscriber_id : Z)
    (date_ranges : list Schemas.PoolDateRangeCreate)
    (updated_data : list (gmap string pyval))
    : Database * list (gmap string pyval) :=
  match date_ranges with
  | [] => (d, updated_data)
  | date_range :: rest =>
      let (d, new_date_range) :=
        add_pool_date_range d pool_id date_range user_id updated_by_id
          subscriber_id in
      let updated_data := updated_data ++ [to_dict new_date_range] in
      let d := log_pool_date_range_history d pool_id
                 (Models.pdr_id new_date_range) "INSERT" None None None
                 user_id subscriber_id in
      insert_ranges d pool_id user_id updated_by_id subscriber_id rest
        updated_data
  end.

(** crud.py, [create_pool_date_ranges]. *)
Definition create_pool_date_ranges (d : Database) (pool_id : Z)
    (date_ranges : list Schemas.PoolDateRangeCreate)
    (user_id subscriber_id : Z) : Database * list (gmap string pyval) :=
  insert_ranges d pool_id user_id None subscriber_id date_ranges [].

(** Lines 156-207: what [update_pool_date_ranges] does once the check is
    passed or skipped. *)
Definition replace_ranges (d : Database) (pool_id : Z)
    (date_ranges : list Schemas.PoolDateRangeCreate)
    (user_id subscriber_id : Z)
    (existing_ranges : list Models.PoolDateRange)
    : Database * (list Z * list (gmap string pyval)) :=
  let (d, deleted_ids) :=
    log_deletions d pool_id user_id subscriber_id existing_ranges [] in
  let d := delete_live_ranges d pool_id in
  let (d, updated_data) :=
    insert_ranges d pool_id user_id (Some user_id) subscriber_id
      date_ranges [] in
  (d, (deleted_ids, updated_data)).

(** crud.py, [update_pool_date_ranges].  The value returned is either the
    dict of a failed check ([inl]) or the pair
    [(deleted_ids, updated_data)] ([inr]). *)
Definition update_pool_date_ranges (pool_id : Z)
    (date_ranges : list Schemas.PoolDateRangeCreate)
    (user_id subscriber_id : Z) (check_date_ranges : bool) (w : World)
    : outcome (gmap string pyval + list Z * list (gmap string pyval)) * World :=
  let existing_ranges :=
    List.filter (live_range_of pool_id) (pool_date_ranges (db w)) in
  let proceed (log : list Booking.Request)
      : outcome (gmap string pyval + list Z * list (gmap string pyval)) * World :=
    let (d, res) := replace_ranges (db w) pool_id date_ranges user_id
                      subscriber_id existing_ranges in
    (Return (inr res), {| db := d; calls := log |}) in
  if negb check_date_ranges then
    let (check_date_capacity, log) :=
      validate_service_pool_changes stub current_date existing_ranges
        date_ranges pool_id subscriber_id (calls w) in
    match check_date_capacity !! "success" with
    | None => (Raise (OtherException "'success'"), {| db := db w; calls := log |})
    | Some success =>
        if eq_False success then
          (Return (inl check_date_capacity), {| db := db w; calls := log |})
        else proceed log
    end
  else proceed (calls w).
End Crud.

(** ** api.py *)

(** [DateRangeChecker] is a class of
    [app.booking_app_backend_admin.common], outside the package: the routes
    construct it from the converted ranges and call its two methods, each
    of which returns a list of messages. *)
Class DateRangeChecker : Type := {
  find_overlapping_ranges : list (gmap string pyval) -> list string;
  check_date_gaps : list (gmap string pyval) -> list string
}.

(** crud.py, [convert_pool_date_ranges]. *)
Definition convert_pool_date_ranges `{DateText}
    (pool_date_ranges : list Schemas.PoolDateRangeCreate)
    : list (gmap string pyval) :=
  List.map (fun range_obj =>
    let start_str := strftime (Schemas.start_date range_obj) in
    let end_str := match Schemas.end_date range_obj with
                   | Some e => strftime e
                   | None => "9999-12-31"
                   end in
    ({[ "start_date" := VStr start_str; "end_date" := VStr end_str ]}
       : gmap string pyval))
    pool_date_ranges.

(** [for x in findings: return JSONResponse(...)]: the body returns in its
    first iteration. *)
Definition return_in_loop (findings : list string) (translation_key : string)
    : option HttpResult :=
  match findings with
  | [] => None
  | finding :: _ =>
      Some (JSONResponse 400
              {[ "success" := VBool false;
                 "message" := VStr finding;
                 "translation_key" := VStr translation_key ]})
  end.

(** Lines 35-44 of [create_pool_with_dates], 85-94 of [edit_pool]. *)
Definition check_pool_dates `{DateText} `{DateRangeChecker}
    (pool_date_ranges : list Schemas.PoolDateRangeCreate) : option HttpResult :=
  let date_ranges := convert_pool_date_ranges pool_date_ranges in
  let overlaps := find_overlapping_ranges date_ranges in
  match return_in_loop overlaps "POOL_DATES_OVERLAPS" with
  | Some response => Some response
  | None =>
      let gaps := check_date_gaps date_ranges in
      return_in_loop gaps "POOL_DATE_GAPS"
  end.

(** The pool a query of [update_pool] selects. *)
Definition live_pool (pool_id : Z) (p : Models.Pool) : bool :=
  (Models.id p =? pool_id) && (Models.deleted p =? 0)
  && (Models.record_status p =? 1).

Fixpoint replace_first (pool_id : Z) (new : Models.Pool) (l : list Models.Pool)
    : list Models.Pool :=
  match l with
  | [] => []
  | p :: rest =>
      if live_pool pool_id p then new :: rest
      else p :: replace_first pool_id new rest
  end.

Section Api.
Context `{DateText} `{DateRangeChecker}.
Variable stub : list Booking.Request -> Booking.Request -> gmap string pyval.
Variable current_date : date.

(** The unique index on [pools.name] is the database server's: whether a
    commit that writes a name for a row is refused. *)
Variable name_taken : Database -> Z -> string -> bool.

(** Lines 110-125 of [edit_pool]: the subscriber lookup and the events,
    all outside the package. *)
Variable publish_update :
  Models.Pool -> list Z -> list (gmap string pyval) -> World -> HttpResult * World.

(** crud.py, [create_pool]. *)
Definition create_pool (d : Database) (pool : Schemas.PoolCreate)
    (user_id subscriber_id : Z) : outcome (Models.Pool * Database) :=
  let db_pool :=
    {| Models.id := next_pool_id d;
       Models.name := Schemas.pc_name pool;
       Models.remarks := Schemas.pc_remarks pool;
       Models.created_by_id := user_id;
       Models.updated_by_id := None;
       Models.subscriber_id := subscriber_id;
       Models.deleted := 0;
       Models.record_status := 1 |} in
  if name_taken d (next_pool_id d) (Schemas.pc_name pool) then Raise IntegrityError
  else
    Return (db_pool,
      {| pools := pools d ++ [db_pool];
         pool_date_ranges := pool_date_ranges d;
         pool_date_range_history := pool_date_range_history d;
         next_pool_id := next_pool_id d + 1;
         next_pool_date_range_id := next_pool_date_range_id d;
         next_history_id := next_history_id d |}).

(** crud.py, [update_pool]. *)
Definition update_pool (d : Database) (pool_id : Z)
    (pool_update : Schemas.PoolUpdate) (user_id : Z)
    : outcome (option (Models.Pool * Database)) :=
  match List.find (live_pool pool_id) (pools d) with
  | None => Return None
  | Some db_pool =>
      let db_pool :=
        match Schemas.name pool_update with
        | Some n =>
            {| Models.id := Models.id db_pool;
               Models.name := n;
               Models.remarks := Models.remarks db_pool;
               Models.created_by_id := Models.created_by_id db_pool;
               Models.updated_by_id := Some user_id;
               Models.subscriber_id := Models.subscriber_id db_pool;
               Models.deleted := Models.deleted db_pool;
               Models.record_status := Models.record_status db_pool |}
        | None => db_pool
        end in
      let db_pool :=
        match Schemas.remarks pool_update with
        | Some r =>
            {| Models.id := Models.id db_pool;
               Models.name := Models.name db_pool;
               Models.remarks := Some r;
               Models.created_by_id := Models.created_by_id db_pool;
               Models.updated_by_id := Models.updated_by_id db_pool;
               Models.subscriber_id := Models.subscriber_id db_pool;
               Models.deleted := Models.deleted db_pool;
               Models.record_status := Models.record_status db_pool |}
        | None => db_pool
        end in
      if match Schemas.name pool_update with
         | Some n => name_taken d pool_id n
         | None => false
         end
      then Raise IntegrityError
      else
        Return (Some (db_pool,
          {| pools := replace_first pool_id db_pool (pools d);
             pool_date_ranges := pool_date_ranges d;
             pool_date_range_history := pool_date_range_history d;
             next_pool_id := next_pool_id d;
             next_pool_date_range_id := next_pool_date_range_id d;
             next_history_id := next_history_id d |}))
  end.

(** The two handlers that close both routes. *)
Definition handle (e : exn) : HttpResult :=
  match e with
  | IntegrityError =>
      JSONResponse 400
        {[ "success" := VBool false;
           "message" := VStr Params.UNIQUE_POOL_NAME;
           "translation_key" := VStr "UNIQUE_POOL_NAME" ]}
  | OtherException message =>
      JSONResponse 400
        {[ "success" := VBool false; "message" := VStr message ]}
  end.

(** [pool_update.date_ranges] as a condition: neither [None] nor empty. *)
Definition given_ranges (o : option (list Schemas.PoolDateRangeCreate))
    : list Schemas.PoolDateRangeCreate :=
  default [] o.

(** api.py, [edit_pool].  [user_id] and [subscriber_id] are the two
    entries read from the token.  Without date ranges the variable
    [updated_date_range] is never bound and line 108 raises; the text of that
    exception is the one of Python 3.11 and later. *)
Definition edit_pool (pool_update : Schemas.PoolUpdate)
    (user_id subscriber_id : Z) (w : World) : HttpResult * World :=
  let check_date_ranges := Schemas.check_date_ranges pool_update in
  let ranges := given_ranges (Schemas.date_ranges pool_update) in
  match (match ranges with [] => None | _ => check_pool_dates ranges end) with
  | Some response => (response, w)
  | None =>
      match update_pool (db w) (Schemas.id pool_update) pool_update user_id with
      | Raise e => (handle e, w)
      | Return None =>
          (JSONResponse 404
             {[ "success" := VBool false;
                "message" := VStr Params.POOL_NOT_FOUND;
                "translation_key" := VStr "POOL_NOT_FOUND" ]}, w)
      | Return (Some (db_pool, d)) =>
          let w := {| db := d; calls := calls w |} in
          match ranges with
          | [] =>
              (handle (OtherException
                 "cannot access local variable 'updated_date_range' where it is not associated with a value"),
               w)
          | _ =>
              match update_pool_date_ranges stub current_date
                      (Schemas.id pool_update) ranges user_id subscriber_id
                      check_date_ranges w with
              | (Raise e, w) => (handle e, w)
              | (Return (inl updated_date_range), w) =>
                  if is_False (dict_get updated_date_range "success" VNone)
                  then (PlainDict updated_date_range, w)
                  else (handle (OtherException
                          "too many values to unpack (expected 2)"), w)
              | (Return (inr (deleted_ids, updated_data)), w) =>
                  publish_update db_pool deleted_ids updated_data w
              end
          end
      end
  end.
End Api.

Section ApiCreate.
Context `{DateText} `{DateRangeChecker}.
Variable name_taken : Database -> Z -> string -> bool.

(** Lines 52-64 of [create_pool_with_dates]: the subscriber lookup and the
    events, all outside the package. *)
Variable publish_create :
  Models.Pool -> option (list (gmap string pyval)) -> World -> HttpResult * World.

(** api.py, [create_pool_with_dates].  Without date ranges the variable
    [db_date_ranges] is never bound: the publication gets [None]. *)
Definition create_pool_with_dates (pool : Schemas.PoolCreate)
    (user_id subscriber_id : Z) (w : World) : HttpResult * World :=
  let ranges := Schemas.pc_date_ranges pool in
  match (match ranges with [] => None | _ => check_pool_dates ranges end) with
  | Some response => (response, w)
  | None =>
      match create_pool name_taken (db w) pool user_id subscriber_id with
      | Raise e => (handle e, w)
      | Return (db_pool, d) =>
          match ranges with
          | [] => publish_create db_pool None {| db := d; calls := calls w |}
          | _ =>
              let (d, db_date_ranges) :=
                create_pool_date_ranges d (Models.id db_pool) ranges user_id
                  subscriber_id in
              publish_create db_pool (Some db_date_ranges)
                {| db := d; calls := calls w |}
          end
      end
  end.
End ApiCreate.

(** ** The interval checker of the specification *)

Module SpecChecker.
(** Modelled from the spec: the class [DateRangeChecker] is missing from
    the package.  For every unordered pair of ranges an overlap is flagged
    when [start_A <= end_B] and [start_B <= end_A]; the ranges are not
    assumed sorted. *)
Fixpoint find_overlaps (ranges : list (date * date))
    : list ((date * date) * (date * date)) :=
  match ranges with
  | [] => []
  | a :: rest =>
      List.map (pair a)
        (List.filter (fun b => (fst a <=? snd b) && (fst b <=? snd a)) rest)
      ++ find_overlaps rest
  end.

(** Modelled from the spec: the sort by start, as a stable insertion. *)
Fixpoint insert_by_start (r : date * date) (sorted : list (date * date))
    : list (date * date) :=
  match sorted with
  | [] => [r]
  | s :: rest =>
      if fst r <? fst s then r :: sorted else s :: insert_by_start r rest
  end.

(** Modelled from the spec: the ranges sorted by start. *)
Definition sort_by_start (ranges : list (date * date)) : list (date * date) :=
  List.fold_left (fun sorted r => insert_by_start r sorted) ranges [].

(** Modelled from the spec: the consecutive pairs of the sorted ranges whose
    second member starts more than one day after the first ends. *)
Fixpoint gaps_between (sorted : list (date * date))
    : list ((date * date) * (date * date)) :=
  match sorted with
  | a :: (b :: _) as rest =>
      (if fst b >? snd a + 1 then [(a, b)] else []) ++ gaps_between rest
  | _ => []
  end.

(** Modelled from the spec: the ranges are sorted by start, and for each
    consecutive pair a gap is flagged when the next start is strictly more
    than one day after the previous end. *)
Definition find_gaps (ranges : list (date * date))
    : list ((date * date) * (date * date)) :=
  gaps_between (sort_by_start ranges).

Section Text.
Context `{DateText}.

(** Modelled from the spec: the checker is built from the converted ranges,
    whose two entries are dates written as text. *)
Definition date_of (v : option pyval) : option date :=
  match v with
  | Some (VStr s) => match strptime s with inr d => Some d | inl _ => None end
  | _ => None
  end.

(** Modelled from the spec: one [(start, end)] pair of the input. *)
Definition range_of (r : gmap string pyval) : option (date * date) :=
  match date_of (r !! "start_date"), date_of (r !! "end_date") with
  | Some s, Some e => Some (s, e)
  | _, _ => None
  end.

(** Modelled from the spec: the ordered [(start, end)] pairs of the input. *)
Definition ranges_of (l : list (gmap string pyval)) : list (date * date) :=
  omap range_of l.

(** Modelled from the spec: a range as it appears in a description. *)
Definition range_text (r : date * date) : string :=
  strftime (fst r) +:+ " to " +:+ strftime (snd r).

(** Modelled from the spec: a finding is one human-readable description;
    the spec fixes no wording, the one here names the two ranges. *)
Definition overlap_text (f : (date * date) * (date * date)) : string :=
  "Date range " +:+ range_text (fst f) +:+ " overlaps with "
    +:+ range_text (snd f).
(** Modelled from the spec: the description of a gap, in a wording of the
    same kind. *)
Definition gap_text (f : (date * date) * (date * date)) : string :=
  "Gap between " +:+ range_text (fst f) +:+ " and " +:+ range_text (snd f).

(** Modelled from the spec: the two methods the routes call. *)
Definition checker : DateRangeChecker :=
  {| find_overlapping_ranges := fun l =>
       List.map overlap_text (find_overlaps (ranges_of l));
     check_date_gaps := fun l =>
       List.map gap_text (find_gaps (ranges_of l)) |}.
End Text.
End SpecChecker.

(** ** Vocabulary of the properties *)

(** The five rejections of the reconciliation. *)
Definition is_rejection (r : gmap string pyval) : Prop :=
  r = hard_reject Params.PAST_DATE_ERROR
  \/ r = hard_reject Params.DATE_VALIDATION
  \/ r = soft_reject Params.REDUCED_DATE_CAPACITY_MESSAGE
  \/ r = soft_reject Params.REDUCE_DATE_MESSAGE
  \/ r = soft_reject Params.REDUCE_CAPACITY_MESSSAGE.

(** A request bears on one of the periods of a list. *)
Definition over_one_of (excluded : list (date * date)) (rq : Booking.Request)
    : Prop :=
  exists r, In r excluded /\ Booking.start_date rq = fst r
            /\ Booking.end_date rq = Some (snd r).

(** The request [check_booking_available] sends. *)
Definition request (pool_id : Z) (start_date : date) (end_date : option date)
    (capacity subscriber_id : Z) (capacity_check : bool) : Booking.Request :=
  {| Booking.pool_id := pool_id;
     Booking.start_date := start_date;
     Booking.end_date := end_date;
     Booking.capacity := capacity;
     Booking.subscriber_id := subscriber_id;
     Booking.capacity_check := capacity_check |}.

(** The two flags read from an answer of the booking service. *)
Definition is_booking_exists (answer : gmap string pyval) : bool :=
  truthy (dict_get answer "is_booking_exists" (VBool false)).
Definition is_capacity_check (answer : gmap string pyval) : bool :=
  truthy (dict_get answer "is_capacity_check" (VBool false)).

(** A proposed tuple whose end date lies before [today]. *)
Definition ends_before (today : date) (n : Schemas.PoolDateRangeCreate) : Prop :=
  exists e, Schemas.end_date n = Some e /\ e < today.

(** A proposed tuple whose start date lies after its end date. *)
Definition inverted (n : Schemas.PoolDateRangeCreate) : Prop :=
  exists e, Schemas.end_date n = Some e /\ Schemas.start_date n > e.

(** At one position: same start, same end, and a capacity that is not
    reduced. *)
Definition dates_kept_capacity_not_reduced
    (p : Models.PoolDateRange * Schemas.PoolDateRangeCreate) : Prop :=
  Schemas.start_date (snd p) = Models.start_date (fst p)
  /\ Schemas.end_date (snd p) = Models.end_date (fst p)
  /\ Models.capacity (fst p) <= Schemas.capacity (snd p).

(** A stored row and a proposed tuple, for the examples. *)
Definition stored (start_date : string) (end_date : option string) (capacity : Z)
    : Models.PoolDateRange :=
  {| Models.pdr_id := 1; Models.pool_id := 7;
     Models.start_date := Iso.on start_date;
     Models.end_date := option_map Iso.on end_date;
     Models.capacity := capacity;
     Models.pdr_created_by_id := 1; Models.pdr_updated_by_id := None;
     Models.pdr_subscriber_id := 3;
     Models.pdr_deleted := 0; Models.pdr_record_status := 1 |}.

Definition proposed (start_date : string) (end_date : option string) (capacity : Z)
    : Schemas.PoolDateRangeCreate :=
  {| Schemas.start_date := Iso.on start_date;
     Schemas.end_date := option_map Iso.on end_date;
     Schemas.capacity := capacity |}.

(** Two stubs of the booking service: one that finds no booking, one that
    finds bookings everywhere and every capacity exceeded. *)
Definition quiet_stub (_ : list Booking.Request) (_ : Booking.Request)
    : gmap string pyval :=
  {[ "is_booking_exists" := VBool false; "is_capacity_check" := VBool false ]}.
Definition busy_stub (_ : list Booking.Request) (_ : Booking.Request)
    : gmap string pyval :=
  {[ "is_booking_exists" := VBool true; "is_capacity_check" := VBool true ]}.

(** What a proposed tuple and a stored row have in common. *)
Definition tuple_of (n : Schemas.PoolDateRangeCreate) : date * option date * Z :=
  (Schemas.start_date n, Schemas.end_date n, Schemas.capacity n).
Definition row_tuple (r : Models.PoolDateRange) : date * option date * Z :=
  (Models.start_date r, Models.end_date r, Models.capacity r).

(** The response of both routes to a finding of the interval checker. *)
Definition finding_response (finding translation_key : string) : HttpResult :=
  JSONResponse 400
    {[ "success" := VBool false;
       "message" := VStr finding;
       "translation_key" := VStr translation_key ]}.

(** A world with one pool and no range, for the examples. *)
Definition one_pool_world : World :=
  {| db := {| pools := [ {| Models.id := 7; Models.name := "Hall";
                            Models.remarks := None; Models.created_by_id := 1;
                            Models.updated_by_id := None;
                            Models.subscriber_id := 3; Models.deleted := 0;
                            Models.record_status := 1 |} ];
              pool_date_ranges := [];
              pool_date_range_history := [];
              next_pool_id := 8;
              next_pool_date_range_id := 1;
              next_history_id := 1 |};
     calls := [] |}.

(** Three proposed ranges, each overlapping the two others. *)
Definition three_overlapping : list Schemas.PoolDateRangeCreate :=
  [proposed "2027-01-01" (Some "2027-01-10") 5;
   proposed "2027-01-05" (Some "2027-01-20") 5;
   proposed "2027-01-08" (Some "2027-01-30") 5].

(** A request to [edit_pool] replacing the ranges of pool 7, and collaborators
    for the examples: no name is taken, the publication answers with an empty
    dict. *)
Definition replace_request (ranges : list Schemas.PoolDateRangeCreate)
    : Schemas.PoolUpdate :=
  {| Schemas.id := 7; Schemas.check_date_ranges := false;
     Schemas.name := None; Schemas.remarks := None;
     Schemas.date_ranges := Some ranges |}.

Definition free_names (_ : Database) (_ : Z) (_ : string) : bool := false.

Definition silent_update (_ : Models.Pool) (_ : list Z)
    (_ : list (gmap string pyval)) (w : World) : HttpResult * World :=
  (PlainDict ∅, w).

(** A partition that tiles the timeline: every range starts no later than
    it ends, and each range starts the day after the one before it ends. *)
Fixpoint tiles (ranges : list (date * date)) : Prop :=
  match ranges with
  | [] => True
  | a :: rest =>
      fst a <= snd a
      /\ match rest with
         | [] => True
         | b :: _ => fst b = snd a + 1
         end
      /\ tiles rest
  end.

(** ** Vocabulary of the further properties *)

(** A request made for a given pool on behalf of a given subscriber. *)
Definition for_pool (pool_id subscriber_id : Z) (rq : Booking.Request) : Prop :=
  Booking.pool_id rq = pool_id /\ Booking.subscriber_id rq = subscriber_id.

(** A request carries the capacities of a position: without the capacity
    flag the stored capacity, with the flag the proposed capacity, which is
    then lower than the stored one. *)
Definition capacity_of_position
    (p : Models.PoolDateRange * Schemas.PoolDateRangeCreate)
    (rq : Booking.Request) : Prop :=
  if Booking.capacity_check rq then
    Booking.capacity rq = Schemas.capacity (snd p)
    /\ Models.capacity (fst p) > Schemas.capacity (snd p)
  else Booking.capacity rq = Models.capacity (fst p).

(** A position at which nothing stands in the way of the change, for a
    booking service whose answer depends on the request alone: the proposed
    tuple neither ends before today nor starts after its end, no excluded
    period has a booking at the stored capacity, and a reduced capacity is
    not reported exceeded over the stored range. *)
Definition position_clean (answer : Booking.Request -> gmap string pyval)
    (today : date) (pool_id subscriber_id : Z)
    (p : Models.PoolDateRange * Schemas.PoolDateRangeCreate) : Prop :=
  ~ ends_before today (snd p)
  /\ ~ inverted (snd p)
  /\ (forall r,
        In r (excluded_date_ranges (Models.start_date (fst p))
                (Models.end_date (fst p)) (Schemas.start_date (snd p))
                (Schemas.end_date (snd p))) ->
        is_booking_exists
          (answer (request pool_id (fst r) (Some (snd r))
                     (Models.capacity (fst p)) subscriber_id false)) = false)
  /\ (Models.capacity (fst p) > Schemas.capacity (snd p) ->
      is_booking_exists
        (answer (request pool_id (Models.start_date (fst p))
                   (Models.end_date (fst p)) (Schemas.capacity (snd p))
                   subscriber_id true))
      && is_capacity_check
           (answer (request pool_id (Models.start_date (fst p))
                      (Models.end_date (fst p)) (Schemas.capacity (snd p))
                      subscriber_id true)) = false).

(** A booking service that answers with an empty dict. *)
Definition mute_stub (_ : list Booking.Request) (_ : Booking.Request)
    : gmap string pyval := ∅.

(** A dict is one of the soft rejections. *)
Definition is_soft_rejection (r : gmap string pyval) : Prop :=
  exists message, r = soft_reject message.

(** ** schemas.py: the validators of [PoolDateRangeCreate]

    The model class runs its validators field by field, in the order of the
    declaration.  A [ValueError] raised by a validator is collected into the
    validation error of the model; any other exception leaves the
    constructor as it is, which is what happens to the [HTTPException] of
    [check_capacity], also when an earlier field already failed. *)

Inductive parsed (A : Type) : Type :=
  | Parsed (a : A)
  | ValidationError (errors : list string)
  | HTTPException (status_code : Z) (detail : string).
Arguments Parsed {A} a.
Arguments ValidationError {A} errors.
Arguments HTTPException {A} status_code detail.

(** schemas.py, [check_end_date]: [inl msg] is [raise ValueError(msg)]. *)
Definition check_end_date (end_date : option date) (start_date : date)
    : string + option date :=
  match end_date with
  | Some e =>
      if e <? start_date then inl "end_date must be after start_date"
      else inr end_date
  | None => inr end_date
  end.

(** schemas.py, [check_capacity]: [inl (status_code, detail)] is
    [raise HTTPException(detail=detail, status_code=status_code)]. *)
Definition check_capacity (capacity : Z) : Z * string + Z :=
  if capacity <? 0 then inl (400, "capacity must be non-negative")
  else inr capacity.

(** [PoolDateRangeCreate(start_date=..., end_date=..., capacity=...)] on
    values of the declared types. *)
Definition PoolDateRangeCreate_init (start_date : date) (end_date : option date)
    (capacity : Z) : parsed Schemas.PoolDateRangeCreate :=
  let end_checked := check_end_date end_date start_date in
  match check_capacity capacity with
  | inl (status_code, detail) => HTTPException status_code detail
  | inr capacity =>
      match end_checked with
      | inl message => ValidationError [message]
      | inr end_date =>
          Parsed {| Schemas.start_date := start_date;
                    Schemas.end_date := end_date;
                    Schemas.capacity := capacity |}
      end
  end.

(** A proposed tuple is one the schema lets through. *)
Definition schema_valid (n : Schemas.PoolDateRangeCreate) : Prop :=
  PoolDateRangeCreate_init (Schemas.start_date n) (Schemas.end_date n)
    (Schemas.capacity n) = Parsed n.

(** The content of a response. *)
Definition response_content (r : HttpResult) : gmap string pyval :=
  match r with
  | JSONResponse _ content => content
  | PlainDict content => content
  end.

(** What a history entry records, its own identifier apart. *)
Definition history_record (h : Models.PoolDateRangeHistory)
    : Z * Z * string * option date * option date * option Z * Z * Z :=
  (Models.h_pool_id h, Models.pool_date_range_id h, Models.action_type h,
   Models.old_start_date h, Models.old_end_date h, Models.old_capacity h,
   Models.h_created_by_id h, Models.h_subscriber_id h).

(** The history record of a deleted row and of an inserted row. *)
Definition deletion_record (pool_id user_id subscriber_id : Z)
    (r : Models.PoolDateRange)
    : Z * Z * string * option date * option date * option Z * Z * Z :=
  (pool_id, Models.pdr_id r, "DELETE", Some (Models.start_date r),
   Models.end_date r, Some (Models.capacity r), user_id, subscriber_id).
Definition insertion_record (pool_id user_id subscriber_id : Z)
    (r : Models.PoolDateRange)
    : Z * Z * string * option date * option date * option Z * Z * Z :=
  (pool_id, Models.pdr_id r, "INSERT", None, None, None, user_id, subscriber_id).

(** The publication of a created pool, for the examples. *)
Definition silent_create (_ : Models.Pool) (_ : option (list (gmap string pyval)))
    (w : World) : HttpResult * World :=
  (PlainDict ∅, w).

(** Two ranges that tile the timeline, the second one open-ended. *)
Definition two_tiling : list Schemas.PoolDateRangeCreate :=
  [proposed "2027-01-01" (Some "2027-06-30") 10;
   proposed "2027-07-01" None 4].

(** ** The not-available-rule component: [get_not_available_rule_dates]

    The rules come from [CalendarManagementComponent.get_user_service_rules]
    and the dates from [CalendarManagementComponent.getUnAvailableDates], both
    outside the component, as are [Helper.error_response], the constants
    [NOTAVAILABLE] and [NO_RULES_FOUND] and the classes of the two recurrence
    columns of a rule. *)

(** What [get_user_service_rules] hands back: [None], a dict with an
    ["errors"] entry, or a dict whose ["filtered_rules"] entry is a list of
    rules. *)
Inductive rules_answer (Rule : Type) : Type :=
  | NoAnswer
  | WithErrors (answer : gmap string pyval)
  | WithRules (filtered_rules : list Rule).
Arguments NoAnswer {Rule}.
Arguments WithErrors {Rule} answer.
Arguments WithRules {Rule} filtered_rules.

(** What the function returns, with the status code it has set on the
    response, if any: a failure dict, or the dict
    [{"success": True, "not_available_dates": dates}]. *)
Inductive rule_dates_result : Type :=
  | Failed (status_code : option Z) (content : gmap string pyval)
  | NotAvailableDates (not_available_dates : gset string).

Section NotAvailableRule.
Context `{DateText}.
Variable RepeatType RepeatDetails : Type.

(** The columns of a rule the function reads. *)
Record Rule : Type := {
  pricing_type : string;
  rule_start_date : date_arg;
  rule_end_date : date_arg;
  repeat_type : RepeatType;
  repeat_details : RepeatDetails
}.

(** The dict [rule_data]. *)
Record RuleData : Type := {
  rd_repeat_type : RepeatType;
  rd_repeat_details : RepeatDetails;
  rd_start_date : string;
  rd_end_date : string
}.

Variable NOTAVAILABLE : string.
Variable NO_RULES_FOUND : string.
Variable STARTDATEGREATERTHANENDDATE : string.
Variable INVALIDDATEFORMAT : string.

(** [Helper.error_response(response, key, message, status)]. *)
Variable error_response : string -> string -> Z -> gmap string pyval.

(** [CalendarManagementComponent.getUnAvailableDates(rule_data=...)]. *)
Variable getUnAvailableDates : RuleData -> gset string.

(** [str(x)] of the interpreter. *)
Variable py_str : pyval -> string.

(** The handler of the outer [try]. *)
Definition internal_server_error (message : string) : rule_dates_result :=
  Failed (Some 500) (error_response "INTERNAL_SERVER_ERROR" message 500).

(** Lines 83-105: the loop over the rules that are not available. *)
Fixpoint expand_rules (filtered_rules : list Rule)
    (start_date end_date : date_arg) (unavailable_dates : gset string)
    : rule_dates_result :=
  match filtered_rules with
  | [] => NotAvailableDates unavailable_dates
  | rule :: rest =>
      let adjust_rule_dates :=
        adjust_dates STARTDATEGREATERTHANENDDATE INVALIDDATEFORMAT
          (rule_start_date rule) (rule_end_date rule) start_date end_date in
      match adjust_rule_dates !! "success" with
      | None => internal_server_error "'success'"
      | Some success =>
          if is_False success then Failed (Some 400) adjust_rule_dates
          else
            match adjust_rule_dates !! "start_date",
                  adjust_rule_dates !! "end_date" with
            | None, _ => internal_server_error "'start_date'"
            | Some _, None => internal_server_error "'end_date'"
            | Some adjusted_start, Some adjusted_end =>
                let rule_data :=
                  {| rd_repeat_type := repeat_type rule;
                     rd_repeat_details := repeat_details rule;
                     rd_start_date := py_str adjusted_start;
                     rd_end_date := py_str adjusted_end |} in
                expand_rules rest start_date end_date
                  (unavailable_dates ∪ getUnAvailableDates rule_data)
            end
      end
  end.

(** [get_not_available_rule_dates], from the answer of
    [get_user_service_rules] on. *)
Definition get_not_available_rule_dates (user_service_rules : rules_answer Rule)
    (start_date end_date : date_arg) : rule_dates_result :=
  match user_service_rules with
  | WithErrors answer => Failed None answer
  | NoAnswer => internal_server_error "'NoneType' object is not subscriptable"
  | WithRules rules =>
      let filtered_rules :=
        List.filter (fun item => String.eqb (pricing_type item) NOTAVAILABLE)
          rules in
      match filtered_rules with
      | [] => Failed (Some 400) (error_response "NO_RULES_FOUND" NO_RULES_FOUND 400)
      | _ => expand_rules filtered_rules start_date end_date ∅
      end
  end.

(** The data handed to the expander for a rule and a request whose four
    dates are known. *)
Definition clipped_rule_data (rule : Rule)
    (rule_start rule_end request_start request_end : date) : RuleData :=
  {| rd_repeat_type := repeat_type rule;
     rd_repeat_details := repeat_details rule;
     rd_start_date := py_str (VDate (Z.max request_start rule_start));
     rd_end_date := py_str (VDate (Z.min request_end rule_end)) |}.
End NotAvailableRule.

(** Collaborators of the not-available-rule component for the examples:
    a rule repeats on the weekdays it lists, the expander answers with the
    two ends of the window it is given, and the error dict holds the key and
    the message. *)
Definition sample_error_response (key message : string) (status : Z)
    : gmap string pyval :=
  {[ "success" := VBool false; "message" := VStr message;
     "translation_key" := VStr key ]}.

Definition sample_expander (data : RuleData string string) : gset string :=
  {[ rd_start_date _ _ data; rd_end_date _ _ data ]}.

Definition sample_str (v : pyval) : string :=
  match v with
  | VDate d => Iso.format d
  | VStr s => s
  | _ => ""
  end.

Definition sample_rule (pricing : string) (start_date end_date : string)
    : Rule string string :=
  {| pricing_type := pricing;
     rule_start_date := AStr start_date;
     rule_end_date := AStr end_date;
     repeat_type := "daily";
     repeat_details := "" |}.

(** ** Deleting pools

    The rest of params.py. *)

Module PoolingParams.
Definition DELETE_STATUS : Z := 0.
Definition DELETED : Z := 1.
Definition LIST_RECORD_STATUS : Z := 50.
Definition NO_SERVICE_POOLS_TO_DELETE : string := "No service pools to delete".
Definition UNABLE_TO_DELETE_POOL : string :=
  "The <pool-name> pool is used for <services-list>. You must remove it from <the> service before deleting this pool.".
Definition DELETE : string := "DELETE".
Definition THAT : string := "that".
Definition EACH : string := "each".
Definition CHECK_CAPACITY_TYPE_ID : Z := 2.
End PoolingParams.

(** [models.Service] of the admin package, with the columns the query of
    [check_linked_services] reads. *)
Module Admin.
Record Service : Type := {
  name : string;
  pool_id : Z;
  subscriber_id : Z;
  deleted : Z;
  record_status : Z;
  capacity_type_id : Z
}.
End Admin.

(** [s.replace(old, new)] for a non-empty [old]: the occurrences are found
    from the left and do not overlap; [skip] counts the characters of an
    occurrence that are still to be dropped. *)
Fixpoint replace_from (old new : string) (skip : nat) (s : string) : string :=
  match s with
  | EmptyString => EmptyString
  | String c rest =>
      match skip with
      | S skip => replace_from old new skip rest
      | O =>
          if String.prefix old s
          then String.append new
                 (replace_from old new (String.length old - 1) rest)
          else String c (replace_from old new 0 rest)
      end
  end.

Definition replace (s old new : string) : string := replace_from old new 0 s.

(** What a function of crud.py hands back to its route: the status it set
    on the response, if any, the dict, and the text of the exception when the
    dict holds the set [{str(e)}] under [api_error]. *)
Record Reply : Type := {
  status_code : option Z;
  content : gmap string pyval;
  api_error : option string
}.

(** The filter that [service_pools_delete] and [pools_list] share. *)
Definition listed (subscriber_id : Z) (pool : Models.Pool) : bool :=
  (Models.subscriber_id pool =? subscriber_id)
  && (Models.deleted pool =? PoolingParams.DELETE_STATUS)
  && (Models.record_status pool <=? PoolingParams.LIST_RECORD_STATUS).

(** The filter of [check_linked_services]. *)
Definition linked (pool_id subscriber_id : Z) (service : Admin.Service) : bool :=
  (Admin.pool_id service =? pool_id)
  && (Admin.subscriber_id service =? subscriber_id)
  && (Admin.deleted service =? PoolingParams.DELETE_STATUS)
  && (Admin.record_status service <=? PoolingParams.LIST_RECORD_STATUS)
  && (Admin.capacity_type_id service =? PoolingParams.CHECK_CAPACITY_TYPE_ID).

(** crud.py, [check_linked_services]; the services come in the order of the
    table. *)
Definition check_linked_services (services : list Admin.Service)
    (pool_id subscriber_id : Z) (pool_name : string) : bool * option string :=
  let linked_services := List.filter (linked pool_id subscriber_id) services in
  match linked_services with
  | [] => (false, None)
  | _ =>
      let service_names := List.map Admin.name linked_services in
      if (Z.of_nat (List.length service_names) =? 1) then
        let services_list := List.hd "" service_names in
        (true,
         Some (replace
                 (replace
                    (replace PoolingParams.UNABLE_TO_DELETE_POOL "<pool-name>"
                       pool_name)
                    "<services-list>" (String.append services_list " service"))
                 "<the>" PoolingParams.THAT))
      else
        let services_list :=
          String.append (String.concat ", " (List.removelast service_names))
            (String.append " and " (List.last service_names "")) in
        (true,
         Some (replace
                 (replace
                    (replace PoolingParams.UNABLE_TO_DELETE_POOL "<pool-name>"
                       pool_name)
                    "<services-list>" (String.append services_list " services"))
                 "<the>" PoolingParams.EACH))
  end.

(** An entry of the list [bulk_insert_history] is given.  The history table
    of this development has no column [updated_by_id]: the entry sets it,
    [log_pool_date_range_history] leaves it unset, and nothing reads it. *)
Record HistoryEntry : Type := {
  e_pool_id : Z;
  e_pool_date_range_id : Z;
  e_action_type : string;
  e_old_start_date : option date;
  e_old_end_date : option date;
  e_old_capacity : option Z;
  e_created_by_id : Z;
  e_subscriber_id : Z;
  e_updated_by_id : Z
}.

(** crud.py, [bulk_insert_history]: the rows get consecutive identifiers in
    the order of the list. *)
Definition bulk_insert_history (d : Database) (data : list HistoryEntry)
    : Database :=
  match data with
  | [] => d
  | _ =>
      List.fold_left
        (fun d entry =>
           log_pool_date_range_history d (e_pool_id entry)
             (e_pool_date_range_id entry) (e_action_type entry)
             (e_old_start_date entry) (e_old_end_date entry)
             (e_old_capacity entry) (e_created_by_id entry)
             (e_subscriber_id entry))
        data d
  end.

(** [order_by(PoolDateRange.id.asc())]; rows with the same identifier keep
    the order of the table. *)
Fixpoint insert_by_id (r : Models.PoolDateRange) (l : list Models.PoolDateRange)
    : list Models.PoolDateRange :=
  match l with
  | [] => [r]
  | x :: rest =>
      if Models.pdr_id r <=? Models.pdr_id x then r :: l
      else x :: insert_by_id r rest
  end.

Definition order_by_id (l : list Models.PoolDateRange)
    : list Models.PoolDateRange :=
  List.fold_right insert_by_id [] l.

(** The rows the query of line 480 selects: by pool and subscriber, whatever
    their status. *)
Definition capacity_of (pool_id subscriber_id : Z) (r : Models.PoolDateRange)
    : bool :=
  (Models.pool_id r =? pool_id) && (Models.pdr_subscriber_id r =? subscriber_id).

(** Lines 477-478: the two assignments reach the rows with the primary key
    of [service_pool]. *)
Definition mark_deleted (d : Database) (service_pool : Models.Pool)
    (user_id : Z) : Database :=
  {| pools :=
       List.map
         (fun p =>
            if (Models.id p =? Models.id service_pool)
               && (Models.subscriber_id p =? Models.subscriber_id service_pool)
            then {| Models.id := Models.id p;
                    Models.name := Models.name p;
                    Models.remarks := Models.remarks p;
                    Models.created_by_id := Models.created_by_id p;
                    Models.updated_by_id := Some user_id;
                    Models.subscriber_id := Models.subscriber_id p;
                    Models.deleted := PoolingParams.DELETED;
                    Models.record_status := Models.record_status p |}
            else p)
         (pools d);
     pool_date_ranges := pool_date_ranges d;
     pool_date_range_history := pool_date_range_history d;
     next_pool_id := next_pool_id d;
     next_pool_date_range_id := next_pool_date_range_id d;
     next_history_id := next_history_id d |}.

(** Lines 482-504: the history of the rows of the pool, then their
    deletion. *)
Definition delete_capacities (d : Database) (id user_id subscriber_id : Z)
    : Database :=
  let pool_capacities :=
    order_by_id (List.filter (capacity_of id subscriber_id) (pool_date_ranges d)) in
  match pool_capacities with
  | [] => d
  | _ =>
      let history_entries :=
        List.map
          (fun capacity =>
             {| e_pool_id := Models.pool_id capacity;
                e_pool_date_range_id := Models.pdr_id capacity;
                e_action_type := PoolingParams.DELETE;
                e_old_start_date := Some (Models.start_date capacity);
                e_old_end_date := Models.end_date capacity;
                e_old_capacity := Some (Models.capacity capacity);
                e_created_by_id := user_id;
                e_subscriber_id := subscriber_id;
                e_updated_by_id := user_id |})
          pool_capacities in
      let d := bulk_insert_history d history_entries in
      {| pools := pools d;
         pool_date_ranges :=
           List.filter (fun r => negb (capacity_of id subscriber_id r))
             (pool_date_ranges d);
         pool_date_range_history := pool_date_range_history d;
         next_pool_id := next_pool_id d;
         next_pool_date_range_id := next_pool_date_range_id d;
         next_history_id := next_history_id d |}
  end.

(** The database and the identifiers of the pools whose deletion has been
    published. *)
Record Registry : Type := {
  store : Database;
  published : list Z
}.

Section Deletion.
Variable services : list Admin.Service.

(** The two texts of the admin package. *)
Variable DELETE_SUCCESS_MESSAGE ERROR_ON_DELETE : string.

(** Lines 507-513: the subscriber look-up and the event, outside the
    package.  The answer is the text of the exception raised, if any; it may
    depend on the events published before. *)
Variable pooling_event : Registry -> Z -> Z -> Z -> option string.

Definition deleted_reply : Reply :=
  {| status_code := None;
     content := {[ "success" := VBool true;
                   "message" := VStr DELETE_SUCCESS_MESSAGE;
                   "translation_key" := VStr "DELETE_SUCCESS_MESSAGE" ]};
     api_error := None |}.

Definition in_use_reply (message : option string) : Reply :=
  {| status_code := Some 400;
     content := {[ "success" := VBool false;
                   "message" := from_option VStr VNone message;
                   "translation_key" := VStr "SERVICE_POOL_IN_USE" ]};
     api_error := None |}.

Definition nothing_to_delete_reply : Reply :=
  {| status_code := Some 404;
     content := {[ "success" := VBool false;
                   "message" := VStr PoolingParams.NO_SERVICE_POOLS_TO_DELETE;
                   "translation_key" := VStr "NO_SERVICE_POOLS_TO_DELETE" ]};
     api_error := None |}.

Definition error_on_delete_reply (e : string) : Reply :=
  {| status_code := Some 500;
     content := {[ "success" := VBool false;
                   "message" := VStr ERROR_ON_DELETE;
                   "translation_key" := VStr "ERROR_ON_DELETE" ]};
     api_error := Some e |}.

(** The loop of [service_pools_delete] over the requested identifiers;
    [service_pools] is the list the query returned before the loop. *)
Fixpoint delete_each (service_pools : list Models.Pool)
    (user_id subscriber_id : Z) (ids : list Z) (w : Registry)
    : Reply * Registry :=
  match ids with
  | [] => (deleted_reply, w)
  | id :: rest =>
      match List.find (fun pool => Models.id pool =? id) service_pools with
      | None => delete_each service_pools user_id subscriber_id rest w
      | Some service_pool =>
          let (has_linked_services, message) :=
            check_linked_services services id subscriber_id
              (Models.name service_pool) in
          if has_linked_services then (in_use_reply message, w)
          else
            let d := mark_deleted (store w) service_pool user_id in
            let d := delete_capacities d id user_id subscriber_id in
            let w := {| store := d; published := published w |} in
            match pooling_event w id user_id subscriber_id with
            | Some e => (error_on_delete_reply e, w)
            | None =>
                delete_each service_pools user_id subscriber_id rest
                  {| store := d; published := published w ++ [id] |}
            end
      end
  end.

(** crud.py, [service_pools_delete]. *)
Definition service_pools_delete (ids : list Z) (user_id subscriber_id : Z)
    (w : Registry) : Reply * Registry :=
  let service_pools :=
    List.filter
      (fun pool =>
         existsb (Z.eqb (Models.id pool)) ids && listed subscriber_id pool)
      (pools (store w)) in
  match service_pools with
  | [] => (nothing_to_delete_reply, w)
  | _ => delete_each service_pools user_id subscriber_id ids w
  end.

(** api.py, [delete_service_pool]; [user_data] holds the two entries read from
    the token, or nothing when the bearer returned a boolean: the query then
    asks for the pools without subscriber, and the column is not nullable. *)
Definition delete_service_pool (to_delete : list Z) (user_data : option (Z * Z))
    (w : Registry) : Reply * Registry :=
  match user_data with
  | Some (user_id, subscriber_id) =>
      service_pools_delete to_delete user_id subscriber_id w
  | None => (nothing_to_delete_reply, w)
  end.
End Deletion.

(** ** Vocabulary of the deletion *)

Definition among (ids : list Z) (id : Z) : bool := existsb (Z.eqb id) ids.

(** The requested identifiers that select a listed pool of the subscriber,
    in the order of the request. *)
Definition found_ids (subscriber_id : Z) (ids : list Z) (d : Database) : list Z :=
  List.filter
    (fun id =>
       existsb (fun pool => (Models.id pool =? id) && listed subscriber_id pool)
         (pools d))
    ids.

(** A pool row after its deletion by a user. *)
Definition soft_deleted (user_id : Z) (p : Models.Pool) : Models.Pool :=
  {| Models.id := Models.id p;
     Models.name := Models.name p;
     Models.remarks := Models.remarks p;
     Models.created_by_id := Models.created_by_id p;
     Models.updated_by_id := Some user_id;
     Models.subscriber_id := Models.subscriber_id p;
     Models.deleted := 1;
     Models.record_status := Models.record_status p |}.

(** A range row belongs to one of the pools, for the subscriber. *)
Definition range_of_pools (ids : list Z) (subscriber_id : Z)
    (r : Models.PoolDateRange) : bool :=
  among ids (Models.pool_id r) && (Models.pdr_subscriber_id r =? subscriber_id).

(** A registry for the examples: the pools 7 and 8 of subscriber 3 and the
    pool 9 of subscriber 4; two ranges of pool 7, one of them flagged as
    deleted, and one range of pool 8; a service that uses pool 8. *)
Definition sample_pool (id subscriber_id : Z) (name : string) : Models.Pool :=
  {| Models.id := id; Models.name := name; Models.remarks := None;
     Models.created_by_id := 1; Models.updated_by_id := None;
     Models.subscriber_id := subscriber_id; Models.deleted := 0;
     Models.record_status := 1 |}.

Definition sample_range (id pool_id subscriber_id deleted : Z)
    (start_date : string) (end_date : option string) : Models.PoolDateRange :=
  {| Models.pdr_id := id; Models.pool_id := pool_id;
     Models.start_date := Iso.on start_date;
     Models.end_date := option_map Iso.on end_date;
     Models.capacity := 5;
     Models.pdr_created_by_id := 1; Models.pdr_updated_by_id := None;
     Models.pdr_subscriber_id := subscriber_id;
     Models.pdr_deleted := deleted; Models.pdr_record_status := 1 |}.

Definition sample_registry : Registry :=
  {| store :=
       {| pools := [sample_pool 7 3 "Hall"; sample_pool 8 3 "Pitch";
                    sample_pool 9 4 "Court"];
          pool_date_ranges :=
            [sample_range 2 7 3 0 "2027-07-01" None;
             sample_range 1 7 3 1 "2027-01-01" (Some "2027-06-30");
             sample_range 3 8 3 0 "2027-01-01" None];
          pool_date_range_history := [];
          next_pool_id := 10;
          next_pool_date_range_id := 4;
          next_history_id := 1 |};
     published := [] |}.

Definition sample_services : list Admin.Service :=
  [ {| Admin.name := "Football"; Admin.pool_id := 8; Admin.subscriber_id := 3;
       Admin.deleted := 0; Admin.record_status := 1;
       Admin.capacity_type_id := 2 |} ].

Definition quiet_events (_ : Registry) (_ _ _ : Z) : option string := None.

Definition broken_events (_ : Registry) (_ _ _ : Z) : option string :=
  Some "broker unreachable".

(** A text without the character that opens a placeholder. *)
Fixpoint plain (s : string) : bool :=
  match s with
  | EmptyString => true
  | String c rest => negb (Ascii.eqb c "<") && plain rest
  end.

From Stdlib Require Import Sorted.

(** ** Listing pools

    [order_by]: the rows are sorted by insertion; rows that the order does
    not tell apart keep the order of the table. *)
Fixpoint insert_sorted {A : Type} (le : A -> A -> bool) (x : A) (l : list A)
    : list A :=
  match l with
  | [] => [x]
  | y :: rest => if le x y then x :: l else y :: insert_sorted le x rest
  end.

Definition order_by {A : Type} (le : A -> A -> bool) (l : list A) : list A :=
  List.fold_right (insert_sorted le) [] l.

(** [Pool.id.desc()]. *)
Definition id_desc (p q : Models.Pool) : bool := Models.id q <=? Models.id p.

(** [PoolDateRange.pool_id.asc(), PoolDateRange.start_date.asc()]. *)
Definition pool_then_start (r s : Models.PoolDateRange) : bool :=
  (Models.pool_id r <? Models.pool_id s)
  || ((Models.pool_id r =? Models.pool_id s)
      && (Models.start_date r <=? Models.start_date s)).

(** An entry of the list [pools_list] returns; a date range is the triple
    of its [start_date], [end_date] and [capacity]. *)
Record PoolDict : Type := {
  pd_id : Z;
  pd_name : string;
  pd_remarks : option string;
  pd_date_ranges : list (date * option date * Z)
}.

(** What [pools_list] returns: the list, or, with status 500, the dict of
    the handler, which holds the text of the exception. *)
Inductive Listing : Type :=
  | Listed (pools_list : list PoolDict)
  | ListingError (e : string).

(** Lines 339-350: the ranges collected under the identifier of their
    pool. *)
Fixpoint group_by_pool (date_ranges : list Models.PoolDateRange)
    (pool_date_map : gmap Z (list (date * option date * Z)))
    : gmap Z (list (date * option date * Z)) :=
  match date_ranges with
  | [] => pool_date_map
  | date_range :: rest =>
      let pool_id := Models.pool_id date_range in
      let pool_date_map :=
        match pool_date_map !! pool_id with
        | None => <[pool_id := []]> pool_date_map
        | Some _ => pool_date_map
        end in
      let pool_date_map :=
        <[pool_id := default [] (pool_date_map !! pool_id)
                     ++ [row_tuple date_range]]> pool_date_map in
      group_by_pool rest pool_date_map
  end.

Section Listing.
(** What the database answers to a negative offset or limit: the rows, or
    the text of the exception. *)
Variable out_of_window :
  Z -> Z -> list Models.Pool -> string + list Models.Pool.

(** [.offset(offset).limit(limit).all()]. *)
Definition window (offset limit : Z) (rows : list Models.Pool)
    : string + list Models.Pool :=
  if (offset <? 0) || (limit <? 0) then out_of_window offset limit rows
  else inr (firstn (Z.to_nat limit) (skipn (Z.to_nat offset) rows)).

(** crud.py, [pools_list]. *)
Definition pools_list (d : Database) (subscriber_id : Z)
    (pool_id page_size : option Z) (page : Z) : Listing :=
  let pool_query :=
    order_by id_desc (List.filter (listed subscriber_id) (pools d)) in
  let pool_query :=
    match pool_id with
    | Some id =>
        if id =? 0 then pool_query
        else List.filter (fun pool => Models.id pool =? id) pool_query
    | None => pool_query
    end in
  let pools :=
    match page_size with
    | Some size =>
        if size =? 0 then inr pool_query
        else window ((page - 1) * size) size pool_query
    | None => inr pool_query
    end in
  match pools with
  | inl e => ListingError e
  | inr [] => Listed []
  | inr pools =>
      let pool_ids := List.map Models.id pools in
      let date_ranges :=
        order_by pool_then_start
          (List.filter (fun r => among pool_ids (Models.pool_id r))
             (pool_date_ranges d)) in
      let pool_date_map := group_by_pool date_ranges ∅ in
      Listed
        (List.map
           (fun pool =>
              {| pd_id := Models.id pool;
                 pd_name := Models.name pool;
                 pd_remarks := Models.remarks pool;
                 pd_date_ranges := default [] (pool_date_map !! Models.id pool) |})
           pools)
  end.
End Listing.

(** What [get_org_settings_from_cache] hands to the route: nothing, a dict
    with [errors], or settings with their [api_limit], if any. *)
Inductive OrgSettings : Type :=
  | NoSettings
  | SettingsWithErrors (org_settings : gmap string pyval)
  | Settings (api_limit : option Z).

(** The answers of [list_service_pools]: an exception the route does not
    catch, the dict of the settings with status 500, the dict of the handler
    of [pools_list] with status 500, the dict without records, and the dict
    with the records and their count. *)
Inductive ListResponse : Type :=
  | Escaped (e : string)
  | SettingsFailure (org_settings : gmap string pyval)
  | ListFailure (e : string)
  | NoRecordsFound
  | FoundRecords (data : list PoolDict) (recordsTotal : Z).

Section ListRoute.
Variable out_of_window :
  Z -> Z -> list Models.Pool -> string + list Models.Pool.
Variable get_org_settings_from_cache : Database -> Z -> OrgSettings.

(** api.py, [list_service_pools]; [subscriber_id] is the entry read from the
    token. *)
Definition list_service_pools (d : Database) (subscriber_id : Z) (page : Z)
    (page_size id : option Z) : ListResponse :=
  let page := if page =? 0 then 1 else page in
  let settled :=
    match page_size with
    | Some _ => inr page_size
    | None =>
        match get_org_settings_from_cache d subscriber_id with
        | SettingsWithErrors org_settings => inl (SettingsFailure org_settings)
        | NoSettings =>
            inl (Escaped "'NoneType' object has no attribute 'get'")
        | Settings api_limit => inr api_limit
        end
    end in
  match settled with
  | inl response => response
  | inr page_size =>
      match pools_list out_of_window d subscriber_id id page_size page with
      | ListingError e => ListFailure e
      | Listed [] => NoRecordsFound
      | Listed service_pools_list =>
          FoundRecords service_pools_list
            (Z.of_nat (List.length service_pools_list))
      end
  end.
End ListRoute.

(** ** Vocabulary of the listing *)

(** [PoolDateRange.start_date.asc()] alone. *)
Definition by_start (r s : Models.PoolDateRange) : bool :=
  Models.start_date r <=? Models.start_date s.

(** The entry of a pool: its ranges are the rows with its identifier, in the
    order of their start dates. *)
Definition pool_dict (d : Database) (pool : Models.Pool) : PoolDict :=
  {| pd_id := Models.id pool;
     pd_name := Models.name pool;
     pd_remarks := Models.remarks pool;
     pd_date_ranges :=
       List.map row_tuple
         (order_by by_start
            (List.filter (fun r => Models.pool_id r =? Models.id pool)
               (pool_date_ranges d))) |}.

(** The filter on the identifier: [None] and [0] select every pool. *)
Definition selected (pool_id : option Z) (pool : Models.Pool) : bool :=
  match pool_id with
  | Some id => (id =? 0) || (Models.id pool =? id)
  | None => true
  end.

(** A database that refuses a negative offset or limit. *)
Definition strict_window (_ _ : Z) (_ : list Models.Pool)
    : string + list Models.Pool :=
  inl "negative offset or limit".

Definition no_settings (_ : Database) (_ : Z) : OrgSettings := NoSettings.

(** The rows a listing pages through: the listed pools of the subscriber
    that the filter on the identifier selects, by descending identifier. *)
Definition listing_rows (d : Database) (subscriber_id : Z) (pool_id : option Z)
    : list Models.Pool :=
  List.filter (selected pool_id)
    (order_by id_desc (List.filter (listed subscriber_id) (pools d))).

(** * Properties *)

(** ** Calls only ever extend the log *)

Section ReconcilerFacts.
Variable stub : list Booking.Request -> Booking.Request -> gmap string pyval.
Variable current_date : date.

Lemma rejection_not_accept r : is_rejection r -> r <> accept.
Proof.
  intros Hr ->.
  assert (Hs : accept !! "success" = Some (VBool true)) by reflexivity.
  destruct Hr as [E | [E | [E | [E | E]]]]; rewrite E in Hs; vm_compute in Hs;
    discriminate.
Qed.

Lemma rejection_fields r :
  is_rejection r ->
  r !! "success" = Some (VBool false) /\ r !! "translation_key" = None
  /\ (exists m, r !! "message" = Some (VStr m))
  /\ (exists b, r !! "dialogue" = Some (VBool b))
  /\ dom r = ({[ "success"; "dialogue"; "message" ]} : gset string).
Proof.
  intros [E | [E | [E | [E | E]]]]; subst r;
    (split; [reflexivity | split; [reflexivity | split; [eexists; reflexivity |
      split; [eexists; reflexivity | reflexivity]]]]).
Qed.

(** The loop over the excluded periods, one period at a time. *)
Lemma check_excluded_cons pool_id subscriber_id oc nc reduced s e rest log :
  check_excluded stub pool_id subscriber_id oc nc reduced ((s, e) :: rest) log =
  let ask_old := request pool_id s (Some e) oc subscriber_id false in
  let ask_new := request pool_id s (Some e) nc subscriber_id true in
  if is_booking_exists (stub log ask_old) then
    if reduced then
      (Some (soft_reject
               (if is_capacity_check (stub (log ++ [ask_old]) ask_new)
                then Params.REDUCED_DATE_CAPACITY_MESSAGE
                else Params.REDUCE_DATE_MESSAGE)),
       log ++ [ask_old; ask_new])
    else (Some (soft_reject Params.REDUCE_DATE_MESSAGE), log ++ [ask_old])
  else
    check_excluded stub pool_id subscriber_id oc nc reduced rest (log ++ [ask_old]).
Proof.
  cbn [check_excluded]. unfold bind, ret, check_booking_available.
  cbn beta iota zeta. unfold is_booking_exists, is_capacity_check, request.
  destruct (truthy (dict_get (stub log _) "is_booking_exists" _)); [| reflexivity].
  destruct reduced; [| reflexivity].
  rewrite <- app_assoc. cbn [app].
  destruct (truthy (dict_get (stub (log ++ _) _) "is_capacity_check" _));
    reflexivity.
Qed.

Lemma check_excluded_app pool_id subscriber_id oc nc reduced xs ys log :
  check_excluded stub pool_id subscriber_id oc nc reduced (xs ++ ys) log =
  match check_excluded stub pool_id subscriber_id oc nc reduced xs log with
  | (Some r, l) => (Some r, l)
  | (None, l) => check_excluded stub pool_id subscriber_id oc nc reduced ys l
  end.
Proof.
  revert log. induction xs as [| [s e] xs IH]; intros log.
  - reflexivity.
  - rewrite <- app_comm_cons, !check_excluded_cons. cbn zeta.
    destruct (is_booking_exists _); [| apply IH].
    destruct reduced; reflexivity.
Qed.

Lemma over_one_of_here pool_id subscriber_id s e xs cap flag :
  over_one_of ((s, e) :: xs) (request pool_id s (Some e) cap subscriber_id flag).
Proof. exists (s, e). simpl. auto. Qed.

Lemma check_excluded_queries pool_id subscriber_id oc nc reduced xs log :
  exists more,
    snd (check_excluded stub pool_id subscriber_id oc nc reduced xs log)
      = log ++ more
    /\ Forall (over_one_of xs) more.
Proof.
  revert log. induction xs as [| [s e] xs IH]; intros log.
  - exists []. split; [simpl; now rewrite app_nil_r | constructor].
  - rewrite check_excluded_cons. cbn zeta.
    destruct (is_booking_exists _).
    + destruct reduced.
      * eexists [_; _]. split; [reflexivity |].
        repeat constructor; apply over_one_of_here.
      * eexists [_]. split;
          [reflexivity | repeat constructor; apply over_one_of_here].
    + destruct (IH (log ++ [request pool_id s (Some e) oc subscriber_id false]))
        as (more & Hm & Hall).
      eexists (_ :: more). split.
      * rewrite Hm. now rewrite <- app_assoc.
      * constructor; [apply over_one_of_here |].
        eapply List.Forall_impl; [| exact Hall].
        intros rq (r & Hin & Hr). exists r. split; [now right | exact Hr].
Qed.

Lemma check_excluded_rejection pool_id subscriber_id oc nc reduced xs log r :
  fst (check_excluded stub pool_id subscriber_id oc nc reduced xs log) = Some r ->
  is_rejection r.
Proof.
  revert log. induction xs as [| [s e] xs IH]; intros log.
  - discriminate.
  - rewrite check_excluded_cons. cbn zeta.
    destruct (is_booking_exists _); [| apply IH].
    destruct reduced; cbn [fst].
    + destruct (is_capacity_check _); intros [= <-]; unfold is_rejection; auto.
    + intros [= <-]; unfold is_rejection; auto 6.
Qed.

(** The standalone capacity check, as one query and its reading. *)
Lemma capacity_branch_eq pool_id subscriber_id start1 end1 oc nc log :
  capacity_branch stub pool_id subscriber_id start1 end1 oc nc log =
  if oc >? nc then
    let ask := request pool_id start1 end1 nc subscriber_id true in
    (if is_booking_exists (stub log ask) && is_capacity_check (stub log ask)
     then Some (soft_reject Params.REDUCE_CAPACITY_MESSSAGE) else None,
     log ++ [ask])
  else (None, log).
Proof.
  unfold capacity_branch, bind, ret, check_booking_available.
  destruct (oc >? nc); [| reflexivity].
  cbn beta iota zeta. unfold is_booking_exists, is_capacity_check, request.
  destruct (truthy _ && truthy _); reflexivity.
Qed.

(** The loop body: validations, then the date-change branch, then the
    capacity check. *)
Lemma validate_position_eq pool_id subscriber_id old_range date_range log :
  validate_position stub current_date pool_id subscriber_id old_range date_range log =
  match basic_date_validations current_date (Schemas.start_date date_range)
          (Schemas.end_date date_range) with
  | Some rejection => (Some rejection, log)
  | None =>
      match date_change_branch stub pool_id subscriber_id
              (Models.start_date old_range) (Models.end_date old_range)
              (Schemas.start_date date_range) (Schemas.end_date date_range)
              (Models.capacity old_range) (Schemas.capacity date_range) log with
      | (Some rejection, l) => (Some rejection, l)
      | (None, l) =>
          capacity_branch stub pool_id subscriber_id
            (Models.start_date old_range) (Models.end_date old_range)
            (Models.capacity old_range) (Schemas.capacity date_range) l
      end
  end.
Proof.
  unfold validate_position. cbn zeta.
  destruct (basic_date_validations _ _ _); [reflexivity |].
  unfold bind. destruct (date_change_branch _ _ _ _ _ _ _ _ _ _) as [[r |] l];
    reflexivity.
Qed.

Lemma validate_pairs_cons pool_id subscriber_id old_range date_range rest log :
  validate_pairs stub current_date pool_id subscriber_id
    ((old_range, date_range) :: rest) log =
  match validate_position stub current_date pool_id subscriber_id
          old_range date_range log with
  | (Some rejection, l) => (rejection, l)
  | (None, l) => validate_pairs stub current_date pool_id subscriber_id rest l
  end.
Proof.
  cbn [validate_pairs]. unfold bind.
  destruct (validate_position _ _ _ _ _ _ _) as [[r |] l]; reflexivity.
Qed.

Lemma date_change_branch_queries pool_id subscriber_id s1 e1 s2 e2 oc nc log :
  exists more,
    snd (date_change_branch stub pool_id subscriber_id s1 e1 s2 e2 oc nc log)
      = log ++ more
    /\ Forall (over_one_of (excluded_date_ranges s1 e1 s2 e2)) more.
Proof.
  unfold date_change_branch. destruct (date_range_changed _ _ _ _).
  - apply check_excluded_queries.
  - exists []. split; [simpl; now rewrite app_nil_r | constructor].
Qed.

Lemma date_change_branch_rejection pool_id subscriber_id s1 e1 s2 e2 oc nc log r :
  fst (date_change_branch stub pool_id subscriber_id s1 e1 s2 e2 oc nc log)
    = Some r -> is_rejection r.
Proof.
  unfold date_change_branch. destruct (date_range_changed _ _ _ _).
  - apply check_excluded_rejection.
  - discriminate.
Qed.

Lemma basic_date_validations_rejection s2 e2 r :
  basic_date_validations current_date s2 e2 = Some r -> is_rejection r.
Proof.
  unfold basic_date_validations.
  destruct (match e2 with Some e => e <? current_date | None => false end).
  - intros [= <-]; unfold is_rejection; auto.
  - destruct (match e2 with Some e => s2 >? e | None => false end);
      [intros [= <-]; unfold is_rejection; auto | discriminate].
Qed.

Lemma validations_pass date_range :
  ~ ends_before current_date date_range ->
  ~ inverted date_range ->
  basic_date_validations current_date (Schemas.start_date date_range)
    (Schemas.end_date date_range) = None.
Proof.
  intros Hpast Hinv. unfold basic_date_validations.
  destruct (Schemas.end_date date_range) as [e |] eqn:He; [| reflexivity].
  destruct (e <? current_date) eqn:Hlt.
  - exfalso. apply Hpast. exists e. split; [exact He | now apply Z.ltb_lt].
  - destruct (Schemas.start_date date_range >? e) eqn:Hgt; [| reflexivity].
    exfalso. apply Hinv. exists e. split; [exact He | now apply Z.gtb_gt].
Qed.

Lemma validate_position_rejection pool_id subscriber_id old_range date_range log r :
  fst (validate_position stub current_date pool_id subscriber_id
         old_range date_range log) = Some r -> is_rejection r.
Proof.
  rewrite validate_position_eq.
  destruct (basic_date_validations _ _ _) eqn:Hv.
  - intros [= <-]. eapply basic_date_validations_rejection, Hv.
  - destruct (date_change_branch _ _ _ _ _ _ _ _ _ _) as [[r' |] l] eqn:Hd.
    + intros [= <-]. eapply date_change_branch_rejection. now rewrite Hd.
    + rewrite capacity_branch_eq. destruct (_ >? _); [| discriminate].
      cbn zeta. destruct (_ && _); [| discriminate].
      intros [= <-]; unfold is_rejection; auto 6.
Qed.

Lemma validate_position_extends pool_id subscriber_id old_range date_range log :
  exists more,
    snd (validate_position stub current_date pool_id subscriber_id
           old_range date_range log) = log ++ more.
Proof.
  rewrite validate_position_eq.
  destruct (basic_date_validations _ _ _).
  - exists []. simpl. now rewrite app_nil_r.
  - destruct (date_change_branch_queries pool_id subscriber_id
                (Models.start_date old_range) (Models.end_date old_range)
                (Schemas.start_date date_range) (Schemas.end_date date_range)
                (Models.capacity old_range) (Schemas.capacity date_range) log)
      as (more & Hm & _).
    destruct (date_change_branch _ _ _ _ _ _ _ _ _ _) as [[r' |] l];
      cbn [snd] in Hm; subst l.
    + now exists more.
    + rewrite capacity_branch_eq. destruct (_ >? _).
      * eexists (more ++ [_]). cbn zeta. cbn [snd]. now rewrite app_assoc.
      * now exists more.
Qed.

Lemma validate_pairs_extends pool_id subscriber_id pairs log :
  exists more,
    snd (validate_pairs stub current_date pool_id subscriber_id pairs log)
      = log ++ more.
Proof.
  revert log. induction pairs as [| [o n] rest IH]; intros log.
  - exists []. simpl. now rewrite app_nil_r.
  - rewrite validate_pairs_cons.
    destruct (validate_position_extends pool_id subscriber_id o n log)
      as (more & Hm).
    destruct (validate_position _ _ _ _ _ _ _) as [[r |] l];
      cbn [snd] in Hm; subst l.
    + now exists more.
    + destruct (IH (log ++ more)) as (more' & Hm').
      exists (more ++ more'). rewrite Hm'. now rewrite app_assoc.
Qed.

Lemma validate_pairs_outcome pool_id subscriber_id pairs log :
  let r := fst (validate_pairs stub current_date pool_id subscriber_id pairs log) in
  r = accept \/ is_rejection r.
Proof.
  revert log. induction pairs as [| [o n] rest IH]; intros log.
  - now left.
  - cbn zeta. rewrite validate_pairs_cons.
    destruct (validate_position _ _ _ _ _ _ _) as [[r |] l] eqn:Hp.
    + right. eapply validate_position_rejection. now rewrite Hp.
    + apply IH.
Qed.

(** Positions that pass hand the log over to the positions after them. *)
Lemma validate_pairs_app pool_id subscriber_id before after log log1 :
  validate_pairs stub current_date pool_id subscriber_id before log
    = (accept, log1) ->
  validate_pairs stub current_date pool_id subscriber_id (before ++ after) log
    = validate_pairs stub current_date pool_id subscriber_id after log1.
Proof.
  revert log. induction before as [| [o n] rest IH]; intros log.
  - now intros [= <-].
  - rewrite <- app_comm_cons, !validate_pairs_cons.
    destruct (validate_position _ _ _ _ _ _ _) as [[r |] l] eqn:Hp.
    + intros [= -> <-]. exfalso.
      eapply rejection_not_accept; [| reflexivity].
      eapply validate_position_rejection. now rewrite Hp.
    + apply IH.
Qed.

Lemma combine_app_cons {A B : Type} (xs : list A) (ys : list B) x y xs' ys' :
  length xs = length ys ->
  combine (xs ++ x :: xs') (ys ++ y :: ys')
    = combine xs ys ++ (x, y) :: combine xs' ys'.
Proof.
  revert ys. induction xs as [| a xs IH]; intros [| b ys] Hlen;
    try discriminate; [reflexivity |].
  cbn [app combine]. f_equal. apply IH. now injection Hlen.
Qed.

(** The whole function at a position whose predecessors all passed. *)
Lemma validate_at_position pool_id subscriber_id before_old before_new
    old_range date_range after_old after_new log log1 :
  length before_old = length before_new ->
  validate_service_pool_changes stub current_date before_old before_new
    pool_id subscriber_id log = (accept, log1) ->
  validate_service_pool_changes stub current_date
    (before_old ++ old_range :: after_old)
    (before_new ++ date_range :: after_new) pool_id subscriber_id log =
  match validate_position stub current_date pool_id subscriber_id
          old_range date_range log1 with
  | (Some rejection, l) => (rejection, l)
  | (None, l) =>
      validate_service_pool_changes stub current_date after_old after_new
        pool_id subscriber_id l
  end.
Proof.
  intros Hlen Hbefore. unfold validate_service_pool_changes in *.
  rewrite combine_app_cons by exact Hlen.
  rewrite (validate_pairs_app _ _ _ _ _ _ Hbefore).
  apply validate_pairs_cons.
Qed.
End ReconcilerFacts.

(** ** Positional pairing *)

(** C10: [validate_service_pool_changes] pairs the two partitions with
    [zip], so only the first [min (len existing) (len proposed)] positions are
    examined: the call is the call on the two truncated lists, tuples past
    the common length change nothing, and a proposal facing no stored range at
    all is accepted, whatever it holds, without a single query. *)
Theorem zip_examines_common_prefix_only
    (stub : list Booking.Request -> Booking.Request -> gmap string pyval)
    (current_date : date)
    (existing_ranges : list Models.PoolDateRange)
    (date_ranges : list Schemas.PoolDateRangeCreate)
    (pool_id subscriber_id : Z) (log : list Booking.Request) :
  let n := Nat.min (length existing_ranges) (length date_ranges) in
  validate_service_pool_changes stub current_date existing_ranges date_ranges
    pool_id subscriber_id log
  = validate_service_pool_changes stub current_date
      (firstn n existing_ranges) (firstn n date_ranges) pool_id subscriber_id log
  /\ (forall unpaired,
        validate_service_pool_changes stub current_date
          (firstn n existing_ranges) (firstn n date_ranges ++ unpaired)
          pool_id subscriber_id log
        = validate_service_pool_changes stub current_date existing_ranges
            date_ranges pool_id subscriber_id log)
  /\ (forall removed,
        validate_service_pool_changes stub current_date
          (firstn n existing_ranges ++ removed) (firstn n date_ranges)
          pool_id subscriber_id log
        = validate_service_pool_changes stub current_date existing_ranges
            date_ranges pool_id subscriber_id log)
  /\ validate_service_pool_changes stub current_date [] date_ranges
       pool_id subscriber_id log = (accept, log).
Proof.
  cbn zeta. unfold validate_service_pool_changes.
  assert (Hcut : forall (xs : list Models.PoolDateRange)
                        (ys : list Schemas.PoolDateRangeCreate),
             combine (firstn (Nat.min (length xs) (length ys)) xs)
                     (firstn (Nat.min (length xs) (length ys)) ys)
             = combine xs ys).
  { induction xs as [| x xs IH]; intros [| y ys]; try reflexivity.
    cbn [length Nat.min firstn combine]. f_equal. apply IH. }
  assert (Hright : forall (xs : list Models.PoolDateRange)
                          (ys zs : list Schemas.PoolDateRangeCreate),
             length xs = length ys -> combine xs (ys ++ zs) = combine xs ys).
  { induction xs as [| x xs IH]; intros [| y ys] zs Hlen; try discriminate;
      [reflexivity |].
    cbn [app combine]. f_equal. apply IH. now injection Hlen. }
  assert (Hleft : forall (xs zs : list Models.PoolDateRange)
                         (ys : list Schemas.PoolDateRangeCreate),
             length xs = length ys -> combine (xs ++ zs) ys = combine xs ys).
  { induction xs as [| x xs IH]; intros zs [| y ys] Hlen; try discriminate.
    - now destruct zs.
    - cbn [app combine]. f_equal. apply IH. now injection Hlen. }
  assert (Hlen : length (firstn (Nat.min (length existing_ranges) (length date_ranges))
                           existing_ranges)
                 = length (firstn (Nat.min (length existing_ranges) (length date_ranges))
                             date_ranges)).
  { rewrite !length_firstn. lia. }
  repeat split.
  - now rewrite Hcut.
  - intros unpaired. now rewrite Hright, Hcut.
  - intros removed. now rewrite Hleft, Hcut.
Qed.

(** ** Partitions that lose nothing *)

Lemma changes_of_kept_dates (start1 : date) (end1 : option date) :
  date_changes start1 end1 start1 end1 = (false, []).
Proof.
  unfold date_changes, start_scenario, end_scenario.
  rewrite Z.eqb_refl. cbn [negb snd].
  destruct end1 as [e |]; [| reflexivity]. now rewrite Z.eqb_refl.
Qed.

Lemma position_kept_makes_no_call stub current_date pool_id subscriber_id p log :
  dates_kept_capacity_not_reduced p ->
  validate_position stub current_date pool_id subscriber_id (fst p) (snd p) log
  = (basic_date_validations current_date (Schemas.start_date (snd p))
       (Schemas.end_date (snd p)), log).
Proof.
  intros (Hs & He & Hc). rewrite validate_position_eq.
  unfold date_change_branch, date_range_changed.
  rewrite Hs, He, changes_of_kept_dates. cbn [fst ret].
  rewrite capacity_branch_eq.
  replace (Models.capacity p.1 >? Schemas.capacity p.2) with false
    by (symmetry; rewrite Z.gtb_ltb; apply Z.ltb_ge; lia).
  now destruct (basic_date_validations _ _ _).
Qed.

(** C4, as the code has it: when every correlated position keeps its start
    and end dates and does not reduce the capacity, no query is made to the
    booking service; the call accepts provided that, in addition, no proposed
    tuple at a correlated position ends before today or starts after its
    end. *)
Theorem kept_dates_without_reduction_accept
    (stub : list Booking.Request -> Booking.Request -> gmap string pyval)
    (current_date : date)
    (existing_ranges : list Models.PoolDateRange)
    (date_ranges : list Schemas.PoolDateRangeCreate)
    (pool_id subscriber_id : Z) (log : list Booking.Request) :
  Forall dates_kept_capacity_not_reduced (combine existing_ranges date_ranges) ->
  log_after (validate_service_pool_changes stub current_date existing_ranges
               date_ranges pool_id subscriber_id) log = log
  /\ (Forall (fun p => ~ ends_before current_date (snd p) /\ ~ inverted (snd p))
        (combine existing_ranges date_ranges) ->
      result_of (validate_service_pool_changes stub current_date existing_ranges
                   date_ranges pool_id subscriber_id) log = accept).
Proof.
  unfold validate_service_pool_changes, log_after, result_of.
  generalize (combine existing_ranges date_ranges) as pairs.
  induction pairs as [| [o n] rest IH]; intros Hkept.
  - split; reflexivity.
  - apply Forall_cons in Hkept as [Hhere Hrest].
    rewrite validate_pairs_cons.
    pose proof (position_kept_makes_no_call stub current_date pool_id
                  subscriber_id (o, n) log Hhere) as Hp.
    cbn [fst snd] in Hp. rewrite Hp.
    destruct (basic_date_validations current_date (Schemas.start_date n)
                (Schemas.end_date n)) as [r |] eqn:Hv.
    + split; [reflexivity |].
      intros Hok. apply Forall_cons in Hok as [[Hpast Hinv] _]. exfalso.
      unfold basic_date_validations in Hv. cbn [snd] in Hpast, Hinv.
      destruct (Schemas.end_date n) as [e |] eqn:He; [| discriminate].
      destruct (e <? current_date) eqn:Hlt.
      * apply Hpast. exists e. split; [exact He | now apply Z.ltb_lt].
      * destruct (Schemas.start_date n >? e) eqn:Hgt; [| discriminate].
        apply Hinv. exists e. split; [exact He |]. now apply Z.gtb_gt.
    + destruct (IH Hrest) as [IHlog IHres]. split; [exact IHlog |].
      intros Hok. apply Forall_cons in Hok as [_ Hok]. now apply IHres.
Qed.

Lemma kept_dates_without_reduction_accept_witness :
  let existing := [stored "2027-01-01" (Some "2027-06-30") 10;
                   stored "2027-07-01" None 4] in
  let changed := [proposed "2027-01-01" (Some "2027-06-30") 12;
                  proposed "2027-07-01" None 4] in
  validate_service_pool_changes busy_stub (Iso.on "2026-11-03") existing changed 7 3 []
  = (accept, []).
Proof.
  cbn zeta.
  pose proof (kept_dates_without_reduction_accept busy_stub (Iso.on "2026-11-03")
    [stored "2027-01-01" (Some "2027-06-30") 10; stored "2027-07-01" None 4]
    [proposed "2027-01-01" (Some "2027-06-30") 12; proposed "2027-07-01" None 4]
    7 3 []) as Hthm.
  destruct Hthm as [Hlog Hres].
  - repeat constructor; vm_compute; congruence.
  - unfold log_after, result_of in *.
    destruct (validate_service_pool_changes _ _ _ _ _ _ _) as [r l].
    cbn [fst snd] in *. rewrite Hlog, Hres; [reflexivity |].
    repeat constructor; intros (e & He & Hlt); vm_compute in He;
      try discriminate; injection He as <-; vm_compute in Hlt; discriminate.
Defined.

(** C4 as stated fails: a partition left exactly as stored, whose range ended
    before today, is rejected with [PAST_DATE_ERROR]. *)
Lemma unchanged_past_partition_is_rejected :
  ~ (forall stub current_date existing_ranges date_ranges pool_id subscriber_id log,
       Forall dates_kept_capacity_not_reduced (combine existing_ranges date_ranges) ->
       result_of (validate_service_pool_changes stub current_date existing_ranges
                    date_ranges pool_id subscriber_id) log = accept).
Proof.
  intros Hclaim.
  specialize (Hclaim quiet_stub (Iso.on "2026-11-03")
    [stored "2024-01-01" (Some "2024-12-31") 10]
    [proposed "2024-01-01" (Some "2024-12-31") 10] 7 3 []).
  assert (Hrun : result_of (validate_service_pool_changes quiet_stub
                   (Iso.on "2026-11-03")
                   [stored "2024-01-01" (Some "2024-12-31") 10]
                   [proposed "2024-01-01" (Some "2024-12-31") 10] 7 3) []
                 = hard_reject Params.PAST_DATE_ERROR) by (vm_compute; reflexivity).
  rewrite Hrun in Hclaim.
  eapply rejection_not_accept; [| apply Hclaim].
  - unfold is_rejection; auto.
  - repeat constructor; vm_compute; congruence.
Qed.

(** ** The two date validations *)

(** C5, as the code has it: the validations belong to the loop body.  At the
    first correlated position whose predecessors all passed, a proposed end
    date before today returns the hard rejection [PAST_DATE_ERROR], and
    otherwise a start after the end returns the hard rejection
    [DATE_VALIDATION]; the log is then the one the earlier positions left
    behind: no query is made for the position itself, whatever the booking
    service would answer, and none at all when the position is the first. *)
Theorem date_validations_precede_queries_of_their_position
    (stub : list Booking.Request -> Booking.Request -> gmap string pyval)
    (current_date : date)
    (before_old after_old : list Models.PoolDateRange)
    (before_new after_new : list Schemas.PoolDateRangeCreate)
    (old_range : Models.PoolDateRange) (date_range : Schemas.PoolDateRangeCreate)
    (pool_id subscriber_id : Z) (log log1 : list Booking.Request) :
  length before_old = length before_new ->
  validate_service_pool_changes stub current_date before_old before_new
    pool_id subscriber_id log = (accept, log1) ->
  (ends_before current_date date_range ->
   validate_service_pool_changes stub current_date
     (before_old ++ old_range :: after_old)
     (before_new ++ date_range :: after_new) pool_id subscriber_id log
   = (hard_reject Params.PAST_DATE_ERROR, log1))
  /\ (~ ends_before current_date date_range -> inverted date_range ->
      validate_service_pool_changes stub current_date
        (before_old ++ old_range :: after_old)
        (before_new ++ date_range :: after_new) pool_id subscriber_id log
      = (hard_reject Params.DATE_VALIDATION, log1))
  /\ (before_old = [] -> log1 = log).
Proof.
  intros Hlen Hbefore.
  rewrite (validate_at_position stub current_date pool_id subscriber_id
             before_old before_new old_range date_range after_old after_new
             log log1 Hlen Hbefore).
  rewrite validate_position_eq. unfold basic_date_validations.
  split; [| split].
  - intros (e & He & Hlt). rewrite He.
    apply Z.ltb_lt in Hlt. now rewrite Hlt.
  - intros Hnot (e & He & Hgt). rewrite He.
    destruct (e <? current_date) eqn:Hlt.
    + exfalso. apply Hnot. exists e. split; [exact He | now apply Z.ltb_lt].
    + apply Z.gtb_gt in Hgt. now rewrite Hgt.
  - intros ->. destruct before_new; [| discriminate].
    now injection Hbefore.
Qed.

Lemma date_validations_precede_queries_of_their_position_witness :
  let today := Iso.on "2026-11-03" in
  let existing := [stored "2027-01-01" (Some "2027-06-30") 10;
                   stored "2027-07-01" (Some "2027-12-31") 10] in
  let changed := [proposed "2027-01-01" (Some "2027-06-30") 8;
                  proposed "2027-07-01" (Some "2026-10-31") 10] in
  validate_service_pool_changes quiet_stub today existing changed 7 3 []
  = (hard_reject Params.PAST_DATE_ERROR,
     [request 7 (Iso.on "2027-01-01") (Some (Iso.on "2027-06-30")) 8 3 true]).
Proof.
  cbn zeta.
  refine (proj1 (date_validations_precede_queries_of_their_position quiet_stub
    (Iso.on "2026-11-03")
    [stored "2027-01-01" (Some "2027-06-30") 10] []
    [proposed "2027-01-01" (Some "2027-06-30") 8] []
    (stored "2027-07-01" (Some "2027-12-31") 10)
    (proposed "2027-07-01" (Some "2026-10-31") 10) 7 3 []
    [request 7 (Iso.on "2027-01-01") (Some (Iso.on "2027-06-30")) 8 3 true]
    _ _) _).
  - reflexivity.
  - vm_compute. reflexivity.
  - exists (Iso.on "2026-10-31"). split; vm_compute; reflexivity.
Defined.

(** C5 as stated fails: with a capacity reduction that the booking service
    refuses at the first position and an end date in the past at the second,
    the call returns the soft rejection of the first position, after a
    query. *)
Lemma past_date_behind_a_conflict_is_not_reported :
  ~ (forall stub current_date existing_ranges date_ranges pool_id subscriber_id log,
       Exists (ends_before current_date) date_ranges ->
       validate_service_pool_changes stub current_date existing_ranges date_ranges
         pool_id subscriber_id log
       = (hard_reject Params.PAST_DATE_ERROR, log)).
Proof.
  intros Hclaim.
  specialize (Hclaim busy_stub (Iso.on "2026-11-03")
    [stored "2027-01-01" (Some "2027-06-30") 10;
     stored "2027-07-01" (Some "2027-12-31") 10]
    [proposed "2027-01-01" (Some "2027-06-30") 8;
     proposed "2027-07-01" (Some "2026-10-31") 10] 7 3 []).
  assert (Hrun : validate_service_pool_changes busy_stub (Iso.on "2026-11-03")
    [stored "2027-01-01" (Some "2027-06-30") 10;
     stored "2027-07-01" (Some "2027-12-31") 10]
    [proposed "2027-01-01" (Some "2027-06-30") 8;
     proposed "2027-07-01" (Some "2026-10-31") 10] 7 3 []
    = (soft_reject Params.REDUCE_CAPACITY_MESSSAGE,
       [request 7 (Iso.on "2027-01-01") (Some (Iso.on "2027-06-30")) 8 3 true]))
    by (vm_compute; reflexivity).
  rewrite Hrun in Hclaim.
  assert (Hpast : Exists (ends_before (Iso.on "2026-11-03"))
    [proposed "2027-01-01" (Some "2027-06-30") 8;
     proposed "2027-07-01" (Some "2026-10-31") 10]).
  { apply Exists_cons_tl, Exists_cons_hd.
    exists (Iso.on "2026-10-31"). split; vm_compute; reflexivity. }
  specialize (Hclaim Hpast). discriminate Hclaim.
Qed.

(** ** Excluded periods *)

(** The range counts as changed exactly when a period is excluded, and
    there are at most two of them. *)
Lemma excluded_periods_shape (start1 : date) (end1 : option date)
    (start2 : date) (end2 : option date) :
  (length (excluded_date_ranges start1 end1 start2 end2) <= 2)%nat
  /\ (excluded_date_ranges start1 end1 start2 end2 <> []
      -> date_range_changed start1 end1 start2 end2 = true).
Proof.
  unfold excluded_date_ranges, date_range_changed, date_changes,
    start_scenario, end_scenario.
  destruct (negb (start2 =? start1));
    (destruct end1 as [e1 |], end2 as [e2 |];
     [destruct (negb (e2 =? e1)) | | |]);
    cbn [snd fst app length]; split; try lia; congruence.
Qed.

(** C1, as the code has it: the excluded periods of a position are a
    start-side part followed by an end-side part.  The start side is
    [(newStart, oldStart)] when the start moved earlier, [(oldStart, newStart)]
    when it moved later, and empty when it did not move.  The end side is
    computed only when both ends are bounded: [(newEnd, oldEnd)] when the end
    moved earlier, [(oldEnd, newEnd)] when it moved later, and empty when it
    did not move or when either end is open.  There are at most two periods,
    the range counts as changed exactly when there is one, and every query of
    the date-change branch bears on one of them. *)
Theorem excluded_periods_of_a_position
    (stub : list Booking.Request -> Booking.Request -> gmap string pyval)
    (pool_id subscriber_id : Z)
    (start1 : date) (end1 : option date) (start2 : date) (end2 : option date)
    (old_capacity new_capacity : Z) (log : list Booking.Request) :
  exists start_side end_side,
    excluded_date_ranges start1 end1 start2 end2 = start_side ++ end_side
    /\ (start2 < start1 -> start_side = [(start2, start1)])
    /\ (start1 < start2 -> start_side = [(start1, start2)])
    /\ (start2 = start1 -> start_side = [])
    /\ (forall e1 e2, end1 = Some e1 -> end2 = Some e2 -> e2 < e1 ->
        end_side = [(e2, e1)])
    /\ (forall e1 e2, end1 = Some e1 -> end2 = Some e2 -> e1 < e2 ->
        end_side = [(e1, e2)])
    /\ (end1 = None \/ end2 = None \/ end1 = end2 -> end_side = [])
    /\ (length (excluded_date_ranges start1 end1 start2 end2) <= 2)%nat
    /\ (date_range_changed start1 end1 start2 end2 = true
        <-> excluded_date_ranges start1 end1 start2 end2 <> [])
    /\ exists queried,
         log_after (date_change_branch stub pool_id subscriber_id start1 end1
                      start2 end2 old_capacity new_capacity) log
         = log ++ queried
         /\ Forall (over_one_of (excluded_date_ranges start1 end1 start2 end2))
              queried.
Proof.
  exists (snd (start_scenario start1 start2 (false, []))),
         (snd (end_scenario end1 end2 (false, []))).
  pose proof (date_change_branch_queries stub pool_id subscriber_id start1 end1
                start2 end2 old_capacity new_capacity log) as Hq.
  fold (log_after (date_change_branch stub pool_id subscriber_id start1 end1
                     start2 end2 old_capacity new_capacity) log) in Hq.
  revert Hq.
  generalize (log_after (date_change_branch stub pool_id subscriber_id start1 end1
                           start2 end2 old_capacity new_capacity) log) as after.
  unfold excluded_date_ranges, date_range_changed, date_changes,
    start_scenario, end_scenario.
  intros after Hq.
  destruct (Z.eqb_spec start2 start1) as [Hs | Hs];
    [| destruct (Z.ltb_spec start2 start1) as [Hslt | Hsge]];
    (destruct end1 as [e1 |], end2 as [e2 |];
     [ destruct (Z.eqb_spec e2 e1) as [He | He];
       [| destruct (Z.ltb_spec e2 e1) as [Hlt | Hge]] | | | ]);
    cbn [negb snd fst app length] in *;
    repeat apply conj; try exact Hq; intros; simplify_eq;
    try congruence; try lia;
    match goal with
    | H : _ \/ _ \/ _ |- _ => destruct H as [H | [H | H]]; congruence
    end.
Qed.

(** C1 as stated fails: when a bounded end becomes open the end has changed
    and moved later, yet no end-side period is computed, the range does not
    count as changed, and nothing is asked of the booking service. *)
Lemma opened_end_has_no_excluded_period :
  ~ (forall (start1 e1 start2 : date) (end2 : option date),
       end2 <> Some e1 ->
       (forall e2, end2 = Some e2 -> e1 < e2) ->
       exists r, In r (excluded_date_ranges start1 (Some e1) start2 end2)
                 /\ fst r = e1).
Proof.
  intros Hclaim.
  destruct (Hclaim (Iso.on "2027-01-01") (Iso.on "2027-06-30")
              (Iso.on "2027-01-01") None) as (r & Hin & _).
  - discriminate.
  - discriminate.
  - vm_compute in Hin. exact Hin.
Qed.

(** ** Bookings in an excluded period *)

(** C2: at a position whose predecessors passed and whose validations pass,
    each excluded period reached by the loop (the periods before it reported
    no booking) is queried at the old capacity without the capacity flag.
    When the answer reports bookings and the capacity is reduced, the same
    period is queried again at the new capacity with the flag, and the call
    returns the soft rejection [REDUCED_DATE_CAPACITY_MESSAGE] when that answer
    reports the capacity exceeded and [REDUCE_DATE_MESSAGE] otherwise; when the
    answer reports bookings and the capacity is not reduced, the call returns
    the soft rejection [REDUCE_DATE_MESSAGE] at once.  When the answer reports
    no booking the call goes on from the log holding that query. *)
Theorem bookings_in_an_excluded_period
    (stub : list Booking.Request -> Booking.Request -> gmap string pyval)
    (current_date : date)
    (before_old after_old : list Models.PoolDateRange)
    (before_new after_new : list Schemas.PoolDateRangeCreate)
    (old_range : Models.PoolDateRange) (date_range : Schemas.PoolDateRangeCreate)
    (pool_id subscriber_id : Z)
    (earlier later : list (date * date)) (excluded_start excluded_end : date)
    (log log1 log2 : list Booking.Request) :
  let start1 := Models.start_date old_range in
  let end1 := Models.end_date old_range in
  let start2 := Schemas.start_date date_range in
  let end2 := Schemas.end_date date_range in
  let old_capacity := Models.capacity old_range in
  let new_capacity := Schemas.capacity date_range in
  let ask_old :=
    request pool_id excluded_start (Some excluded_end) old_capacity subscriber_id false in
  let ask_new :=
    request pool_id excluded_start (Some excluded_end) new_capacity subscriber_id true in
  let whole :=
    validate_service_pool_changes stub current_date
      (before_old ++ old_range :: after_old)
      (before_new ++ date_range :: after_new) pool_id subscriber_id log in
  length before_old = length before_new ->
  validate_service_pool_changes stub current_date before_old before_new
    pool_id subscriber_id log = (accept, log1) ->
  ~ ends_before current_date date_range ->
  ~ inverted date_range ->
  excluded_date_ranges start1 end1 start2 end2
    = earlier ++ (excluded_start, excluded_end) :: later ->
  check_excluded stub pool_id subscriber_id old_capacity new_capacity
    (old_capacity >? new_capacity) earlier log1 = (None, log2) ->
  (exists more, snd whole = log2 ++ ask_old :: more)
  /\ (is_booking_exists (stub log2 ask_old) = true ->
      old_capacity > new_capacity ->
      whole =
        (soft_reject
           (if is_capacity_check (stub (log2 ++ [ask_old]) ask_new)
            then Params.REDUCED_DATE_CAPACITY_MESSAGE
            else Params.REDUCE_DATE_MESSAGE),
         log2 ++ [ask_old; ask_new]))
  /\ (is_booking_exists (stub log2 ask_old) = true ->
      old_capacity <= new_capacity ->
      whole = (soft_reject Params.REDUCE_DATE_MESSAGE, log2 ++ [ask_old])).
Proof.
  cbn zeta. intros Hlen Hbefore Hpast Hinv Hexcl Hearlier.
  rewrite (validate_at_position stub current_date pool_id subscriber_id
             before_old before_new old_range date_range after_old after_new
             log log1 Hlen Hbefore).
  rewrite validate_position_eq.
  rewrite (validations_pass current_date date_range Hpast Hinv).
  assert (Hchanged : date_range_changed (Models.start_date old_range)
                       (Models.end_date old_range) (Schemas.start_date date_range)
                       (Schemas.end_date date_range) = true).
  { destruct (excluded_periods_shape (Models.start_date old_range)
                (Models.end_date old_range) (Schemas.start_date date_range)
                (Schemas.end_date date_range)) as [_ Hiff].
    apply Hiff. rewrite Hexcl. now destruct earlier. }
  unfold date_change_branch. rewrite Hchanged, Hexcl.
  rewrite check_excluded_app, Hearlier, check_excluded_cons. cbn zeta.
  destruct (is_booking_exists (stub log2 _)) eqn:Hexists.
  - destruct (Z.gtb_spec (Models.capacity old_range) (Schemas.capacity date_range))
      as [Hred | Hnot].
    + split; [| split].
      * eexists. cbn [snd]. reflexivity.
      * reflexivity.
      * intros _ Hle. lia.
    + split; [| split].
      * exists []. reflexivity.
      * intros _ Hgt. lia.
      * reflexivity.
  - split; [| split; discriminate].
    pose proof (check_excluded_queries stub pool_id subscriber_id
                  (Models.capacity old_range) (Schemas.capacity date_range)
                  (Models.capacity old_range >? Schemas.capacity date_range) later
                  (log2 ++ [request pool_id excluded_start (Some excluded_end)
                              (Models.capacity old_range) subscriber_id false]))
      as (more & Hmore & _).
    destruct (check_excluded _ _ _ _ _ _ later _) as [[r |] l];
      cbn [snd] in Hmore; subst l.
    + exists more. cbn [snd]. now rewrite <- app_assoc.
    + rewrite capacity_branch_eq. cbn zeta.
      destruct (_ >? _).
      * destruct (_ && _).
        -- eexists. cbn [snd]. rewrite <- !app_assoc. reflexivity.
        -- match goal with
           | |- context [validate_service_pool_changes ?s ?c ?a ?b ?p ?q ?l] =>
               destruct (validate_pairs_extends s c p q (combine a b) l)
                 as (rest & Hrest)
           end.
           unfold validate_service_pool_changes. rewrite Hrest.
           eexists. rewrite <- !app_assoc. reflexivity.
      * match goal with
        | |- context [validate_service_pool_changes ?s ?c ?a ?b ?p ?q ?l] =>
            destruct (validate_pairs_extends s c p q (combine a b) l)
              as (rest & Hrest)
        end.
        unfold validate_service_pool_changes. rewrite Hrest.
        eexists. rewrite <- !app_assoc. reflexivity.
Qed.

Lemma bookings_in_an_excluded_period_witness :
  let today := Iso.on "2026-11-03" in
  let existing := [stored "2027-01-01" (Some "2027-06-30") 10] in
  let changed := [proposed "2027-02-01" (Some "2027-06-30") 8] in
  let ask_old :=
    request 7 (Iso.on "2027-01-01") (Some (Iso.on "2027-02-01")) 10 3 false in
  let ask_new :=
    request 7 (Iso.on "2027-01-01") (Some (Iso.on "2027-02-01")) 8 3 true in
  validate_service_pool_changes busy_stub today existing changed 7 3 []
  = (soft_reject Params.REDUCED_DATE_CAPACITY_MESSAGE, [ask_old; ask_new]).
Proof.
  cbn zeta.
  refine (proj1 (proj2 (bookings_in_an_excluded_period busy_stub
    (Iso.on "2026-11-03") [] [] [] []
    (stored "2027-01-01" (Some "2027-06-30") 10)
    (proposed "2027-02-01" (Some "2027-06-30") 8) 7 3
    [] [] (Iso.on "2027-01-01") (Iso.on "2027-02-01") [] [] []
    _ _ _ _ _ _)) _ _).
  - reflexivity.
  - reflexivity.
  - intros (e & He & Hlt). vm_compute in He. injection He as <-.
    vm_compute in Hlt. discriminate.
  - intros (e & He & Hgt). vm_compute in He. injection He as <-.
    vm_compute in Hgt. discriminate.
  - vm_compute. reflexivity.
  - reflexivity.
  - vm_compute. reflexivity.
  - vm_compute. reflexivity.
Defined.

(** ** Capacity reduced over the whole stored range *)

(** C3: at a position whose predecessors passed, whose validations pass and
    whose date-change branch returned nothing, a reduced capacity makes
    exactly one more query: the stored range [(oldStart, oldEnd)], at the new
    capacity, with the capacity flag.  The position returns the soft rejection
    [REDUCE_CAPACITY_MESSSAGE] exactly when the answer reports both that
    bookings exist and that the capacity is exceeded; otherwise the call goes
    on with the positions after it. *)
Theorem capacity_reduced_over_the_stored_range
    (stub : list Booking.Request -> Booking.Request -> gmap string pyval)
    (current_date : date)
    (before_old after_old : list Models.PoolDateRange)
    (before_new after_new : list Schemas.PoolDateRangeCreate)
    (old_range : Models.PoolDateRange) (date_range : Schemas.PoolDateRangeCreate)
    (pool_id subscriber_id : Z) (log log1 log2 : list Booking.Request) :
  let start1 := Models.start_date old_range in
  let end1 := Models.end_date old_range in
  let start2 := Schemas.start_date date_range in
  let end2 := Schemas.end_date date_range in
  let old_capacity := Models.capacity old_range in
  let new_capacity := Schemas.capacity date_range in
  let ask := request pool_id start1 end1 new_capacity subscriber_id true in
  let exceeded :=
    is_booking_exists (stub log2 ask) && is_capacity_check (stub log2 ask) in
  length before_old = length before_new ->
  validate_service_pool_changes stub current_date before_old before_new
    pool_id subscriber_id log = (accept, log1) ->
  ~ ends_before current_date date_range ->
  ~ inverted date_range ->
  date_change_branch stub pool_id subscriber_id start1 end1 start2 end2
    old_capacity new_capacity log1 = (None, log2) ->
  old_capacity > new_capacity ->
  validate_position stub current_date pool_id subscriber_id old_range date_range log1
  = (if exceeded then Some (soft_reject Params.REDUCE_CAPACITY_MESSSAGE) else None,
     log2 ++ [ask])
  /\ validate_service_pool_changes stub current_date
       (before_old ++ old_range :: after_old)
       (before_new ++ date_range :: after_new) pool_id subscriber_id log
     = if exceeded then (soft_reject Params.REDUCE_CAPACITY_MESSSAGE, log2 ++ [ask])
       else validate_service_pool_changes stub current_date after_old after_new
              pool_id subscriber_id (log2 ++ [ask]).
Proof.
  cbn zeta. intros Hlen Hbefore Hpast Hinv Hdates Hred.
  rewrite (validate_at_position stub current_date pool_id subscriber_id
             before_old before_new old_range date_range after_old after_new
             log log1 Hlen Hbefore).
  rewrite validate_position_eq.
  rewrite (validations_pass current_date date_range Hpast Hinv), Hdates, capacity_branch_eq.
  replace (Models.capacity old_range >? Schemas.capacity date_range) with true
    by (symmetry; apply Z.gtb_gt; lia).
  cbn zeta. destruct (_ && _); split; reflexivity.
Qed.

Lemma capacity_reduced_over_the_stored_range_witness :
  let today := Iso.on "2026-11-03" in
  let existing := [stored "2027-01-01" None 10] in
  let changed := [proposed "2027-01-01" None 6] in
  validate_service_pool_changes busy_stub today existing changed 7 3 []
  = (soft_reject Params.REDUCE_CAPACITY_MESSSAGE,
     [request 7 (Iso.on "2027-01-01") None 6 3 true]).
Proof.
  cbn zeta.
  refine (proj2 (capacity_reduced_over_the_stored_range busy_stub
    (Iso.on "2026-11-03") [] [] [] []
    (stored "2027-01-01" None 10) (proposed "2027-01-01" None 6) 7 3 [] [] []
    _ _ _ _ _ _)).
  - reflexivity.
  - reflexivity.
  - intros (e & He & Hlt). vm_compute in He. discriminate.
  - intros (e & He & Hgt). vm_compute in He. discriminate.
  - vm_compute. reflexivity.
  - vm_compute. reflexivity.
Defined.

(** ** Replacing the ranges of a pool *)

Section ReplaceFacts.
Context `{DateText}.

Lemma log_deletions_spec d pool_id user_id subscriber_id existing acc :
  let (d', ids) := log_deletions d pool_id user_id subscriber_id existing acc in
  pool_date_ranges d' = pool_date_ranges d
  /\ pools d' = pools d
  /\ ids = acc ++ List.map Models.pdr_id existing
  /\ List.map Models.action_type (pool_date_range_history d')
     = List.map Models.action_type (pool_date_range_history d)
       ++ List.map (fun _ => "DELETE") existing.
Proof.
  revert d acc. induction existing as [| o rest IH]; intros d acc.
  - cbn. rewrite !app_nil_r. auto.
  - cbn [log_deletions].
    specialize (IH (log_pool_date_range_history d pool_id (Models.pdr_id o)
                      "DELETE" (Some (Models.start_date o)) (Models.end_date o)
                      (Some (Models.capacity o)) user_id subscriber_id)
                   (acc ++ [Models.pdr_id o])).
    destruct (log_deletions _ _ _ _ rest _) as [d' ids].
    destruct IH as (Hr & Hp & Hi & Hh). cbn in *.
    rewrite Hr, Hp, Hi, Hh, List.map_app, <- !app_assoc. auto.
Qed.

Lemma insert_ranges_spec d pool_id user_id updated_by subscriber_id ranges acc :
  let (d', data) :=
    insert_ranges d pool_id user_id updated_by subscriber_id ranges acc in
  exists rows,
    pool_date_ranges d' = pool_date_ranges d ++ rows
    /\ pools d' = pools d
    /\ data = acc ++ List.map to_dict rows
    /\ List.map row_tuple rows = List.map tuple_of ranges
    /\ Forall (fun r => live_range_of pool_id r = true) rows
    /\ List.map Models.action_type (pool_date_range_history d')
       = List.map Models.action_type (pool_date_range_history d)
         ++ List.map (fun _ => "INSERT") ranges.
Proof.
  revert d acc. induction ranges as [| n rest IH]; intros d acc.
  - exists []. cbn. rewrite !app_nil_r. repeat split; auto.
  - cbn [insert_ranges add_pool_date_range].
    match goal with
    | |- context [insert_ranges ?d1 _ _ _ _ rest ?acc1] =>
        specialize (IH d1 acc1);
        destruct (insert_ranges d1 pool_id user_id updated_by subscriber_id
                    rest acc1) as [d' data]
    end.
    destruct IH as (rows & Hr & Hp & Hd & Ht & Hl & Hh). cbn in *.
    eexists (_ :: rows). rewrite Hr, Hp, Hd, Hh, List.map_app, <- !app_assoc.
    cbn. rewrite Ht. repeat split; try reflexivity.
    constructor; [| exact Hl].
    unfold live_range_of. cbn. now rewrite Z.eqb_refl.
Qed.

Lemma filter_live_after_delete pool_id (rows new_rows : list Models.PoolDateRange) :
  Forall (fun r => live_range_of pool_id r = true) new_rows ->
  List.filter (live_range_of pool_id)
    (List.filter (fun r => negb (live_range_of pool_id r)) rows ++ new_rows)
  = new_rows.
Proof.
  intros Hlive. rewrite List.filter_app.
  replace (List.filter (live_range_of pool_id)
             (List.filter (fun r => negb (live_range_of pool_id r)) rows))
    with (@nil Models.PoolDateRange).
  - cbn [app]. induction Hlive as [| r l Hr _ IH]; [reflexivity |].
    cbn [List.filter]. now rewrite Hr, IH.
  - induction rows as [| r rows IH]; [reflexivity |].
    cbn [List.filter]. destruct (live_range_of pool_id r) eqn:Hr; cbn [negb].
    + exact IH.
    + cbn [List.filter]. now rewrite Hr.
Qed.

(** What the replacement leaves in the database. *)
Lemma replace_ranges_spec d pool_id ranges user_id subscriber_id :
  let existing := List.filter (live_range_of pool_id) (pool_date_ranges d) in
  exists d' new_rows,
    replace_ranges d pool_id ranges user_id subscriber_id existing
    = (d', (List.map Models.pdr_id existing, List.map to_dict new_rows))
    /\ pool_date_ranges d'
       = List.filter (fun r => negb (live_range_of pool_id r)) (pool_date_ranges d)
         ++ new_rows
    /\ List.map row_tuple new_rows = List.map tuple_of ranges
    /\ List.filter (live_range_of pool_id) (pool_date_ranges d') = new_rows
    /\ pools d' = pools d
    /\ List.map Models.action_type (pool_date_range_history d')
       = List.map Models.action_type (pool_date_range_history d)
         ++ List.map (fun _ => "DELETE") existing
         ++ List.map (fun _ => "INSERT") ranges.
Proof.
  cbn zeta. unfold replace_ranges.
  pose proof (log_deletions_spec d pool_id user_id subscriber_id
                (List.filter (live_range_of pool_id) (pool_date_ranges d)) [])
    as Hdel.
  destruct (log_deletions _ _ _ _ _ _) as [d1 ids].
  destruct Hdel as (Hr1 & Hp1 & Hi1 & Hh1). cbn [app] in Hi1. subst ids.
  pose proof (insert_ranges_spec (delete_live_ranges d1 pool_id) pool_id user_id
                (Some user_id) subscriber_id ranges []) as Hins.
  destruct (insert_ranges _ _ _ _ _ _ _) as [d2 data].
  destruct Hins as (rows & Hr2 & Hp2 & Hd2 & Ht2 & Hl2 & Hh2).
  cbn [app delete_live_ranges pool_date_ranges pools pool_date_range_history]
    in *.
  exists d2, rows. subst data. rewrite Hr2, Hr1, Hp2, Hp1, Hh2, Hh1.
  rewrite filter_live_after_delete by exact Hl2.
  rewrite <- app_assoc. repeat split; try reflexivity. exact Ht2.
Qed.
End ReplaceFacts.

(** [edit_pool] once the interval checks pass and the pool is found: what
    [update_pool_date_ranges] returns decides the response. *)
Lemma edit_pool_reaches_update `{DateText} `{DateRangeChecker}
    stub current_date name_taken publish_update
    (pool_update : Schemas.PoolUpdate) (user_id subscriber_id : Z) (w : World)
    (ranges : list Schemas.PoolDateRangeCreate) db_pool d0 :
  Schemas.date_ranges pool_update = Some ranges ->
  ranges <> [] ->
  check_pool_dates ranges = None ->
  update_pool name_taken (db w) (Schemas.id pool_update) pool_update user_id
    = Return (Some (db_pool, d0)) ->
  edit_pool stub current_date name_taken publish_update pool_update user_id
    subscriber_id w
  = match update_pool_date_ranges stub current_date (Schemas.id pool_update)
            ranges user_id subscriber_id (Schemas.check_date_ranges pool_update)
            {| db := d0; calls := calls w |} with
    | (Raise e, w') => (handle e, w')
    | (Return (inl updated_date_range), w') =>
        if is_False (dict_get updated_date_range "success" VNone)
        then (PlainDict updated_date_range, w')
        else (handle (OtherException "too many values to unpack (expected 2)"), w')
    | (Return (inr (deleted_ids, updated_data)), w') =>
        publish_update db_pool deleted_ids updated_data w'
    end.
Proof.
  intros Hranges Hne Hcheck Hpool. unfold edit_pool.
  unfold given_ranges. rewrite Hranges. cbn [from_option id].
  destruct ranges as [| n rest]; [congruence |].
  rewrite Hcheck, Hpool.
  destruct (update_pool_date_ranges _ _ _ _ _ _ _ _) as [[[r | [ids data]] | e] w'];
    reflexivity.
Qed.

(** C6: with the flag [check_date_ranges] set, [update_pool_date_ranges]
    neither evaluates [validate_service_pool_changes] nor calls the booking
    service: its result is the same under every stub and every clock, the log
    of calls is untouched, and, whatever the stored and the proposed partitions
    are, the live ranges of the pool are deleted (and logged as deletions) and
    the proposed ones inserted in their place (and logged as insertions).
    [edit_pool] hands the flag of the request over: when the interval checks
    pass and the pool is found, a request carrying the flag ends in the
    publication of the replaced ranges, the log of calls untouched. *)
Theorem bypass_flag_skips_reconciliation `{DateText}
    (pool_id : Z) (date_ranges : list Schemas.PoolDateRangeCreate)
    (user_id subscriber_id : Z) (w : World) :
  let existing_ranges :=
    List.filter (live_range_of pool_id) (pool_date_ranges (db w)) in
  (exists d new_rows,
    (forall stub current_date,
       update_pool_date_ranges stub current_date pool_id date_ranges user_id
         subscriber_id true w
       = (Return (inr (List.map Models.pdr_id existing_ranges,
                       List.map to_dict new_rows)),
          {| db := d; calls := calls w |}))
    /\ pool_date_ranges d
       = List.filter (fun r => negb (live_range_of pool_id r))
           (pool_date_ranges (db w)) ++ new_rows
    /\ List.map row_tuple new_rows = List.map tuple_of date_ranges
    /\ List.filter (live_range_of pool_id) (pool_date_ranges d) = new_rows
    /\ List.map Models.action_type (pool_date_range_history d)
       = List.map Models.action_type (pool_date_range_history (db w))
         ++ List.map (fun _ => "DELETE") existing_ranges
         ++ List.map (fun _ => "INSERT") date_ranges)
  /\ (forall (checker : DateRangeChecker) stub current_date name_taken
             publish_update pool_update db_pool d0,
        Schemas.check_date_ranges pool_update = true ->
        Schemas.id pool_update = pool_id ->
        Schemas.date_ranges pool_update = Some date_ranges ->
        date_ranges <> [] ->
        check_pool_dates date_ranges = None ->
        update_pool name_taken (db w) pool_id pool_update user_id
          = Return (Some (db_pool, d0)) ->
        exists d new_rows,
          edit_pool stub current_date name_taken publish_update pool_update
            user_id subscriber_id w
          = publish_update db_pool
              (List.map Models.pdr_id
                 (List.filter (live_range_of pool_id) (pool_date_ranges d0)))
              (List.map to_dict new_rows) {| db := d; calls := calls w |}
          /\ List.map row_tuple new_rows = List.map tuple_of date_ranges
          /\ List.filter (live_range_of pool_id) (pool_date_ranges d) = new_rows).
Proof.
  cbn zeta. split.
  - destruct (replace_ranges_spec (db w) pool_id date_ranges user_id subscriber_id)
      as (d & rows & Hrep & Hrows & Htup & Hlive & _ & Hhist).
    exists d, rows. repeat split; try assumption.
    intros stub current_date. unfold update_pool_date_ranges. cbn [negb].
    now rewrite Hrep.
  - intros checker stub current_date name_taken publish_update pool_update
      db_pool d0 Hflag Hid Hranges Hne Hcheck Hpool. subst pool_id.
    rewrite (edit_pool_reaches_update stub current_date name_taken publish_update
               pool_update user_id subscriber_id w date_ranges db_pool d0
               Hranges Hne Hcheck Hpool).
    rewrite Hflag.
    destruct (replace_ranges_spec d0 (Schemas.id pool_update) date_ranges user_id
                subscriber_id)
      as (d & rows & Hrep & Hrows & Htup & Hlive & _ & Hhist).
    exists d, rows. repeat split; try assumption.
    unfold update_pool_date_ranges. cbn [negb db calls].
    now rewrite Hrep.
Qed.

(** ** What a rejected reconciliation hands to the caller *)

Lemma update_pool_keeps_ranges name_taken d pool_id pool_update user_id db_pool d0 :
  update_pool name_taken d pool_id pool_update user_id = Return (Some (db_pool, d0)) ->
  pool_date_ranges d0 = pool_date_ranges d.
Proof.
  unfold update_pool. destruct (List.find _ _); [| discriminate].
  destruct (match Schemas.name pool_update with
            | Some n => name_taken d pool_id n
            | None => false
            end); [discriminate |].
  now intros [= _ <-].
Qed.

(** C8, as the code has it: [validate_service_pool_changes] returns either the
    accepting dict or one of five rejections.  A rejection carries
    [success = False], a [dialogue] flag and a [message], and nothing else: no
    [translation_key].  [update_pool_date_ranges] returns that dict as it is,
    leaving the database untouched, and [edit_pool] returns it as it is to the
    caller. *)
Theorem rejections_carry_success_dialogue_and_message `{DateText}
    (stub : list Booking.Request -> Booking.Request -> gmap string pyval)
    (current_date : date) (pool_id : Z)
    (date_ranges : list Schemas.PoolDateRangeCreate)
    (user_id subscriber_id : Z) (w : World) :
  let existing_ranges :=
    List.filter (live_range_of pool_id) (pool_date_ranges (db w)) in
  let outcome :=
    validate_service_pool_changes stub current_date existing_ranges date_ranges
      pool_id subscriber_id (calls w) in
  (fst outcome = accept \/ is_rejection (fst outcome))
  /\ (is_rejection (fst outcome) ->
      fst outcome !! "success" = Some (VBool false)
      /\ (exists b, fst outcome !! "dialogue" = Some (VBool b))
      /\ (exists m, fst outcome !! "message" = Some (VStr m))
      /\ fst outcome !! "translation_key" = None
      /\ dom (fst outcome) = ({[ "success"; "dialogue"; "message" ]} : gset string)
      /\ update_pool_date_ranges stub current_date pool_id date_ranges user_id
           subscriber_id false w
         = (Return (inl (fst outcome)), {| db := db w; calls := snd outcome |})
      /\ (forall (checker : DateRangeChecker) name_taken publish_update
                 pool_update db_pool d0,
            Schemas.check_date_ranges pool_update = false ->
            Schemas.id pool_update = pool_id ->
            Schemas.date_ranges pool_update = Some date_ranges ->
            date_ranges <> [] ->
            check_pool_dates date_ranges = None ->
            update_pool name_taken (db w) pool_id pool_update user_id
              = Return (Some (db_pool, d0)) ->
            edit_pool stub current_date name_taken publish_update pool_update
              user_id subscriber_id w
            = (PlainDict (fst outcome), {| db := d0; calls := snd outcome |}))).
Proof.
  cbn zeta.
  set (existing := List.filter (live_range_of pool_id) (pool_date_ranges (db w))).
  pose proof (validate_pairs_outcome stub current_date pool_id subscriber_id
                (combine existing date_ranges) (calls w)) as Hout.
  cbn zeta in Hout.
  fold (validate_service_pool_changes stub current_date existing date_ranges
          pool_id subscriber_id) in Hout.
  split; [exact Hout |].
  intros Hrej.
  destruct (rejection_fields _ Hrej) as (Hs & Hk & Hm & Hd & Hdom).
  assert (Hupd : forall d,
            pool_date_ranges d = pool_date_ranges (db w) ->
            update_pool_date_ranges stub current_date pool_id date_ranges user_id
              subscriber_id false {| db := d; calls := calls w |}
            = (Return (inl (fst (validate_service_pool_changes stub current_date
                                   existing date_ranges pool_id subscriber_id
                                   (calls w)))),
               {| db := d;
                  calls := snd (validate_service_pool_changes stub current_date
                                  existing date_ranges pool_id subscriber_id
                                  (calls w)) |})).
  { intros d Hd0. unfold update_pool_date_ranges. cbn [negb db calls].
    rewrite Hd0. fold existing.
    destruct (validate_service_pool_changes stub current_date existing date_ranges
                pool_id subscriber_id (calls w)) as [r l].
    cbn [fst snd] in *. now rewrite Hs. }
  repeat split; try assumption.
  - specialize (Hupd (db w) eq_refl). now destruct w.
  - intros checker name_taken publish_update pool_update db_pool d0
      Hflag Hid Hranges Hne Hcheck Hpool. subst pool_id.
    rewrite (edit_pool_reaches_update stub current_date name_taken publish_update
               pool_update user_id subscriber_id w date_ranges db_pool d0
               Hranges Hne Hcheck Hpool).
    rewrite Hflag, (Hupd d0 (update_pool_keeps_ranges _ _ _ _ _ _ _ Hpool)).
    unfold dict_get. now rewrite Hs.
Qed.

(** C8 as stated fails: the rejection of a proposal that ends in the past
    has no [translation_key]. *)
Lemma rejection_without_translation_key :
  ~ (forall stub current_date existing_ranges date_ranges pool_id subscriber_id log,
       let r := result_of (validate_service_pool_changes stub current_date
                             existing_ranges date_ranges pool_id subscriber_id) log in
       r !! "success" = Some (VBool false) ->
       is_Some (r !! "message") /\ is_Some (r !! "translation_key")).
Proof.
  intros Hclaim.
  destruct (Hclaim quiet_stub (Iso.on "2026-11-03")
              [stored "2024-01-01" (Some "2024-12-31") 10]
              [proposed "2024-01-01" (Some "2024-12-31") 10] 7 3 [])
    as [_ [v Hkey]].
  - vm_compute. reflexivity.
  - vm_compute in Hkey. discriminate.
Qed.

(** ** Clipping a request to a rule *)

Lemma py_max_is_max (a b : date) : py_max a b = Z.max a b.
Proof. unfold py_max. destruct (Z.gtb_spec b a); lia. Qed.

Lemma py_min_is_min (a b : date) : py_min a b = Z.min a b.
Proof. unfold py_min. destruct (Z.ltb_spec b a); lia. Qed.

(** C7: when the four arguments of [adjust_dates] are dates or strings that
    parse, the call fails with [START_DATE_GREATER_THAN_END_DATE] exactly when
    the request start is after the request end, whatever the rule bounds are;
    otherwise it succeeds with the larger of the two starts and the smaller of
    the two ends, also when that start is after that end (a rule lying wholly
    before or after the request).  When one of the arguments is a string that
    does not parse, the result is the failure [INVALID_DATE_FORMAT] carrying
    the message of a conversion that failed. *)
Theorem adjust_dates_clips_the_request `{DateText}
    (STARTDATEGREATERTHANENDDATE INVALIDDATEFORMAT : string)
    (rule_start_date rule_end_date request_start_date request_end_date : date_arg) :
  let result :=
    adjust_dates STARTDATEGREATERTHANENDDATE INVALIDDATEFORMAT
      rule_start_date rule_end_date request_start_date request_end_date in
  (forall rule_start rule_end request_start request_end,
     as_date rule_start_date = inr rule_start ->
     as_date rule_end_date = inr rule_end ->
     as_date request_start_date = inr request_start ->
     as_date request_end_date = inr request_end ->
     (request_start > request_end ->
      result = {[ "success" := VBool false;
                  "message" := VStr STARTDATEGREATERTHANENDDATE;
                  "translation_key" := VStr "START_DATE_GREATER_THAN_END_DATE" ]})
     /\ (request_start <= request_end ->
         result = {[ "success" := VBool true;
                     "start_date" := VDate (Z.max request_start rule_start);
                     "end_date" := VDate (Z.min request_end rule_end) ]})
     /\ (result !! "translation_key"
           = Some (VStr "START_DATE_GREATER_THAN_END_DATE")
         <-> request_start > request_end)
     /\ (result !! "success" = Some (VBool true)
         <-> request_start <= request_end)
     /\ (request_start <= request_end ->
         rule_end < request_start \/ request_end < rule_start ->
         exists s e,
           result !! "success" = Some (VBool true)
           /\ result !! "start_date" = Some (VDate s)
           /\ result !! "end_date" = Some (VDate e)
           /\ s > e))
  /\ (forall x,
        In x [rule_start_date; rule_end_date; request_start_date; request_end_date] ->
        (exists ve, as_date x = inl ve) ->
        exists ve,
          In (inl ve) (List.map as_date [rule_start_date; rule_end_date;
                                          request_start_date; request_end_date])
          /\ result = {[ "success" := VBool false;
                         "api_error" := VStr ve;
                         "message" := VStr INVALIDDATEFORMAT;
                         "translation_key" := VStr "INVALID_DATE_FORMAT" ]}).
Proof.
  cbn zeta. unfold adjust_dates, invalid_date_format. split.
  - intros rule_start rule_end request_start request_end -> -> -> ->.
    rewrite py_max_is_max, py_min_is_min.
    destruct (Z.gtb_spec request_start request_end) as [Hgt | Hle].
    + repeat split; try reflexivity; intros; try lia; try discriminate.
    + repeat split; try reflexivity; intros; try lia; try discriminate.
      exists (Z.max request_start rule_start), (Z.min request_end rule_end).
      repeat split; lia.
  - intros x Hin [ve Hve]. cbn [List.map In].
    destruct (as_date rule_start_date) as [e1 | d1] eqn:H1; [eauto 8 |].
    destruct (as_date rule_end_date) as [e2 | d2] eqn:H2; [eauto 8 |].
    destruct (as_date request_start_date) as [e3 | d3] eqn:H3; [eauto 8 |].
    destruct (as_date request_end_date) as [e4 | d4] eqn:H4; [eauto 8 |].
    exfalso. cbn [In] in Hin.
    destruct Hin as [<- | [<- | [<- | [<- | []]]]]; congruence.
Qed.

(** The two calls of the specification's examples, and a rule lying wholly
    before the request. *)
Example adjust_dates_examples :
  adjust_dates "start after end" "bad date"
    (AStr "2024-01-01") (AStr "2024-01-31") (AStr "2024-01-10") (AStr "2024-01-05")
  = {[ "success" := VBool false; "message" := VStr "start after end";
       "translation_key" := VStr "START_DATE_GREATER_THAN_END_DATE" ]}
  /\ adjust_dates "start after end" "bad date"
       (AStr "2024-01-05") (AStr "2024-01-20") (AStr "2024-01-01") (AStr "2024-01-31")
     = {[ "success" := VBool true;
          "start_date" := VDate (Iso.on "2024-01-05");
          "end_date" := VDate (Iso.on "2024-01-20") ]}
  /\ adjust_dates "start after end" "bad date"
       (AStr "2024-01-01") (AStr "2024-01-05") (AStr "2024-02-01") (AStr "2024-02-10")
     = {[ "success" := VBool true;
          "start_date" := VDate (Iso.on "2024-02-01");
          "end_date" := VDate (Iso.on "2024-01-05") ]}
  /\ adjust_dates "start after end" "bad date"
       (AStr "2024-01-01") (AStr "2024-01-05") (AStr "2024-13-01") (AStr "2024-02-10")
       !! "translation_key" = Some (VStr "INVALID_DATE_FORMAT").
Proof. vm_compute. repeat split. Qed.

(** ** Findings of the interval checker *)

(** C9, what the code does: both routes return from the first iteration of
    the loop over the findings.  When the checker reports overlaps, the
    response carries the first overlap and nothing of the others, and the gaps
    are not computed; when it reports no overlap but gaps, the response
    carries the first gap only.  This holds for every checker. *)
Theorem routes_return_the_first_finding_only `{DateText} `{DateRangeChecker}
    (ranges : list Schemas.PoolDateRangeCreate) :
  ranges <> [] ->
  let converted := convert_pool_date_ranges ranges in
  forall first others,
    find_overlapping_ranges converted = first :: others
    \/ (find_overlapping_ranges converted = []
        /\ check_date_gaps converted = first :: others) ->
    let key := match find_overlapping_ranges converted with
               | [] => "POOL_DATE_GAPS"
               | _ => "POOL_DATES_OVERLAPS"
               end in
    check_pool_dates ranges = Some (finding_response first key)
    /\ (forall stub current_date name_taken publish_update pool_update
               user_id subscriber_id w,
          Schemas.date_ranges pool_update = Some ranges ->
          edit_pool stub current_date name_taken publish_update pool_update
            user_id subscriber_id w = (finding_response first key, w))
    /\ (forall name_taken publish_create pool user_id subscriber_id w,
          Schemas.pc_date_ranges pool = ranges ->
          create_pool_with_dates name_taken publish_create pool user_id
            subscriber_id w = (finding_response first key, w)).
Proof.
  intros Hne. cbn zeta. intros first others Hfound.
  assert (Hcheck : check_pool_dates ranges
                   = Some (finding_response first
                             match find_overlapping_ranges
                                     (convert_pool_date_ranges ranges) with
                             | [] => "POOL_DATE_GAPS"
                             | _ => "POOL_DATES_OVERLAPS"
                             end)).
  { unfold check_pool_dates, return_in_loop, finding_response.
    destruct Hfound as [Ho | (Ho & Hg)]; rewrite Ho; [reflexivity |].
    now rewrite Hg. }
  split; [exact Hcheck | split].
  - intros stub current_date name_taken publish_update pool_update user_id
      subscriber_id w Hranges.
    unfold edit_pool, given_ranges. rewrite Hranges. cbn [from_option id].
    destruct ranges as [| n rest]; [congruence |]. now rewrite Hcheck.
  - intros name_taken publish_create pool user_id subscriber_id w Hranges.
    unfold create_pool_with_dates. rewrite Hranges.
    destruct ranges as [| n rest]; [congruence |]. now rewrite Hcheck.
Qed.

Lemma routes_return_the_first_finding_only_witness :
  length (@find_overlapping_ranges (SpecChecker.checker)
            (convert_pool_date_ranges three_overlapping)) = 3%nat
  /\ @edit_pool iso_date_text SpecChecker.checker quiet_stub (Iso.on "2026-11-03")
       free_names silent_update (replace_request three_overlapping) 1 3
       one_pool_world
     = (finding_response
          "Date range 2027-01-01 to 2027-01-10 overlaps with 2027-01-05 to 2027-01-20"
          "POOL_DATES_OVERLAPS", one_pool_world).
Proof.
  split; [vm_compute; reflexivity |].
  refine (proj1 (proj2 (@routes_return_the_first_finding_only iso_date_text
    SpecChecker.checker three_overlapping _
    "Date range 2027-01-01 to 2027-01-10 overlaps with 2027-01-05 to 2027-01-20"
    ["Date range 2027-01-01 to 2027-01-10 overlaps with 2027-01-08 to 2027-01-30";
     "Date range 2027-01-05 to 2027-01-20 overlaps with 2027-01-08 to 2027-01-30"]
    _)) quiet_stub (Iso.on "2026-11-03") free_names silent_update
    (replace_request three_overlapping) 1 3 one_pool_world _).
  - discriminate.
  - left. vm_compute. reflexivity.
  - reflexivity.
Defined.

(** The second half of C9 on the checker of the specification: a partition
    that tiles the timeline has neither an overlap nor a gap, and a checker
    that finds nothing lets both routes go on. *)

Lemma tiles_later_start_after (a : date * date) (rest : list (date * date)) :
  tiles (a :: rest) -> Forall (fun b => snd a < fst b) rest.
Proof.
  revert a. induction rest as [| b rest IH]; intros a Ht; [constructor |].
  destruct Ht as (Ha & Hab & Hrest). cbn iota in Hab.
  specialize (IH b Hrest). destruct Hrest as (Hb & _ & _).
  constructor; [lia |].
  eapply List.Forall_impl; [| exact IH]. cbn beta. intros c Hc. lia.
Qed.

Lemma tiles_no_overlap (ranges : list (date * date)) :
  tiles ranges -> SpecChecker.find_overlaps ranges = [].
Proof.
  induction ranges as [| a rest IH]; intros Ht; [reflexivity |].
  cbn [SpecChecker.find_overlaps].
  pose proof (tiles_later_start_after a rest Ht) as Hlater.
  destruct Ht as (_ & _ & Hrest). rewrite (IH Hrest), app_nil_r.
  replace (List.filter (fun b => (fst a <=? snd b) && (fst b <=? snd a)) rest)
    with (@nil (date * date)); [reflexivity |].
  clear IH Hrest. induction Hlater as [| b l Hb _ IHl]; [reflexivity |].
  cbn [List.filter].
  replace (fst b <=? snd a) with false by (symmetry; apply Z.leb_gt; lia).
  now rewrite andb_false_r.
Qed.

Lemma insert_after_smaller_starts (r : date * date) (sorted : list (date * date)) :
  Forall (fun s => fst s < fst r) sorted ->
  SpecChecker.insert_by_start r sorted = sorted ++ [r].
Proof.
  induction 1 as [| s l Hs _ IH]; [reflexivity |].
  cbn [SpecChecker.insert_by_start app].
  replace (fst r <? fst s) with false by (symmetry; apply Z.ltb_ge; lia).
  now rewrite IH.
Qed.

Lemma tiles_already_sorted (acc ranges : list (date * date)) :
  Forall (fun s => Forall (fun x => fst s < fst x) ranges) acc ->
  tiles ranges ->
  List.fold_left (fun sorted r => SpecChecker.insert_by_start r sorted) ranges acc
  = acc ++ ranges.
Proof.
  revert acc. induction ranges as [| x rest IH]; intros acc Hacc Ht.
  - cbn. now rewrite app_nil_r.
  - cbn [List.fold_left].
    rewrite insert_after_smaller_starts.
    + rewrite IH.
      * now rewrite <- app_assoc.
      * apply Forall_app. split.
        -- eapply List.Forall_impl; [| exact Hacc]. cbn beta.
           intros s Hs. now inversion Hs.
        -- constructor; [| constructor].
           pose proof (tiles_later_start_after x rest Ht) as Hlater.
           destruct Ht as (Hx & _ & _).
           eapply List.Forall_impl; [| exact Hlater]. cbn beta. intros y Hy. lia.
      * now destruct Ht as (_ & _ & Hrest).
    + eapply List.Forall_impl; [| exact Hacc]. cbn beta.
      intros s Hs. now inversion Hs.
Qed.

Lemma tiles_no_gap (ranges : list (date * date)) :
  tiles ranges -> SpecChecker.find_gaps ranges = [].
Proof.
  intros Ht. unfold SpecChecker.find_gaps, SpecChecker.sort_by_start.
  rewrite (tiles_already_sorted [] ranges (List.Forall_nil _) Ht). cbn [app].
  induction ranges as [| a rest IH]; [reflexivity |].
  destruct rest as [| b rest]; [reflexivity |].
  destruct Ht as (_ & Hab & Hrest). cbn iota in Hab.
  cbn [SpecChecker.gaps_between].
  replace (fst b >? snd a + 1) with false
    by (symmetry; rewrite Z.gtb_ltb; apply Z.ltb_ge; lia).
  cbn [app]. apply IH, Hrest.
Qed.

Lemma tiling_partition_is_not_rejected `{DateText}
    (ranges : list Schemas.PoolDateRangeCreate) :
  tiles (SpecChecker.ranges_of (convert_pool_date_ranges ranges)) ->
  @check_pool_dates _ SpecChecker.checker ranges = None.
Proof.
  intros Ht. unfold check_pool_dates, SpecChecker.checker.
  cbn [find_overlapping_ranges check_date_gaps].
  now rewrite (tiles_no_overlap _ Ht), (tiles_no_gap _ Ht).
Qed.

(** The examples of the specification: one overlap; one gap; no gap between
    ranges a day apart; three overlaps among three ranges. *)
Example checker_examples :
  SpecChecker.find_overlaps
    [(Iso.on "2024-01-01", Iso.on "2024-01-10");
     (Iso.on "2024-01-05", Iso.on "2024-01-20")]
  = [((Iso.on "2024-01-01", Iso.on "2024-01-10"),
      (Iso.on "2024-01-05", Iso.on "2024-01-20"))]
  /\ SpecChecker.find_gaps
       [(Iso.on "2024-01-12", Iso.on "2024-01-20");
        (Iso.on "2024-01-01", Iso.on "2024-01-10")]
     = [((Iso.on "2024-01-01", Iso.on "2024-01-10"),
         (Iso.on "2024-01-12", Iso.on "2024-01-20"))]
  /\ SpecChecker.find_gaps
       [(Iso.on "2024-01-01", Iso.on "2024-01-10");
        (Iso.on "2024-01-11", Iso.on "2024-01-20")]
     = []
  /\ length (SpecChecker.find_overlaps
               (SpecChecker.ranges_of (convert_pool_date_ranges three_overlapping)))
     = 3%nat.
Proof. vm_compute. repeat split. Qed.

(** The calendar of the ISO instance on a few known days. *)
Example iso_examples :
  Iso.ymd2ord 2024 1 1 = 738886 /\ Iso.on "2024-01-01" = 738886
  /\ Iso.format 738886 = "2024-01-01" /\ Iso.on "2024-02-29" = 738945
  /\ Iso.format (Iso.on "2026-11-03") = "2026-11-03"
  /\ Iso.format (Iso.on "2023-12-31") = "2023-12-31"
  /\ Iso.format (Iso.on "9999-12-31") = "9999-12-31"
  /\ Iso.on "9999-12-31" = 3652059
  /\ Iso.parse "2023-02-29" = inl "day is out of range for month"
  /\ Iso.parse "2023/02/28" = inl (Iso.no_match "2023/02/28").
Proof. vm_compute. repeat split. Qed.

(** * Further properties *)

(** ** The queries of a reconciliation *)

Section QueryFacts.
Variable stub : list Booking.Request -> Booking.Request -> gmap string pyval.
Variable current_date : date.

Lemma check_excluded_budget pool_id subscriber_id oc nc reduced xs log :
  exists more,
    snd (check_excluded stub pool_id subscriber_id oc nc reduced xs log)
      = log ++ more
    /\ Forall (for_pool pool_id subscriber_id) more
    /\ Forall (fun rq => if Booking.capacity_check rq
                         then Booking.capacity rq = nc /\ reduced = true
                         else Booking.capacity rq = oc) more
    /\ (fst (check_excluded stub pool_id subscriber_id oc nc reduced xs log) = None
        -> length more = length xs)
    /\ (length more <= length xs + 1)%nat.
Proof.
  revert log. induction xs as [| [s e] xs IH]; intros log.
  - exists []. cbn. rewrite app_nil_r. repeat split; auto.
  - rewrite check_excluded_cons. cbn zeta.
    destruct (is_booking_exists _).
    + destruct reduced.
      * eexists [_; _]. cbn [fst snd]. repeat split; try discriminate.
        -- repeat constructor.
        -- repeat constructor.
        -- cbn [length]. lia.
      * eexists [_]. cbn [fst snd]. repeat split; try discriminate.
        -- repeat constructor.
        -- repeat constructor.
        -- cbn [length]. lia.
    + destruct (IH (log ++ [request pool_id s (Some e) oc subscriber_id false]))
        as (more & Hm & Hp & Hc & Hn & Hl).
      exists (request pool_id s (Some e) oc subscriber_id false :: more).
      rewrite Hm, <- app_assoc. cbn [app length]. repeat split.
      * constructor; [split; reflexivity | exact Hp].
      * constructor; [reflexivity | exact Hc].
      * intros Hnone. now rewrite (Hn Hnone).
      * lia.
Qed.

Lemma validate_position_budget pool_id subscriber_id old_range date_range log :
  exists more,
    snd (validate_position stub current_date pool_id subscriber_id
           old_range date_range log) = log ++ more
    /\ (length more <= 3)%nat
    /\ Forall (for_pool pool_id subscriber_id) more
    /\ Forall (capacity_of_position (old_range, date_range)) more.
Proof.
  rewrite validate_position_eq.
  destruct (basic_date_validations _ _ _).
  { exists []. cbn. rewrite app_nil_r. repeat split; auto; lia. }
  unfold date_change_branch.
  pose proof (excluded_periods_shape (Models.start_date old_range)
                (Models.end_date old_range) (Schemas.start_date date_range)
                (Schemas.end_date date_range)) as [Hlen _].
  destruct (date_range_changed _ _ _ _).
  - destruct (check_excluded_budget pool_id subscriber_id
                (Models.capacity old_range) (Schemas.capacity date_range)
                (Models.capacity old_range >? Schemas.capacity date_range)
                (excluded_date_ranges (Models.start_date old_range)
                   (Models.end_date old_range) (Schemas.start_date date_range)
                   (Schemas.end_date date_range)) log)
      as (more & Hm & Hp & Hc & Hn & Hl).
    assert (Hcap : Forall (capacity_of_position (old_range, date_range)) more).
    { eapply List.Forall_impl; [| exact Hc]. intros rq. unfold capacity_of_position.
      cbn [fst snd]. destruct (Booking.capacity_check rq); [| auto].
      intros [-> Hred]. split; [reflexivity | now apply Z.gtb_gt]. }
    destruct (check_excluded _ _ _ _ _ _ _ _) as [[r |] l]; cbn [fst snd] in *;
      subst l.
    + exists more. repeat split; auto. lia.
    + rewrite capacity_branch_eq.
      destruct (Z.gtb_spec (Models.capacity old_range) (Schemas.capacity date_range))
        as [Hred | Hnot].
      * eexists (more ++ [_]). cbn zeta. cbn [snd]. rewrite app_assoc.
        split; [reflexivity |]. rewrite length_app, (Hn eq_refl). cbn [length].
        repeat split.
        -- lia.
        -- apply Forall_app. split; [exact Hp | repeat constructor].
        -- apply Forall_app. split; [exact Hcap |].
           constructor; [| constructor]. unfold capacity_of_position. cbn.
           split; [reflexivity | lia].
      * exists more. repeat split; auto. rewrite (Hn eq_refl). lia.
  - cbn [ret]. rewrite capacity_branch_eq.
    destruct (Z.gtb_spec (Models.capacity old_range) (Schemas.capacity date_range))
      as [Hred | Hnot].
    + eexists [_]. cbn zeta. cbn [snd length]. repeat split.
      * lia.
      * repeat constructor.
      * constructor; [| constructor]. unfold capacity_of_position. cbn.
        split; [reflexivity | lia].
    + exists []. cbn. rewrite app_nil_r. repeat split; auto; lia.
Qed.

Lemma validate_pairs_budget pool_id subscriber_id pairs log :
  exists more,
    snd (validate_pairs stub current_date pool_id subscriber_id pairs log)
      = log ++ more
    /\ (length more <= 3 * length pairs)%nat
    /\ Forall (for_pool pool_id subscriber_id) more
    /\ Forall (fun rq => exists p, In p pairs /\ capacity_of_position p rq) more.
Proof.
  revert log. induction pairs as [| [o n] rest IH]; intros log.
  - exists []. cbn. rewrite app_nil_r. repeat split; auto.
  - rewrite validate_pairs_cons.
    destruct (validate_position_budget pool_id subscriber_id o n log)
      as (more & Hm & Hl & Hp & Hc).
    assert (Hc' : Forall (fun rq => exists p, In p ((o, n) :: rest)
                                          /\ capacity_of_position p rq) more).
    { eapply List.Forall_impl; [| exact Hc]. intros rq Hrq.
      exists (o, n). split; [now left | exact Hrq]. }
    destruct (validate_position _ _ _ _ _ _ _) as [[r |] l]; cbn [snd] in Hm;
      subst l.
    + exists more. cbn [length]. repeat split; auto. lia.
    + destruct (IH (log ++ more)) as (more' & Hm' & Hl' & Hp' & Hc'').
      exists (more ++ more'). rewrite Hm', app_assoc.
      split; [reflexivity |]. rewrite length_app. cbn [length]. repeat split.
      * lia.
      * apply Forall_app. now split.
      * apply Forall_app. split; [exact Hc' |].
        eapply List.Forall_impl; [| exact Hc'']. intros rq (p & Hin & Hrq).
        exists p. split; [now right | exact Hrq].
Qed.
End QueryFacts.

(** The reconciliation only appends to the log of calls, at most three
    queries for each correlated position, each of them for the pool and the
    subscriber of the call. *)
Theorem reconciliation_query_budget
    (stub : list Booking.Request -> Booking.Request -> gmap string pyval)
    (current_date : date)
    (existing_ranges : list Models.PoolDateRange)
    (date_ranges : list Schemas.PoolDateRangeCreate)
    (pool_id subscriber_id : Z) (log : list Booking.Request) :
  exists more,
    log_after (validate_service_pool_changes stub current_date existing_ranges
                 date_ranges pool_id subscriber_id) log = log ++ more
    /\ (length more
        <= 3 * Nat.min (length existing_ranges) (length date_ranges))%nat
    /\ Forall (for_pool pool_id subscriber_id) more.
Proof.
  unfold log_after, validate_service_pool_changes.
  destruct (validate_pairs_budget stub current_date pool_id subscriber_id
              (combine existing_ranges date_ranges) log)
    as (more & Hm & Hl & Hp & _).
  exists more. rewrite length_combine in Hl. auto.
Qed.

(** Every query of a reconciliation carries the capacities of one of the
    correlated positions: without the capacity flag the stored capacity, with
    the flag the proposed capacity of a position that reduces it.  So a
    proposal that reduces no capacity never sets the flag. *)
Theorem queries_carry_the_capacities_of_a_position
    (stub : list Booking.Request -> Booking.Request -> gmap string pyval)
    (current_date : date)
    (existing_ranges : list Models.PoolDateRange)
    (date_ranges : list Schemas.PoolDateRangeCreate)
    (pool_id subscriber_id : Z) (log : list Booking.Request) :
  exists more,
    log_after (validate_service_pool_changes stub current_date existing_ranges
                 date_ranges pool_id subscriber_id) log = log ++ more
    /\ Forall (fun rq => exists p, In p (combine existing_ranges date_ranges)
                                   /\ capacity_of_position p rq) more
    /\ (Forall (fun p => Models.capacity (fst p) <= Schemas.capacity (snd p))
          (combine existing_ranges date_ranges) ->
        Forall (fun rq => Booking.capacity_check rq = false) more).
Proof.
  unfold log_after, validate_service_pool_changes.
  destruct (validate_pairs_budget stub current_date pool_id subscriber_id
              (combine existing_ranges date_ranges) log)
    as (more & Hm & _ & _ & Hc).
  exists more. repeat split; auto.
  intros Hkeep. eapply List.Forall_impl; [| exact Hc].
  intros rq (p & Hin & Hrq). unfold capacity_of_position in Hrq.
  destruct (Booking.capacity_check rq); [| reflexivity].
  destruct Hrq as [_ Hred]. rewrite List.Forall_forall in Hkeep.
  specialize (Hkeep p Hin). lia.
Qed.

(** ** Where a decision comes from *)

Lemma hard_is_not_soft (m m' : string) : hard_reject m <> soft_reject m'.
Proof.
  intros E. assert (Hd : hard_reject m !! "dialogue" = soft_reject m' !! "dialogue")
    by now rewrite E.
  vm_compute in Hd. discriminate.
Qed.

Lemma soft_is_not_accept (m : string) : soft_reject m <> accept.
Proof.
  intros E. assert (Hd : soft_reject m !! "success" = accept !! "success")
    by now rewrite E.
  vm_compute in Hd. discriminate.
Qed.

Lemma hard_is_not_accept (m : string) : hard_reject m <> accept.
Proof.
  intros E. assert (Hd : hard_reject m !! "success" = accept !! "success")
    by now rewrite E.
  vm_compute in Hd. discriminate.
Qed.

Lemma hard_reject_message (m m' : string) : hard_reject m = hard_reject m' -> m = m'.
Proof.
  intros E. assert (Hd : hard_reject m !! "message" = hard_reject m' !! "message")
    by now rewrite E.
  vm_compute in Hd. now injection Hd.
Qed.

Lemma validations_classified (current_date : date) (n : Schemas.PoolDateRangeCreate) :
  match basic_date_validations current_date (Schemas.start_date n)
          (Schemas.end_date n) with
  | Some r =>
      (r = hard_reject Params.PAST_DATE_ERROR /\ ends_before current_date n)
      \/ (r = hard_reject Params.DATE_VALIDATION
          /\ ~ ends_before current_date n /\ inverted n)
  | None => ~ ends_before current_date n /\ ~ inverted n
  end.
Proof.
  unfold basic_date_validations, ends_before, inverted.
  destruct (Schemas.end_date n) as [e |].
  - destruct (Z.ltb_spec e current_date) as [Hlt | Hge].
    + left. split; [reflexivity | eauto].
    + destruct (Z.gtb_spec (Schemas.start_date n) e) as [Hgt | Hle].
      * right. split; [reflexivity | split].
        -- intros (e' & [= <-] & Hlt). lia.
        -- exists e. split; [reflexivity | lia].
      * split; intros (e' & [= <-] & H); lia.
  - split; intros (e' & He & _); discriminate.
Qed.

Section DecisionFacts.
Variable stub : list Booking.Request -> Booking.Request -> gmap string pyval.
Variable current_date : date.

Lemma check_excluded_soft pool_id subscriber_id oc nc reduced xs log r :
  fst (check_excluded stub pool_id subscriber_id oc nc reduced xs log) = Some r ->
  is_soft_rejection r
  /\ snd (check_excluded stub pool_id subscriber_id oc nc reduced xs log) <> log.
Proof.
  destruct (check_excluded_budget stub pool_id subscriber_id oc nc reduced xs log)
    as (more & Hm & _ & _ & Hn & _).
  revert log more Hm Hn. induction xs as [| [s e] xs IH]; intros log more Hm Hn.
  - discriminate.
  - rewrite check_excluded_cons in *. cbn zeta in *.
    destruct (is_booking_exists _).
    + destruct reduced; cbn [fst snd] in *; intros [= <-];
        (split; [eexists; reflexivity |]);
        intros E; apply (f_equal (@length _)) in E;
        rewrite length_app in E; cbn [length] in E; lia.
    + intros Hsome.
      destruct (check_excluded_budget stub pool_id subscriber_id oc nc reduced xs
                  (log ++ [request pool_id s (Some e) oc subscriber_id false]))
        as (more' & Hm' & _ & _ & Hn' & _).
      destruct (IH _ more' Hm' Hn' Hsome) as [Hsoft _]. split; [exact Hsoft |].
      rewrite Hm'. intros E. apply (f_equal (@length _)) in E.
      rewrite !length_app in E. cbn [length] in E. lia.
Qed.

(** One position: the validations decide first; past them the position
    either passes or ends in a soft rejection, after at least one query. *)
Lemma validate_position_outcome pool_id subscriber_id old_range date_range log :
  match basic_date_validations current_date (Schemas.start_date date_range)
          (Schemas.end_date date_range) with
  | Some v =>
      validate_position stub current_date pool_id subscriber_id old_range
        date_range log = (Some v, log)
  | None =>
      forall r,
        fst (validate_position stub current_date pool_id subscriber_id old_range
               date_range log) = Some r ->
        is_soft_rejection r
        /\ snd (validate_position stub current_date pool_id subscriber_id
                  old_range date_range log) <> log
  end.
Proof.
  rewrite validate_position_eq.
  destruct (basic_date_validations _ _ _); [reflexivity |].
  intros r. unfold date_change_branch.
  destruct (date_range_changed _ _ _ _).
  - pose proof (check_excluded_soft pool_id subscriber_id
                  (Models.capacity old_range) (Schemas.capacity date_range)
                  (Models.capacity old_range >? Schemas.capacity date_range)
                  (excluded_date_ranges (Models.start_date old_range)
                     (Models.end_date old_range) (Schemas.start_date date_range)
                     (Schemas.end_date date_range)) log) as Hx.
    destruct (check_excluded_queries stub pool_id subscriber_id
                (Models.capacity old_range) (Schemas.capacity date_range)
                (Models.capacity old_range >? Schemas.capacity date_range)
                (excluded_date_ranges (Models.start_date old_range)
                   (Models.end_date old_range) (Schemas.start_date date_range)
                   (Schemas.end_date date_range)) log) as (more & Hm & _).
    destruct (check_excluded _ _ _ _ _ _ _ _) as [[r' |] l]; cbn [fst snd] in *.
    + intros [= <-]. now apply Hx.
    + subst l. rewrite capacity_branch_eq. destruct (_ >? _); [| discriminate].
      cbn zeta. destruct (_ && _); [| discriminate]. cbn [fst snd].
      intros [= <-]. split; [eexists; reflexivity |].
      intros E. apply (f_equal (@length _)) in E.
      rewrite !length_app in E. cbn [length] in E. lia.
  - cbn [ret]. rewrite capacity_branch_eq. destruct (_ >? _); [| discriminate].
    cbn zeta. destruct (_ && _); [| discriminate]. cbn [fst snd].
    intros [= <-]. split; [eexists; reflexivity |].
    intros E. apply (f_equal (@length _)) in E.
    rewrite !length_app in E. cbn [length] in E. lia.
Qed.

Lemma validate_pairs_provenance pool_id subscriber_id pairs log :
  let run := validate_pairs stub current_date pool_id subscriber_id pairs log in
  (fst run = hard_reject Params.PAST_DATE_ERROR ->
   Exists (fun p => ends_before current_date (snd p)) pairs)
  /\ (fst run = hard_reject Params.DATE_VALIDATION ->
      Exists (fun p => inverted (snd p)) pairs)
  /\ (is_soft_rejection (fst run) -> snd run <> log)
  /\ (fst run = accept ->
      Forall (fun p => ~ ends_before current_date (snd p) /\ ~ inverted (snd p))
        pairs).
Proof.
  cbn zeta. revert log. induction pairs as [| [o n] rest IH]; intros log.
  - cbn [validate_pairs ret fst snd]. repeat split.
    + intros E. symmetry in E. now apply hard_is_not_accept in E.
    + intros E. symmetry in E. now apply hard_is_not_accept in E.
    + intros [m E]. symmetry in E. now apply soft_is_not_accept in E.
    + constructor.
  - rewrite validate_pairs_cons.
    pose proof (validate_position_outcome pool_id subscriber_id o n log) as Hpos.
    pose proof (validations_classified current_date n) as Hcls.
    pose proof (validate_position_extends stub current_date pool_id subscriber_id
                  o n log) as (more & Hmore).
    destruct (basic_date_validations _ _ _) as [v |].
    + rewrite Hpos. cbn [fst snd].
      destruct Hcls as [[-> Hp] | [-> [Hnp Hi]]]; repeat split.
      * intros _. now left.
      * intros E. apply hard_reject_message in E. discriminate.
      * intros [m E]. now apply hard_is_not_soft in E.
      * intros E. now apply hard_is_not_accept in E.
      * intros E. apply hard_reject_message in E. discriminate.
      * intros _. now left.
      * intros [m E]. now apply hard_is_not_soft in E.
      * intros E. now apply hard_is_not_accept in E.
    + destruct (validate_position _ _ _ _ _ _ _) as [[r |] l] eqn:Hrun;
        cbn [fst snd] in *.
      * destruct (Hpos r eq_refl) as [[m ->] Hl]. repeat split.
        -- intros E. symmetry in E. now apply hard_is_not_soft in E.
        -- intros E. symmetry in E. now apply hard_is_not_soft in E.
        -- intros _. exact Hl.
        -- intros E. now apply soft_is_not_accept in E.
      * subst l. destruct (IH (log ++ more)) as (Hp & Hi & Hs & Ha).
        repeat split.
        -- intros E. right. now apply Hp.
        -- intros E. right. now apply Hi.
        -- intros Hsoft E. apply (Hs Hsoft).
           destruct (validate_pairs_extends stub current_date pool_id
                       subscriber_id rest (log ++ more)) as (more' & Hm').
           rewrite Hm' in *. rewrite <- app_assoc in E.
           apply (f_equal (@length _)) in E. rewrite !length_app in E.
           assert (more = []) as -> by (destruct more; [reflexivity |];
             cbn [length] in E; lia).
           assert (more' = []) as -> by (destruct more'; [reflexivity |];
             cbn [length] in E; lia).
           now rewrite !app_nil_r.
        -- intros E. constructor; [exact Hcls | now apply Ha].
Qed.
End DecisionFacts.

(** A hard rejection always has a cause among the correlated proposals: a
    [PAST_DATE_ERROR] comes with a proposed tuple that ends before today, a
    [DATE_VALIDATION] with one that starts after its end.  A soft rejection
    is never returned without a query to the booking service, and an
    accepted proposal has no correlated tuple that ends before today or
    starts after its end. *)
Theorem decisions_have_a_cause
    (stub : list Booking.Request -> Booking.Request -> gmap string pyval)
    (current_date : date)
    (existing_ranges : list Models.PoolDateRange)
    (date_ranges : list Schemas.PoolDateRangeCreate)
    (pool_id subscriber_id : Z) (log : list Booking.Request) :
  let n := Nat.min (length existing_ranges) (length date_ranges) in
  let run := validate_service_pool_changes stub current_date existing_ranges
               date_ranges pool_id subscriber_id log in
  (fst run = hard_reject Params.PAST_DATE_ERROR ->
   Exists (ends_before current_date) (firstn n date_ranges))
  /\ (fst run = hard_reject Params.DATE_VALIDATION ->
      Exists inverted (firstn n date_ranges))
  /\ (is_soft_rejection (fst run) -> snd run <> log)
  /\ (fst run = accept ->
      Forall (fun d => ~ ends_before current_date d /\ ~ inverted d)
        (firstn n date_ranges)).
Proof.
  cbn zeta. unfold validate_service_pool_changes.
  destruct (validate_pairs_provenance stub current_date pool_id subscriber_id
              (combine existing_ranges date_ranges) log) as (Hp & Hi & Hs & Ha).
  assert (Hsnd : List.map snd (combine existing_ranges date_ranges)
                 = firstn (Nat.min (length existing_ranges) (length date_ranges))
                     date_ranges).
  { clear. revert date_ranges.
    induction existing_ranges as [| o os IH]; intros [| d ds]; try reflexivity.
    cbn [combine List.map length Nat.min firstn snd]. now rewrite IH. }
  rewrite <- Hsnd. repeat split.
  - intros E. apply List.Exists_map. now apply Hp.
  - intros E. apply List.Exists_map. now apply Hi.
  - exact Hs.
  - intros E. apply List.Forall_map. now apply Ha.
Qed.

(** ** A booking service that reports no booking *)

Section NoBooking.
Variable stub : list Booking.Request -> Booking.Request -> gmap string pyval.
Variable current_date : date.
Hypothesis no_booking : forall log rq, is_booking_exists (stub log rq) = false.

Lemma check_excluded_without_booking pool_id subscriber_id oc nc reduced xs log :
  fst (check_excluded stub pool_id subscriber_id oc nc reduced xs log) = None.
Proof.
  revert log. induction xs as [| [s e] xs IH]; intros log; [reflexivity |].
  rewrite check_excluded_cons. cbn zeta. rewrite no_booking. apply IH.
Qed.

Lemma validate_position_without_booking pool_id subscriber_id old_range
    date_range log :
  fst (validate_position stub current_date pool_id subscriber_id old_range
         date_range log)
  = basic_date_validations current_date (Schemas.start_date date_range)
      (Schemas.end_date date_range).
Proof.
  rewrite validate_position_eq.
  destruct (basic_date_validations _ _ _); [reflexivity |].
  unfold date_change_branch.
  destruct (date_range_changed _ _ _ _).
  - pose proof (check_excluded_without_booking pool_id subscriber_id
                  (Models.capacity old_range) (Schemas.capacity date_range)
                  (Models.capacity old_range >? Schemas.capacity date_range)
                  (excluded_date_ranges (Models.start_date old_range)
                     (Models.end_date old_range) (Schemas.start_date date_range)
                     (Schemas.end_date date_range)) log) as Hx.
    destruct (check_excluded _ _ _ _ _ _ _ _) as [[r |] l]; cbn [fst] in Hx;
      [discriminate |].
    rewrite capacity_branch_eq. destruct (_ >? _); [| reflexivity].
    cbn zeta. now rewrite no_booking.
  - cbn [ret]. rewrite capacity_branch_eq. destruct (_ >? _); [| reflexivity].
    cbn zeta. now rewrite no_booking.
Qed.

Lemma validate_pairs_without_booking pool_id subscriber_id pairs log :
  let r := fst (validate_pairs stub current_date pool_id subscriber_id pairs log) in
  ~ is_soft_rejection r
  /\ (r = accept <->
      Forall (fun p => ~ ends_before current_date (snd p) /\ ~ inverted (snd p))
        pairs).
Proof.
  cbn zeta. revert log. induction pairs as [| [o n] rest IH]; intros log.
  - cbn [validate_pairs ret fst]. split.
    + intros [m E]. symmetry in E. now apply soft_is_not_accept in E.
    + split; [constructor | reflexivity].
  - rewrite validate_pairs_cons.
    pose proof (validate_position_without_booking pool_id subscriber_id o n log)
      as Hpos.
    pose proof (validations_classified current_date n) as Hcls.
    destruct (validate_position _ _ _ _ _ _ _) as [[r |] l]; cbn [fst] in *;
      rewrite <- Hpos in Hcls.
    + split.
      * intros [m E]. destruct Hcls as [[-> _] | [-> _]];
          now apply hard_is_not_soft in E.
      * split.
        -- intros ->. destruct Hcls as [[E _] | [E _]]; symmetry in E;
             now apply hard_is_not_accept in E.
        -- intros Hall. apply Forall_cons in Hall as [[Hp Hi] _]. cbn [snd] in *.
           destruct Hcls as [[_ H] | [_ [_ H]]]; contradiction.
    + destruct (IH l) as [Hsoft Hacc]. split; [exact Hsoft |].
      rewrite Hacc. split.
      * intros Hall. constructor; [exact Hcls | exact Hall].
      * intros Hall. now apply Forall_cons in Hall as [_ Hall].
Qed.
End NoBooking.

(** When no answer of the booking service reports a booking (a missing
    [is_booking_exists] entry counts as none), the reconciliation never asks
    for a confirmation: whatever dates move and whatever capacity is reduced,
    the proposal is accepted unless a correlated tuple ends before today or
    starts after its end. *)
Theorem no_booking_no_confirmation
    (stub : list Booking.Request -> Booking.Request -> gmap string pyval)
    (current_date : date)
    (existing_ranges : list Models.PoolDateRange)
    (date_ranges : list Schemas.PoolDateRangeCreate)
    (pool_id subscriber_id : Z) (log : list Booking.Request) :
  (forall l rq, is_booking_exists (stub l rq) = false) ->
  let r := result_of (validate_service_pool_changes stub current_date
                        existing_ranges date_ranges pool_id subscriber_id) log in
  ~ is_soft_rejection r
  /\ (r = accept <->
      Forall (fun p => ~ ends_before current_date (snd p) /\ ~ inverted (snd p))
        (combine existing_ranges date_ranges)).
Proof.
  intros Hno. unfold result_of, validate_service_pool_changes.
  apply validate_pairs_without_booking, Hno.
Qed.

Lemma no_booking_no_confirmation_witness :
  let existing := [stored "2027-01-01" (Some "2027-06-30") 10] in
  let changed := [proposed "2027-02-01" (Some "2027-05-31") 4] in
  result_of (validate_service_pool_changes mute_stub (Iso.on "2026-11-03")
               existing changed 7 3) [] = accept.
Proof.
  cbn zeta.
  apply (proj2 (no_booking_no_confirmation mute_stub (Iso.on "2026-11-03")
                  [stored "2027-01-01" (Some "2027-06-30") 10]
                  [proposed "2027-02-01" (Some "2027-05-31") 4] 7 3 []
                  (fun _ _ => eq_refl))).
  repeat constructor; intros (e & He & Hc); vm_compute in He;
    injection He as <-; vm_compute in Hc; discriminate.
Defined.

(** ** A booking service that answers by the request alone *)

Section Memoryless.
Variable stub : list Booking.Request -> Booking.Request -> gmap string pyval.
Variable answer : Booking.Request -> gmap string pyval.
Variable current_date : date.
Hypothesis memoryless : forall log rq, stub log rq = answer rq.

Lemma check_excluded_passes_iff pool_id subscriber_id oc nc reduced xs log :
  fst (check_excluded stub pool_id subscriber_id oc nc reduced xs log) = None
  <-> forall r, In r xs ->
        is_booking_exists
          (answer (request pool_id (fst r) (Some (snd r)) oc subscriber_id false))
        = false.
Proof.
  revert log. induction xs as [| [s e] xs IH]; intros log.
  - split; [intros _ r [] | reflexivity].
  - rewrite check_excluded_cons. cbn zeta. rewrite memoryless.
    destruct (is_booking_exists _) eqn:Hb.
    + split.
      * destruct reduced; discriminate.
      * intros Hall. specialize (Hall (s, e) (or_introl eq_refl)).
        cbn [fst snd] in Hall. congruence.
    + rewrite IH. split.
      * intros Hall r [<- | Hin]; [exact Hb | now apply Hall].
      * intros Hall r Hin. apply Hall. now right.
Qed.

Lemma validate_position_passes_iff pool_id subscriber_id old_range date_range log :
  fst (validate_position stub current_date pool_id subscriber_id old_range
         date_range log) = None
  <-> position_clean answer current_date pool_id subscriber_id
        (old_range, date_range).
Proof.
  unfold position_clean. cbn [fst snd]. rewrite validate_position_eq.
  pose proof (validations_classified current_date date_range) as Hcls.
  destruct (basic_date_validations _ _ _).
  { split; [discriminate |]. intros (Hp & Hi & _).
    destruct Hcls as [[_ H] | [_ [_ H]]]; contradiction. }
  destruct Hcls as [Hp Hi]. unfold date_change_branch.
  pose proof (excluded_periods_shape (Models.start_date old_range)
                (Models.end_date old_range) (Schemas.start_date date_range)
                (Schemas.end_date date_range)) as [_ Hchanged].
  assert (Hcapacity : forall l,
            fst (capacity_branch stub pool_id subscriber_id
                   (Models.start_date old_range) (Models.end_date old_range)
                   (Models.capacity old_range) (Schemas.capacity date_range) l)
              = None
            <-> (Models.capacity old_range > Schemas.capacity date_range ->
                 is_booking_exists
                   (answer (request pool_id (Models.start_date old_range)
                              (Models.end_date old_range)
                              (Schemas.capacity date_range) subscriber_id true))
                 && is_capacity_check
                      (answer (request pool_id (Models.start_date old_range)
                                 (Models.end_date old_range)
                                 (Schemas.capacity date_range) subscriber_id true))
                 = false)).
  { intros l. rewrite capacity_branch_eq.
    destruct (Z.gtb_spec (Models.capacity old_range) (Schemas.capacity date_range))
      as [Hred | Hnot].
    - cbn zeta. rewrite memoryless. cbn [fst].
      destruct (_ && _); split; auto; try discriminate.
      intros H. specialize (H ltac:(lia)). discriminate.
    - split; [intros _ H; lia | reflexivity]. }
  destruct (date_range_changed _ _ _ _) eqn:Hflag.
  - pose proof (check_excluded_passes_iff pool_id subscriber_id
                  (Models.capacity old_range) (Schemas.capacity date_range)
                  (Models.capacity old_range >? Schemas.capacity date_range)
                  (excluded_date_ranges (Models.start_date old_range)
                     (Models.end_date old_range) (Schemas.start_date date_range)
                     (Schemas.end_date date_range)) log) as Hx.
    destruct (check_excluded _ _ _ _ _ _ _ _) as [[r |] l]; cbn [fst] in *.
    + split; [discriminate |]. intros (_ & _ & Hall & _).
      apply Hx in Hall. discriminate.
    + rewrite Hcapacity. split.
      * intros Hc. repeat split; auto. now apply Hx.
      * now intros (_ & _ & _ & Hc).
  - cbn [ret]. rewrite Hcapacity. split.
    + intros Hc. repeat split; auto. intros r Hin.
      destruct (excluded_date_ranges _ _ _ _) eqn:Hex; [destruct Hin |].
      assert (Habsurd : false = true) by (apply Hchanged; discriminate).
      discriminate Habsurd.
    + now intros (_ & _ & _ & Hc).
Qed.

Lemma validate_pairs_accepts_iff pool_id subscriber_id pairs log :
  fst (validate_pairs stub current_date pool_id subscriber_id pairs log) = accept
  <-> Forall (position_clean answer current_date pool_id subscriber_id) pairs.
Proof.
  revert log. induction pairs as [| [o n] rest IH]; intros log.
  - split; [constructor | reflexivity].
  - rewrite validate_pairs_cons.
    pose proof (validate_position_passes_iff pool_id subscriber_id o n log) as Hpos.
    destruct (validate_position _ _ _ _ _ _ _) as [[r |] l] eqn:Hrun;
      cbn [fst] in *.
    + split.
      * intros ->. exfalso.
        eapply (rejection_not_accept accept); [| reflexivity].
        eapply validate_position_rejection. now rewrite Hrun.
      * intros Hall. apply Forall_cons in Hall as [Hc _].
        apply Hpos in Hc. discriminate.
    + rewrite IH. split.
      * intros Hall. constructor; [now apply Hpos | exact Hall].
      * intros Hall. now apply Forall_cons in Hall as [_ Hall].
Qed.
End Memoryless.

(** For a booking service whose answer depends on the request alone, a
    proposal is accepted exactly when every correlated position is clean: its
    proposed tuple passes the two date validations, none of its excluded
    periods has a booking at the stored capacity, and, where the capacity is
    reduced, the stored range is not reported both booked and over the new
    capacity. *)
Theorem accepted_exactly_when_every_position_is_clean
    (stub : list Booking.Request -> Booking.Request -> gmap string pyval)
    (answer : Booking.Request -> gmap string pyval)
    (current_date : date)
    (existing_ranges : list Models.PoolDateRange)
    (date_ranges : list Schemas.PoolDateRangeCreate)
    (pool_id subscriber_id : Z) (log : list Booking.Request) :
  (forall l rq, stub l rq = answer rq) ->
  result_of (validate_service_pool_changes stub current_date existing_ranges
               date_ranges pool_id subscriber_id) log = accept
  <-> Forall (position_clean answer current_date pool_id subscriber_id)
        (combine existing_ranges date_ranges).
Proof.
  intros Hm. unfold result_of, validate_service_pool_changes.
  now apply validate_pairs_accepts_iff.
Qed.

Lemma accepted_exactly_when_every_position_is_clean_witness :
  result_of (validate_service_pool_changes quiet_stub (Iso.on "2026-11-03")
               [stored "2027-01-01" (Some "2027-06-30") 10]
               [proposed "2027-02-01" (Some "2027-06-30") 8] 7 3) [] = accept
  <-> Forall (position_clean (quiet_stub []) (Iso.on "2026-11-03") 7 3)
        (combine [stored "2027-01-01" (Some "2027-06-30") 10]
                 [proposed "2027-02-01" (Some "2027-06-30") 8]).
Proof.
  exact (accepted_exactly_when_every_position_is_clean quiet_stub (quiet_stub [])
           (Iso.on "2026-11-03")
           [stored "2027-01-01" (Some "2027-06-30") 10]
           [proposed "2027-02-01" (Some "2027-06-30") 8] 7 3 []
           (fun _ _ => eq_refl)).
Defined.

(** ** The schema of a proposed tuple *)

(** [PoolDateRangeCreate] lets through exactly the tuples with a
    non-negative capacity and an end date, when there is one, not before the
    start date (a range of one day passes).  A negative capacity is answered
    by the [HTTPException] of [check_capacity], status 400, also when the end
    date is wrong as well; a wrong end date alone is a validation error. *)
Theorem schema_lets_through_well_formed_tuples
    (start_date : date) (end_date : option date) (capacity : Z) :
  (capacity < 0 ->
   PoolDateRangeCreate_init start_date end_date capacity
   = HTTPException 400 "capacity must be non-negative")
  /\ (0 <= capacity ->
      (exists e, end_date = Some e /\ e < start_date) ->
      PoolDateRangeCreate_init start_date end_date capacity
      = ValidationError ["end_date must be after start_date"])
  /\ (forall n,
        PoolDateRangeCreate_init start_date end_date capacity = Parsed n
        <-> 0 <= capacity
            /\ (forall e, end_date = Some e -> start_date <= e)
            /\ n = {| Schemas.start_date := start_date;
                      Schemas.end_date := end_date;
                      Schemas.capacity := capacity |}).
Proof.
  unfold PoolDateRangeCreate_init, check_capacity, check_end_date.
  destruct (Z.ltb_spec capacity 0) as [Hneg | Hpos];
    [| destruct end_date as [e |];
       [destruct (Z.ltb_spec e start_date) as [Hlt | Hge] |]];
    (split; [| split; [| intros n; split]]);
    try (intros; lia); try reflexivity; try discriminate.
  all: repeat match goal with
       | |- _ -> _ => intros ?
       | H : exists _, _ |- _ => destruct H as (? & ? & ?)
       | H : _ /\ _ |- _ => destruct H
       | H : Some _ = Some _ |- _ => injection H as <-
       | H : Parsed _ = Parsed _ |- _ => injection H as <-
       end; subst; try lia; try discriminate; try reflexivity.
  all: try (repeat split; try lia; try reflexivity; intros ? [= <-]; lia).
  all: try (match goal with
            | H : forall e, Some ?x = Some e -> _ |- _ =>
                specialize (H x eq_refl); lia
            end).
  all: try (repeat split; try lia; try reflexivity; intros ? ?; discriminate).
Qed.

Lemma schema_valid_not_inverted (n : Schemas.PoolDateRangeCreate) :
  schema_valid n -> ~ inverted n /\ 0 <= Schemas.capacity n.
Proof.
  unfold schema_valid, PoolDateRangeCreate_init, check_capacity, check_end_date,
    inverted.
  destruct (Z.ltb_spec (Schemas.capacity n) 0) as [Hneg | Hpos]; [discriminate |].
  destruct (Schemas.end_date n) as [e |].
  - destruct (Z.ltb_spec e (Schemas.start_date n)) as [Hlt | Hge]; [discriminate |].
    intros _. split; [| exact Hpos]. intros (e' & [= <-] & H). lia.
  - intros _. split; [| exact Hpos]. intros (e' & H & _). discriminate.
Qed.

(** Proposals that went through the schema are never answered with
    [DATE_VALIDATION]: the check of the reconciliation against a start after
    the end cannot fire on them. *)
Theorem validated_proposals_never_get_date_validation
    (stub : list Booking.Request -> Booking.Request -> gmap string pyval)
    (current_date : date)
    (existing_ranges : list Models.PoolDateRange)
    (date_ranges : list Schemas.PoolDateRangeCreate)
    (pool_id subscriber_id : Z) (log : list Booking.Request) :
  Forall schema_valid date_ranges ->
  result_of (validate_service_pool_changes stub current_date existing_ranges
               date_ranges pool_id subscriber_id) log
  <> hard_reject Params.DATE_VALIDATION.
Proof.
  intros Hvalid E. unfold result_of, validate_service_pool_changes in E.
  destruct (validate_pairs_provenance stub current_date pool_id subscriber_id
              (combine existing_ranges date_ranges) log) as (_ & Hi & _).
  apply Hi in E. apply List.Exists_exists in E as ([o n] & Hin & Hinv).
  apply in_combine_r in Hin. rewrite List.Forall_forall in Hvalid.
  destruct (schema_valid_not_inverted n (Hvalid n Hin)) as [Hnot _].
  apply Hnot. exact Hinv.
Qed.

Lemma validated_proposals_never_get_date_validation_witness :
  result_of (validate_service_pool_changes busy_stub (Iso.on "2026-11-03")
               [stored "2027-01-01" (Some "2027-06-30") 10]
               [proposed "2027-03-01" (Some "2027-03-01") 0] 7 3) []
  <> hard_reject Params.DATE_VALIDATION.
Proof.
  apply (validated_proposals_never_get_date_validation busy_stub
           (Iso.on "2026-11-03") [stored "2027-01-01" (Some "2027-06-30") 10]
           [proposed "2027-03-01" (Some "2027-03-01") 0] 7 3 []).
  repeat constructor.
Defined.

(** ** Replacing the ranges of a pool, row by row *)

Section ReplaceRows.
Context `{DateText}.

Lemma log_deletions_rows d pool_id user_id subscriber_id existing acc :
  let (d', ids) := log_deletions d pool_id user_id subscriber_id existing acc in
  pool_date_ranges d' = pool_date_ranges d
  /\ pools d' = pools d
  /\ next_pool_id d' = next_pool_id d
  /\ next_pool_date_range_id d' = next_pool_date_range_id d
  /\ ids = acc ++ List.map Models.pdr_id existing
  /\ List.map history_record (pool_date_range_history d')
     = List.map history_record (pool_date_range_history d)
       ++ List.map (deletion_record pool_id user_id subscriber_id) existing.
Proof.
  revert d acc. induction existing as [| o rest IH]; intros d acc.
  - cbn. rewrite !app_nil_r. repeat split; reflexivity.
  - cbn [log_deletions].
    specialize (IH (log_pool_date_range_history d pool_id (Models.pdr_id o)
                      "DELETE" (Some (Models.start_date o)) (Models.end_date o)
                      (Some (Models.capacity o)) user_id subscriber_id)
                   (acc ++ [Models.pdr_id o])).
    destruct (log_deletions _ _ _ _ rest _) as [d' ids].
    destruct IH as (Hr & Hp & Hn & Hc & Hi & Hh). cbn in *.
    rewrite Hr, Hp, Hn, Hc, Hi, Hh, List.map_app, <- !app_assoc.
    repeat split; reflexivity.
Qed.

Lemma insert_ranges_rows d pool_id user_id updated_by subscriber_id ranges acc :
  let (d', data) :=
    insert_ranges d pool_id user_id updated_by subscriber_id ranges acc in
  exists rows,
    pool_date_ranges d' = pool_date_ranges d ++ rows
    /\ pools d' = pools d
    /\ next_pool_id d' = next_pool_id d
    /\ data = acc ++ List.map to_dict rows
    /\ List.map row_tuple rows = List.map tuple_of ranges
    /\ Forall (fun r => live_range_of pool_id r = true
                        /\ Models.pdr_created_by_id r = user_id
                        /\ Models.pdr_updated_by_id r = updated_by
                        /\ Models.pdr_subscriber_id r = subscriber_id) rows
    /\ List.map Models.pdr_id rows
       = List.map (fun i => next_pool_date_range_id d + Z.of_nat i)
           (seq 0 (length ranges))
    /\ next_pool_date_range_id d'
       = next_pool_date_range_id d + Z.of_nat (length ranges)
    /\ List.map history_record (pool_date_range_history d')
       = List.map history_record (pool_date_range_history d)
         ++ List.map (insertion_record pool_id user_id subscriber_id) rows.
Proof.
  revert d acc. induction ranges as [| n rest IH]; intros d acc.
  - exists []. cbn. rewrite !app_nil_r, Z.add_0_r. repeat split; auto.
  - cbn [insert_ranges add_pool_date_range].
    match goal with
    | |- context [insert_ranges ?d1 _ _ _ _ rest ?acc1] =>
        specialize (IH d1 acc1);
        destruct (insert_ranges d1 pool_id user_id updated_by subscriber_id
                    rest acc1) as [d' data]
    end.
    destruct IH as (rows & Hr & Hp & Hn & Hd & Ht & Hl & Hi & Hc & Hh).
    cbn [pool_date_ranges pools next_pool_id next_pool_date_range_id
         pool_date_range_history log_pool_date_range_history] in *.
    eexists (_ :: rows).
    rewrite Hr, Hp, Hn, Hd, Hc, Hh, <- !app_assoc.
    cbn [app List.map length seq]. rewrite Ht, Hi.
    repeat split; try reflexivity.
    + constructor; [| exact Hl]. cbn. unfold live_range_of. cbn.
      rewrite Z.eqb_refl. auto.
    + cbn. rewrite Z.add_0_r. f_equal. rewrite <- seq_shift, List.map_map.
      apply List.map_ext. intros i. lia.
    + lia.
    + rewrite List.map_app. cbn [List.map]. rewrite <- app_assoc. reflexivity.
Qed.

(** The replacement, row by row. *)
Lemma replace_ranges_rows d pool_id ranges user_id subscriber_id :
  let existing := List.filter (live_range_of pool_id) (pool_date_ranges d) in
  exists d' new_rows,
    replace_ranges d pool_id ranges user_id subscriber_id existing
    = (d', (List.map Models.pdr_id existing, List.map to_dict new_rows))
    /\ pool_date_ranges d'
       = List.filter (fun r => negb (live_range_of pool_id r)) (pool_date_ranges d)
         ++ new_rows
    /\ pools d' = pools d
    /\ List.map row_tuple new_rows = List.map tuple_of ranges
    /\ Forall (fun r => live_range_of pool_id r = true
                        /\ Models.pdr_created_by_id r = user_id
                        /\ Models.pdr_updated_by_id r = Some user_id
                        /\ Models.pdr_subscriber_id r = subscriber_id) new_rows
    /\ List.map Models.pdr_id new_rows
       = List.map (fun i => next_pool_date_range_id d + Z.of_nat i)
           (seq 0 (length ranges))
    /\ List.map history_record (pool_date_range_history d')
       = List.map history_record (pool_date_range_history d)
         ++ List.map (deletion_record pool_id user_id subscriber_id) existing
         ++ List.map (insertion_record pool_id user_id subscriber_id) new_rows.
Proof.
  cbn zeta. unfold replace_ranges.
  pose proof (log_deletions_rows d pool_id user_id subscriber_id
                (List.filter (live_range_of pool_id) (pool_date_ranges d)) [])
    as Hdel.
  destruct (log_deletions _ _ _ _ _ _) as [d1 ids].
  destruct Hdel as (Hr1 & Hp1 & _ & Hc1 & Hi1 & Hh1). cbn [app] in Hi1. subst ids.
  pose proof (insert_ranges_rows (delete_live_ranges d1 pool_id) pool_id user_id
                (Some user_id) subscriber_id ranges []) as Hins.
  destruct (insert_ranges _ _ _ _ _ _ _) as [d2 data].
  destruct Hins as (rows & Hr2 & Hp2 & _ & Hd2 & Ht2 & Hl2 & Hi2 & _ & Hh2).
  cbn [app delete_live_ranges pool_date_ranges pools pool_date_range_history
       next_pool_date_range_id] in *.
  exists d2, rows. subst data.
  rewrite Hr2, Hr1, Hp2, Hp1, Hh2, Hh1, Hi2, Hc1, <- app_assoc.
  repeat split; auto.
Qed.

Lemma filter_others_after_replace pool_id (rows new_rows : list Models.PoolDateRange) :
  Forall (fun r => live_range_of pool_id r = true) new_rows ->
  List.filter (fun r => negb (live_range_of pool_id r))
    (List.filter (fun r => negb (live_range_of pool_id r)) rows ++ new_rows)
  = List.filter (fun r => negb (live_range_of pool_id r)) rows.
Proof.
  intros Hlive. rewrite List.filter_app.
  replace (List.filter (fun r => negb (live_range_of pool_id r)) new_rows)
    with (@nil Models.PoolDateRange).
  - rewrite app_nil_r. induction rows as [| r rows IH]; [reflexivity |].
    cbn [List.filter]. destruct (live_range_of pool_id r) eqn:Hr; cbn [negb].
    + exact IH.
    + cbn [List.filter]. rewrite Hr. cbn [negb]. now rewrite IH.
  - induction Hlive as [| r l Hr _ IH]; [reflexivity |].
    cbn [List.filter]. now rewrite Hr.
Qed.
End ReplaceRows.

(** Updating the ranges of a pool touches nothing else: the table of pools,
    the rows of the other pools and the rows of the pool that are not live
    (deleted or inactive) are the same afterwards, in the same order, whether
    the check is skipped, passed or failed. *)
Theorem update_touches_only_the_live_ranges_of_its_pool `{DateText}
    (stub : list Booking.Request -> Booking.Request -> gmap string pyval)
    (current_date : date) (pool_id : Z)
    (date_ranges : list Schemas.PoolDateRangeCreate)
    (user_id subscriber_id : Z) (check_date_ranges : bool) (w : World) :
  let w' := snd (update_pool_date_ranges stub current_date pool_id date_ranges
                   user_id subscriber_id check_date_ranges w) in
  pools (db w') = pools (db w)
  /\ List.filter (fun r => negb (live_range_of pool_id r))
       (pool_date_ranges (db w'))
     = List.filter (fun r => negb (live_range_of pool_id r))
         (pool_date_ranges (db w))
  /\ (forall other,
        other <> pool_id ->
        List.filter (live_range_of other) (pool_date_ranges (db w'))
        = List.filter (live_range_of other) (pool_date_ranges (db w))).
Proof.
  cbn zeta.
  assert (Hothers : forall rows rows' : list Models.PoolDateRange,
            List.filter (fun r => negb (live_range_of pool_id r)) rows'
            = List.filter (fun r => negb (live_range_of pool_id r)) rows ->
            forall other, other <> pool_id ->
            List.filter (live_range_of other) rows'
            = List.filter (live_range_of other) rows).
  { intros rows rows' Hsame other Hne.
    assert (Hsub : forall l : list Models.PoolDateRange,
              List.filter (live_range_of other) l
              = List.filter (live_range_of other)
                  (List.filter (fun r => negb (live_range_of pool_id r)) l)).
    { induction l as [| r l IH]; [reflexivity |]. cbn [List.filter].
      destruct (live_range_of other r) eqn:Ho.
      - assert (Hp : live_range_of pool_id r = false).
        { unfold live_range_of in *.
          destruct (Z.eqb_spec (Models.pool_id r) other) as [E |];
            [| discriminate].
          destruct (Z.eqb_spec (Models.pool_id r) pool_id); [congruence |].
          reflexivity. }
        rewrite Hp. cbn [negb List.filter]. now rewrite Ho, IH.
      - destruct (live_range_of pool_id r); cbn [negb List.filter];
          [exact IH | now rewrite Ho]. }
    now rewrite (Hsub rows'), (Hsub rows), Hsame. }
  assert (Hgoal : pools (db (snd (update_pool_date_ranges stub current_date
                      pool_id date_ranges user_id subscriber_id
                      check_date_ranges w))) = pools (db w)
                  /\ List.filter (fun r => negb (live_range_of pool_id r))
                       (pool_date_ranges (db (snd (update_pool_date_ranges stub
                          current_date pool_id date_ranges user_id subscriber_id
                          check_date_ranges w))))
                     = List.filter (fun r => negb (live_range_of pool_id r))
                         (pool_date_ranges (db w))).
  { unfold update_pool_date_ranges.
    destruct (replace_ranges_rows (db w) pool_id date_ranges user_id subscriber_id)
      as (d & rows & Hrep & Hrows & Hpools & _ & Hlive & _).
    cbn zeta in Hrep. rewrite Hrep.
    assert (Hreplaced :
              List.filter (fun r => negb (live_range_of pool_id r))
                (pool_date_ranges d)
              = List.filter (fun r => negb (live_range_of pool_id r))
                  (pool_date_ranges (db w))).
    { rewrite Hrows. apply filter_others_after_replace.
      eapply List.Forall_impl; [| exact Hlive]. now intros r (Hr & _). }
    destruct check_date_ranges; cbn [negb].
    - cbn [snd db]. auto.
    - destruct (validate_service_pool_changes _ _ _ _ _ _ _) as [r l].
      destruct (r !! "success") as [v |]; [| cbn [snd db]; auto].
      destruct (eq_False v); cbn [snd db]; auto. }
  destruct Hgoal as [Hp Hf]. split; [exact Hp | split; [exact Hf |]].
  intros other Hne. now apply (Hothers _ _ Hf).
Qed.

(** The replacement leaves an audit trail: one [DELETE] entry for each live
    row, in order, holding its identifier and its old start, end and capacity,
    then one [INSERT] entry for each new row, holding its identifier and no old
    value.  The new rows get the identifiers that follow the counter of the
    table, are created and updated by the user, and belong to the
    subscriber. *)
Theorem replacement_is_logged_row_by_row `{DateText}
    (pool_id : Z) (date_ranges : list Schemas.PoolDateRangeCreate)
    (user_id subscriber_id : Z) (w : World) :
  let existing_ranges :=
    List.filter (live_range_of pool_id) (pool_date_ranges (db w)) in
  exists d new_rows,
    (forall stub current_date,
       update_pool_date_ranges stub current_date pool_id date_ranges user_id
         subscriber_id true w
       = (Return (inr (List.map Models.pdr_id existing_ranges,
                       List.map to_dict new_rows)),
          {| db := d; calls := calls w |}))
    /\ List.map history_record (pool_date_range_history d)
       = List.map history_record (pool_date_range_history (db w))
         ++ List.map (deletion_record pool_id user_id subscriber_id)
              existing_ranges
         ++ List.map (insertion_record pool_id user_id subscriber_id) new_rows
    /\ List.map Models.pdr_id new_rows
       = List.map (fun i => next_pool_date_range_id (db w) + Z.of_nat i)
           (seq 0 (length date_ranges))
    /\ Forall (fun r => Models.pool_id r = pool_id
                        /\ Models.pdr_created_by_id r = user_id
                        /\ Models.pdr_updated_by_id r = Some user_id
                        /\ Models.pdr_subscriber_id r = subscriber_id
                        /\ Models.pdr_deleted r = 0
                        /\ Models.pdr_record_status r = 1) new_rows.
Proof.
  cbn zeta.
  destruct (replace_ranges_rows (db w) pool_id date_ranges user_id subscriber_id)
    as (d & rows & Hrep & _ & _ & _ & Hlive & Hids & Hhist).
  exists d, rows. repeat split; auto.
  - intros stub current_date. unfold update_pool_date_ranges. cbn [negb].
    cbn zeta in Hrep. now rewrite Hrep.
  - eapply List.Forall_impl; [| exact Hlive].
    intros r (Hr & Hc & Hu & Hs). unfold live_range_of in Hr.
    apply andb_true_iff in Hr as [Hr Hst]. apply andb_true_iff in Hr as [Hp Hd].
    apply Z.eqb_eq in Hp, Hd, Hst. auto 10.
Qed.

Lemma kept_pairs_make_no_call stub current_date pool_id subscriber_id pairs log :
  Forall dates_kept_capacity_not_reduced pairs ->
  snd (validate_pairs stub current_date pool_id subscriber_id pairs log) = log.
Proof.
  revert log. induction pairs as [| [o n] rest IH]; intros log Hkept.
  - reflexivity.
  - apply Forall_cons in Hkept as [Hhere Hrest].
    rewrite validate_pairs_cons.
    pose proof (position_kept_makes_no_call stub current_date pool_id
                  subscriber_id (o, n) log Hhere) as Hp.
    cbn [fst snd] in Hp. rewrite Hp.
    destruct (basic_date_validations _ _ _); [reflexivity | now apply IH].
Qed.

Lemma same_tuples_are_kept (rows : list Models.PoolDateRange)
    (ranges : list Schemas.PoolDateRangeCreate) :
  List.map row_tuple rows = List.map tuple_of ranges ->
  Forall dates_kept_capacity_not_reduced (combine rows ranges).
Proof.
  revert ranges. induction rows as [| r rows IH]; intros [| n ranges] Hsame;
    try discriminate; try constructor.
  - cbn [List.map] in Hsame. injection Hsame as Hs He Hc Hrest.
    unfold dates_kept_capacity_not_reduced. cbn [fst snd].
    rewrite Hs, He, Hc. repeat split; lia.
  - cbn [List.map] in Hsame. injection Hsame as _ _ _ Hrest. now apply IH.
Qed.

(** Two updates in a row.  The second one deletes exactly the rows the first
    one inserted.  When the second one proposes the partition the first one
    stored and asks for the check, the check makes no query to the booking
    service. *)
Theorem update_after_update `{DateText}
    (stub : list Booking.Request -> Booking.Request -> gmap string pyval)
    (current_date : date) (pool_id : Z)
    (first_ranges second_ranges : list Schemas.PoolDateRangeCreate)
    (user_id subscriber_id : Z) (check_first : bool) (w : World) :
  forall deleted_ids updated_data w1,
    update_pool_date_ranges stub current_date pool_id first_ranges user_id
      subscriber_id check_first w
    = (Return (inr (deleted_ids, updated_data)), w1) ->
    exists rows1,
      updated_data = List.map to_dict rows1
      /\ List.filter (live_range_of pool_id) (pool_date_ranges (db w1)) = rows1
      /\ List.map row_tuple rows1 = List.map tuple_of first_ranges
      /\ (forall stub' today' user' subscriber',
            exists new_data w2,
              update_pool_date_ranges stub' today' pool_id second_ranges user'
                subscriber' true w1
              = (Return (inr (List.map Models.pdr_id rows1, new_data)), w2))
      /\ (forall stub' today' user' subscriber',
            calls (snd (update_pool_date_ranges stub' today' pool_id
                          first_ranges user' subscriber' false w1))
            = calls w1).
Proof.
  intros deleted_ids updated_data w1 Hfirst.
  destruct (replace_ranges_spec (db w) pool_id first_ranges user_id subscriber_id)
    as (d & rows & Hrep & Hrows & Htup & Hlive & _ & _).
  cbn zeta in Hrep.
  assert (Hw1 : db w1 = d /\ updated_data = List.map to_dict rows).
  { unfold update_pool_date_ranges in Hfirst. rewrite Hrep in Hfirst.
    destruct check_first; cbn [negb] in Hfirst.
    - injection Hfirst as _ <- <-. auto.
    - destruct (validate_service_pool_changes _ _ _ _ _ _ _) as [r l].
      destruct (r !! "success") as [v |]; [| discriminate].
      destruct (eq_False v); [discriminate |].
      injection Hfirst as _ <- <-. auto. }
  destruct Hw1 as [Hd ->]. exists rows. rewrite Hd.
  repeat split; auto.
  - intros stub' today' user' subscriber'.
    destruct (replace_ranges_spec (db w1) pool_id second_ranges user' subscriber')
      as (d2 & rows2 & Hrep2 & _).
    cbn zeta in Hrep2. rewrite Hd, Hlive in Hrep2.
    exists (List.map to_dict rows2), {| db := d2; calls := calls w1 |}.
    unfold update_pool_date_ranges. cbn [negb]. rewrite Hd, Hlive.
    now rewrite Hrep2.
  - intros stub' today' user' subscriber'.
    unfold update_pool_date_ranges. cbn [negb]. rewrite Hd, Hlive.
    pose proof (kept_pairs_make_no_call stub' today' pool_id subscriber'
                  (combine rows first_ranges) (calls w1)
                  (same_tuples_are_kept rows first_ranges Htup)) as Hquiet.
    unfold validate_service_pool_changes.
    destruct (validate_pairs _ _ _ _ _ _) as [r l]. cbn [snd] in Hquiet. subst l.
    destruct (r !! "success") as [v |]; [| reflexivity].
    destruct (eq_False v); [reflexivity |].
    destruct (replace_ranges d pool_id first_ranges user' subscriber' rows)
      as [d3 res]. reflexivity.
Qed.

Lemma update_after_update_witness :
  let ranges := [proposed "2027-01-01" (Some "2027-06-30") 10;
                 proposed "2027-07-01" None 4] in
  let today := Iso.on "2026-11-03" in
  calls (snd (update_pool_date_ranges busy_stub today 7 ranges 1 3 false
                (snd (update_pool_date_ranges busy_stub today 7 ranges 1 3 true
                        one_pool_world))))
  = [].
Proof.
  cbn zeta.
  pose (out := update_pool_date_ranges busy_stub (Iso.on "2026-11-03") 7
                 [proposed "2027-01-01" (Some "2027-06-30") 10;
                  proposed "2027-07-01" None 4] 1 3 true one_pool_world).
  assert (Hrun : out = (Return (inr ([], match fst out with
                                         | Return (inr p) => snd p
                                         | _ => []
                                         end)), snd out))
    by (vm_compute; reflexivity).
  destruct (update_after_update busy_stub (Iso.on "2026-11-03") 7
              [proposed "2027-01-01" (Some "2027-06-30") 10;
               proposed "2027-07-01" None 4]
              [proposed "2027-01-01" (Some "2027-06-30") 10;
               proposed "2027-07-01" None 4] 1 3 true one_pool_world
              _ _ _ Hrun) as (rows & _ & _ & _ & _ & Hquiet).
  exact (Hquiet busy_stub (Iso.on "2026-11-03") 1 3).
Defined.

(** A check that passes changes nothing of what the update does: with the
    flag unset and an accepted proposal, [update_pool_date_ranges] returns the
    same identifiers and rows and leaves the same database as with the flag
    set; only the log of calls has grown by the queries of the check. *)
Theorem passed_check_updates_like_the_bypass `{DateText}
    (stub : list Booking.Request -> Booking.Request -> gmap string pyval)
    (current_date : date) (pool_id : Z)
    (date_ranges : list Schemas.PoolDateRangeCreate)
    (user_id subscriber_id : Z) (w : World) :
  let existing_ranges :=
    List.filter (live_range_of pool_id) (pool_date_ranges (db w)) in
  let check :=
    validate_service_pool_changes stub current_date existing_ranges date_ranges
      pool_id subscriber_id (calls w) in
  let bypass :=
    update_pool_date_ranges stub current_date pool_id date_ranges user_id
      subscriber_id true w in
  fst check = accept ->
  update_pool_date_ranges stub current_date pool_id date_ranges user_id
    subscriber_id false w
  = (fst bypass, {| db := db (snd bypass); calls := snd check |}).
Proof.
  cbn zeta. intros Hacc. unfold update_pool_date_ranges. cbn [negb].
  destruct (validate_service_pool_changes _ _ _ _ _ _ _) as [r l].
  cbn [fst snd] in *. subst r.
  replace (accept !! "success") with (Some (VBool true)) by reflexivity.
  cbn [eq_False negb].
  destruct (replace_ranges _ _ _ _ _ _) as [d res]. reflexivity.
Qed.

Lemma passed_check_updates_like_the_bypass_witness :
  let ranges := [proposed "2027-02-01" (Some "2027-06-30") 10] in
  let today := Iso.on "2026-11-03" in
  let w := snd (update_pool_date_ranges quiet_stub today 7
                  [proposed "2027-01-01" (Some "2027-06-30") 10] 1 3 true
                  one_pool_world) in
  fst (update_pool_date_ranges quiet_stub today 7 ranges 1 3 false w)
  = fst (update_pool_date_ranges quiet_stub today 7 ranges 1 3 true w).
Proof.
  cbn zeta.
  rewrite (passed_check_updates_like_the_bypass quiet_stub (Iso.on "2026-11-03") 7
             [proposed "2027-02-01" (Some "2027-06-30") 10] 1 3
             (snd (update_pool_date_ranges quiet_stub (Iso.on "2026-11-03") 7
                     [proposed "2027-01-01" (Some "2027-06-30") 10] 1 3 true
                     one_pool_world))).
  - reflexivity.
  - vm_compute. reflexivity.
Defined.

(** ** The pool row *)

Lemma replace_first_splits pool_id new (l : list Models.Pool) old :
  List.find (live_pool pool_id) l = Some old ->
  exists before after,
    l = before ++ old :: after
    /\ replace_first pool_id new l = before ++ new :: after
    /\ Forall (fun p => live_pool pool_id p = false) before.
Proof.
  induction l as [| p rest IH]; [discriminate |].
  cbn [List.find replace_first]. destruct (live_pool pool_id p) eqn:Hp.
  - intros [= ->]. exists [], rest. repeat split; constructor.
  - intros Hfind. destruct (IH Hfind) as (before & after & -> & Hrep & Hbefore).
    exists (p :: before), after. cbn [app]. rewrite Hrep.
    repeat split. now constructor.
Qed.

(** [update_pool] rewrites one row and only that one: the first live pool
    with the identifier.  The row keeps its identifier, creator, subscriber
    and status; it takes the name and the remarks that are given and keeps
    the ones that are not; [updated_by_id] is set to the user only when a
    name is given.  The rewritten row is the one a later query for the pool
    finds.  Without such a pool nothing is written and [None] is returned;
    a name the database refuses raises [IntegrityError]. *)
Theorem update_pool_rewrites_one_row
    (name_taken : Database -> Z -> string -> bool)
    (d : Database) (pool_id : Z) (pool_update : Schemas.PoolUpdate) (user_id : Z) :
  match List.find (live_pool pool_id) (pools d) with
  | None => update_pool name_taken d pool_id pool_update user_id = Return None
  | Some old =>
      if match Schemas.name pool_update with
         | Some n => name_taken d pool_id n
         | None => false
         end
      then update_pool name_taken d pool_id pool_update user_id
           = Raise IntegrityError
      else
        exists db_pool d' before after,
          update_pool name_taken d pool_id pool_update user_id
          = Return (Some (db_pool, d'))
          /\ pools d = before ++ old :: after
          /\ pools d' = before ++ db_pool :: after
          /\ Forall (fun p => live_pool pool_id p = false) before
          /\ List.find (live_pool pool_id) (pools d') = Some db_pool
          /\ Models.name db_pool
             = default (Models.name old) (Schemas.name pool_update)
          /\ Models.remarks db_pool
             = match Schemas.remarks pool_update with
               | Some r => Some r
               | None => Models.remarks old
               end
          /\ Models.updated_by_id db_pool
             = match Schemas.name pool_update with
               | Some _ => Some user_id
               | None => Models.updated_by_id old
               end
          /\ (Models.id db_pool, Models.created_by_id db_pool,
              Models.subscriber_id db_pool, Models.deleted db_pool,
              Models.record_status db_pool)
             = (Models.id old, Models.created_by_id old,
                Models.subscriber_id old, Models.deleted old,
                Models.record_status old)
          /\ pool_date_ranges d' = pool_date_ranges d
          /\ pool_date_range_history d' = pool_date_range_history d
  end.
Proof.
  unfold update_pool.
  destruct (List.find (live_pool pool_id) (pools d)) as [old |] eqn:Hfind;
    [| reflexivity].
  destruct (match Schemas.name pool_update with
            | Some n => name_taken d pool_id n
            | None => false
            end); [reflexivity |].
  assert (Hlive : live_pool pool_id old = true)
    by (apply List.find_some in Hfind; tauto).
  match goal with
  | |- context [replace_first pool_id ?p (pools d)] => set (db_pool := p)
  end.
  assert (Hlive' : live_pool pool_id db_pool = true).
  { subst db_pool. unfold live_pool in *.
    destruct (Schemas.name pool_update), (Schemas.remarks pool_update);
      exact Hlive. }
  destruct (replace_first_splits pool_id db_pool (pools d) old Hfind)
    as (before & after & Hsplit & Hrep & Hbefore).
  exists db_pool. eexists. exists before, after.
  split; [reflexivity |]. cbn [pools pool_date_ranges pool_date_range_history].
  split; [exact Hsplit |]. split; [exact Hrep |].
  split; [exact Hbefore |]. split.
  { rewrite Hrep. clear - Hbefore Hlive'.
    induction Hbefore as [| p l Hp _ IH]; cbn [app List.find].
    - now rewrite Hlive'.
    - now rewrite Hp. }
  subst db_pool.
  destruct (Schemas.name pool_update), (Schemas.remarks pool_update);
    repeat split.
Qed.

(** ** Routes without date ranges, and the creation of a pool *)

(** [edit_pool] on a request without date ranges ([None] or an empty list)
    never answers with a success and never reaches the publication: the
    answer is [POOL_NOT_FOUND], the name conflict, or, when the pool row has
    been rewritten, the status 400 of the handler for unexpected exceptions;
    in that last case the rewritten row stays in the database.  The ranges,
    their history and the log of calls are left as they were. *)
Theorem edit_pool_without_ranges_never_succeeds `{DateText} `{DateRangeChecker}
    (stub : list Booking.Request -> Booking.Request -> gmap string pyval)
    (current_date : date) (name_taken : Database -> Z -> string -> bool)
    (publish_update : Models.Pool -> list Z -> list (gmap string pyval) ->
                      World -> HttpResult * World)
    (pool_update : Schemas.PoolUpdate) (user_id subscriber_id : Z) (w : World) :
  given_ranges (Schemas.date_ranges pool_update) = [] ->
  let out := edit_pool stub current_date name_taken publish_update pool_update
               user_id subscriber_id w in
  response_content (fst out) !! "success" = Some (VBool false)
  /\ calls (snd out) = calls w
  /\ pool_date_ranges (db (snd out)) = pool_date_ranges (db w)
  /\ pool_date_range_history (db (snd out)) = pool_date_range_history (db w)
  /\ match update_pool name_taken (db w) (Schemas.id pool_update) pool_update
             user_id with
     | Return (Some (db_pool, d)) =>
         exists message,
           fst out = JSONResponse 400
                       {[ "success" := VBool false; "message" := VStr message ]}
           /\ db (snd out) = d
     | Return None =>
         fst out = JSONResponse 404
                     {[ "success" := VBool false;
                        "message" := VStr Params.POOL_NOT_FOUND;
                        "translation_key" := VStr "POOL_NOT_FOUND" ]}
         /\ snd out = w
     | Raise e => fst out = handle e /\ snd out = w
     end.
Proof.
  intros Hnone. cbn zeta. unfold edit_pool. rewrite Hnone.
  pose proof (update_pool_keeps_ranges name_taken (db w) (Schemas.id pool_update)
                pool_update user_id) as Hkeep.
  destruct (update_pool name_taken (db w) (Schemas.id pool_update) pool_update
              user_id) as [[[db_pool d] |] | e] eqn:Hupd.
  - cbn [fst snd db calls handle response_content].
    specialize (Hkeep db_pool d eq_refl).
    assert (Hhist : pool_date_range_history d = pool_date_range_history (db w)).
    { unfold update_pool in Hupd. destruct (List.find _ _); [| discriminate].
      destruct (match Schemas.name pool_update with
                | Some n => name_taken (db w) (Schemas.id pool_update) n
                | None => false
                end); [discriminate |].
      now injection Hupd as _ <-. }
    repeat split; auto. eexists. split; reflexivity.
  - cbn [fst snd response_content]. repeat split; reflexivity.
  - cbn [fst snd]. repeat split; try reflexivity.
    destruct e; reflexivity.
Qed.

Lemma edit_pool_without_ranges_never_succeeds_witness :
  let rename :=
    {| Schemas.id := 7; Schemas.check_date_ranges := false;
       Schemas.name := Some "Annex"; Schemas.remarks := None;
       Schemas.date_ranges := None |} in
  let out := @edit_pool iso_date_text SpecChecker.checker quiet_stub
               (Iso.on "2026-11-03") free_names silent_update rename 1 3
               one_pool_world in
  response_content (fst out) !! "success" = Some (VBool false)
  /\ List.map Models.name (pools (db (snd out))) = ["Annex"].
Proof.
  cbn zeta. split.
  - apply (@edit_pool_without_ranges_never_succeeds iso_date_text
             SpecChecker.checker quiet_stub (Iso.on "2026-11-03") free_names
             silent_update
             {| Schemas.id := 7; Schemas.check_date_ranges := false;
                Schemas.name := Some "Annex"; Schemas.remarks := None;
                Schemas.date_ranges := None |} 1 3 one_pool_world eq_refl).
  - vm_compute. reflexivity.
Defined.

(** [create_pool_with_dates], once the interval checks pass on a non-empty
    list of ranges: a refused name is answered with [UNIQUE_POOL_NAME] and
    leaves the world as it was; otherwise the pool is appended with the next
    identifier and no updater, one row is appended for each proposed range,
    in order, under the identifier of the new pool, created by the user and
    with no updater, one [INSERT] entry is logged for each row, and the route
    ends in the publication of the pool and of these rows.  The booking
    service is not called. *)
Theorem create_pool_with_dates_stores_the_ranges `{DateText} `{DateRangeChecker}
    (name_taken : Database -> Z -> string -> bool)
    (publish_create : Models.Pool -> option (list (gmap string pyval)) ->
                      World -> HttpResult * World)
    (pool : Schemas.PoolCreate) (user_id subscriber_id : Z) (w : World) :
  Schemas.pc_date_ranges pool <> [] ->
  check_pool_dates (Schemas.pc_date_ranges pool) = None ->
  if name_taken (db w) (next_pool_id (db w)) (Schemas.pc_name pool) then
    create_pool_with_dates name_taken publish_create pool user_id subscriber_id w
    = (JSONResponse 400
         {[ "success" := VBool false;
            "message" := VStr Params.UNIQUE_POOL_NAME;
            "translation_key" := VStr "UNIQUE_POOL_NAME" ]}, w)
  else
    exists db_pool rows d,
      create_pool_with_dates name_taken publish_create pool user_id
        subscriber_id w
      = publish_create db_pool (Some (List.map to_dict rows))
          {| db := d; calls := calls w |}
      /\ db_pool = {| Models.id := next_pool_id (db w);
                      Models.name := Schemas.pc_name pool;
                      Models.remarks := Schemas.pc_remarks pool;
                      Models.created_by_id := user_id;
                      Models.updated_by_id := None;
                      Models.subscriber_id := subscriber_id;
                      Models.deleted := 0;
                      Models.record_status := 1 |}
      /\ pools d = pools (db w) ++ [db_pool]
      /\ pool_date_ranges d = pool_date_ranges (db w) ++ rows
      /\ List.map row_tuple rows = List.map tuple_of (Schemas.pc_date_ranges pool)
      /\ Forall (fun r => live_range_of (next_pool_id (db w)) r = true
                          /\ Models.pdr_created_by_id r = user_id
                          /\ Models.pdr_updated_by_id r = None
                          /\ Models.pdr_subscriber_id r = subscriber_id) rows
      /\ List.map history_record (pool_date_range_history d)
         = List.map history_record (pool_date_range_history (db w))
           ++ List.map (insertion_record (next_pool_id (db w)) user_id
                          subscriber_id) rows.
Proof.
  intros Hne Hcheck. unfold create_pool_with_dates, create_pool.
  destruct (Schemas.pc_date_ranges pool) as [| n rest] eqn:Hranges;
    [congruence |].
  rewrite Hcheck.
  destruct (name_taken (db w) (next_pool_id (db w)) (Schemas.pc_name pool));
    [reflexivity |].
  cbn [Models.id]. unfold create_pool_date_ranges.
  match goal with
  | |- context [insert_ranges ?d0 ?pid ?u ?upd ?s ?rs ?acc] =>
      pose proof (insert_ranges_rows d0 pid u upd s rs acc) as Hins;
      destruct (insert_ranges d0 pid u upd s rs acc) as [d data]
  end.
  destruct Hins as (rows & Hr & Hp & _ & Hd & Ht & Hl & _ & _ & Hh).
  cbn [app pools pool_date_ranges pool_date_range_history] in *. subst data.
  eexists _, rows, d. split; [reflexivity |]. repeat split; auto.
Qed.

Lemma create_pool_with_dates_stores_the_ranges_witness :
  let pool := {| Schemas.pc_name := "Annex"; Schemas.pc_remarks := None;
                 Schemas.pc_date_ranges := two_tiling |} in
  let out := @create_pool_with_dates iso_date_text SpecChecker.checker free_names
               silent_create pool 1 3 one_pool_world in
  List.map Models.name (pools (db (snd out))) = ["Hall"; "Annex"]
  /\ List.map row_tuple (pool_date_ranges (db (snd out)))
     = List.map tuple_of two_tiling.
Proof.
  cbn zeta.
  pose proof (@create_pool_with_dates_stores_the_ranges iso_date_text
                SpecChecker.checker free_names silent_create
                {| Schemas.pc_name := "Annex"; Schemas.pc_remarks := None;
                   Schemas.pc_date_ranges := two_tiling |} 1 3 one_pool_world)
    as Hthm.
  cbn [Schemas.pc_date_ranges Schemas.pc_name free_names] in Hthm.
  destruct Hthm as (db_pool & rows & d & Hrun & -> & Hpools & Hrows & Htup & _).
  - discriminate.
  - vm_compute. reflexivity.
  - rewrite Hrun. cbn [silent_create snd db]. rewrite Hpools, Hrows.
    split; [reflexivity |]. exact Htup.
Defined.

(** ** Dates on which a service is not available *)

Section NotAvailableFacts.
Context `{DateText}.
Variable RepeatType RepeatDetails : Type.
Variable NOTAVAILABLE NO_RULES_FOUND : string.
Variable STARTDATEGREATERTHANENDDATE INVALIDDATEFORMAT : string.
Variable error_response : string -> string -> Z -> gmap string pyval.
Variable getUnAvailableDates : RuleData RepeatType RepeatDetails -> gset string.
Variable py_str : pyval -> string.

Lemma adjust_dates_of_parsed rule_start_date rule_end_date request_start_date
    request_end_date rule_start rule_end request_start request_end :
  as_date rule_start_date = inr rule_start ->
  as_date rule_end_date = inr rule_end ->
  as_date request_start_date = inr request_start ->
  as_date request_end_date = inr request_end ->
  adjust_dates STARTDATEGREATERTHANENDDATE INVALIDDATEFORMAT rule_start_date
    rule_end_date request_start_date request_end_date
  = if request_start >? request_end then
      {[ "success" := VBool false;
         "message" := VStr STARTDATEGREATERTHANENDDATE;
         "translation_key" := VStr "START_DATE_GREATER_THAN_END_DATE" ]}
    else
      {[ "success" := VBool true;
         "start_date" := VDate (Z.max request_start rule_start);
         "end_date" := VDate (Z.min request_end rule_end) ]}.
Proof.
  intros H1 H2 H3 H4. unfold adjust_dates. rewrite H1, H2, H3, H4.
  now rewrite py_max_is_max, py_min_is_min.
Qed.

Lemma success_dict_success (a b c : pyval) :
  ({[ "success" := a; "start_date" := b; "end_date" := c ]}
     : gmap string pyval) !! "success" = Some a.
Proof. reflexivity. Qed.

Lemma success_dict_start (a b c : pyval) :
  ({[ "success" := a; "start_date" := b; "end_date" := c ]}
     : gmap string pyval) !! "start_date" = Some b.
Proof. reflexivity. Qed.

Lemma success_dict_end (a b c : pyval) :
  ({[ "success" := a; "start_date" := b; "end_date" := c ]}
     : gmap string pyval) !! "end_date" = Some c.
Proof. reflexivity. Qed.

Lemma expand_rules_union (filtered : list (Rule RepeatType RepeatDetails))
    start_date end_date request_start request_end acc :
  as_date start_date = inr request_start ->
  as_date end_date = inr request_end ->
  request_start <= request_end ->
  Forall (fun rule => exists s e, as_date (rule_start_date _ _ rule) = inr s
                                  /\ as_date (rule_end_date _ _ rule) = inr e)
    filtered ->
  exists dates,
    expand_rules RepeatType RepeatDetails STARTDATEGREATERTHANENDDATE
      INVALIDDATEFORMAT error_response getUnAvailableDates py_str filtered
      start_date end_date acc = NotAvailableDates dates
    /\ forall x,
         x ∈ dates
         <-> x ∈ acc
             \/ exists rule s e,
                  In rule filtered
                  /\ as_date (rule_start_date _ _ rule) = inr s
                  /\ as_date (rule_end_date _ _ rule) = inr e
                  /\ x ∈ getUnAvailableDates
                          (clipped_rule_data RepeatType RepeatDetails py_str rule
                             s e request_start request_end).
Proof.
  intros Hs He Hle Hparsed. revert acc.
  induction Hparsed as [| rule rest (s & e & Hrs & Hre) _ IH]; intros acc.
  - exists acc. split; [reflexivity |]. intros x. split; [auto |].
    intros [Hx | (rule & _ & _ & [] & _)]. exact Hx.
  - cbn [expand_rules].
    rewrite (adjust_dates_of_parsed _ _ _ _ s e request_start request_end
               Hrs Hre Hs He).
    replace (request_start >? request_end) with false
      by (symmetry; rewrite Z.gtb_ltb; apply Z.ltb_ge; lia).
    cbv zeta. rewrite !success_dict_success, !success_dict_start,
      !success_dict_end. cbn [is_False].
    match goal with
    | |- context [expand_rules _ _ _ _ _ _ _ rest _ _ ?acc1] =>
        destruct (IH acc1) as (dates & Hrun & Hmem)
    end.
    exists dates. split; [exact Hrun |].
    intros x. rewrite Hmem, elem_of_union. unfold clipped_rule_data. split.
    + intros [[Hx | Hx] | (r & s' & e' & Hin & H1 & H2 & Hx)].
      * now left.
      * right. exists rule, s, e. repeat split; auto. now left.
      * right. exists r, s', e'. repeat split; auto. now right.
    + intros [Hx | (r & s' & e' & [<- | Hin] & H1 & H2 & Hx)].
      * left. now left.
      * left. right. rewrite Hrs in H1. rewrite Hre in H2.
        injection H1 as <-. injection H2 as <-. exact Hx.
      * right. exists r, s', e'. auto.
Qed.
End NotAvailableFacts.

(** Without a rule priced as not available the function fails with
    [NO_RULES_FOUND] and status 400, whatever the requested dates are: also a
    request whose dates do not parse, or whose start is after its end, is
    answered with [NO_RULES_FOUND]. *)
Theorem no_rule_found_precedes_the_date_checks `{DateText}
    (RepeatType RepeatDetails : Type)
    (NOTAVAILABLE NO_RULES_FOUND STARTDATEGREATERTHANENDDATE INVALIDDATEFORMAT
       : string)
    (error_response : string -> string -> Z -> gmap string pyval)
    (getUnAvailableDates : RuleData RepeatType RepeatDetails -> gset string)
    (py_str : pyval -> string)
    (rules : list (Rule RepeatType RepeatDetails))
    (start_date end_date : date_arg) :
  Forall (fun rule => pricing_type _ _ rule <> NOTAVAILABLE) rules ->
  get_not_available_rule_dates RepeatType RepeatDetails NOTAVAILABLE
    NO_RULES_FOUND STARTDATEGREATERTHANENDDATE INVALIDDATEFORMAT error_response
    getUnAvailableDates py_str (WithRules rules) start_date end_date
  = Failed (Some 400) (error_response "NO_RULES_FOUND" NO_RULES_FOUND 400).
Proof.
  intros Hnone. unfold get_not_available_rule_dates.
  replace (List.filter (fun item => String.eqb (pricing_type _ _ item) NOTAVAILABLE)
             rules) with (@nil (Rule RepeatType RepeatDetails)); [reflexivity |].
  induction Hnone as [| rule rest Hrule _ IH]; [reflexivity |].
  cbn [List.filter]. apply String.eqb_neq in Hrule. now rewrite Hrule.
Qed.

Lemma no_rule_found_precedes_the_date_checks_witness :
  @get_not_available_rule_dates iso_date_text string string "NOT_AVAILABLE"
    "No rules found" "start after end" "bad date" sample_error_response
    sample_expander sample_str
    (WithRules [sample_rule "FIXED" "2024-01-01" "2024-01-31"])
    (AStr "2024-01-10") (AStr "not a date")
  = Failed (Some 400)
      (sample_error_response "NO_RULES_FOUND" "No rules found" 400).
Proof.
  apply (@no_rule_found_precedes_the_date_checks iso_date_text string string
           "NOT_AVAILABLE" "No rules found" "start after end" "bad date"
           sample_error_response sample_expander sample_str
           [sample_rule "FIXED" "2024-01-01" "2024-01-31"]
           (AStr "2024-01-10") (AStr "not a date")).
  repeat constructor. discriminate.
Defined.

(** A request whose start is after its end fails at the first rule priced as
    not available, with status 400 and the failure of [adjust_dates]; the
    expander is not consulted and the rules behind the first one are not
    looked at. *)
Theorem inverted_request_fails_at_the_first_rule `{DateText}
    (RepeatType RepeatDetails : Type)
    (NOTAVAILABLE NO_RULES_FOUND STARTDATEGREATERTHANENDDATE INVALIDDATEFORMAT
       : string)
    (error_response : string -> string -> Z -> gmap string pyval)
    (getUnAvailableDates : RuleData RepeatType RepeatDetails -> gset string)
    (py_str : pyval -> string)
    (rules : list (Rule RepeatType RepeatDetails))
    (start_date end_date : date_arg)
    (rule : Rule RepeatType RepeatDetails) (rest : list (Rule RepeatType RepeatDetails))
    (rule_start rule_end request_start request_end : date) :
  List.filter (fun item => String.eqb (pricing_type _ _ item) NOTAVAILABLE) rules
    = rule :: rest ->
  as_date (rule_start_date _ _ rule) = inr rule_start ->
  as_date (rule_end_date _ _ rule) = inr rule_end ->
  as_date start_date = inr request_start ->
  as_date end_date = inr request_end ->
  request_start > request_end ->
  get_not_available_rule_dates RepeatType RepeatDetails NOTAVAILABLE
    NO_RULES_FOUND STARTDATEGREATERTHANENDDATE INVALIDDATEFORMAT error_response
    getUnAvailableDates py_str (WithRules rules) start_date end_date
  = Failed (Some 400)
      {[ "success" := VBool false;
         "message" := VStr STARTDATEGREATERTHANENDDATE;
         "translation_key" := VStr "START_DATE_GREATER_THAN_END_DATE" ]}.
Proof.
  intros Hfilter Hrs Hre Hs He Hgt. unfold get_not_available_rule_dates.
  rewrite Hfilter. cbn [expand_rules].
  rewrite (adjust_dates_of_parsed _ _ _ _ _ _ rule_start rule_end request_start
             request_end Hrs Hre Hs He).
  replace (request_start >? request_end) with true
    by (symmetry; apply Z.gtb_gt; lia).
  reflexivity.
Qed.

Lemma inverted_request_fails_at_the_first_rule_witness :
  @get_not_available_rule_dates iso_date_text string string "NOT_AVAILABLE"
    "No rules found" "start after end" "bad date" sample_error_response
    sample_expander sample_str
    (WithRules [sample_rule "FIXED" "2024-01-01" "2024-01-31";
                sample_rule "NOT_AVAILABLE" "2024-01-01" "2024-01-31"])
    (AStr "2024-01-10") (AStr "2024-01-05")
  = Failed (Some 400)
      {[ "success" := VBool false;
         "message" := VStr "start after end";
         "translation_key" := VStr "START_DATE_GREATER_THAN_END_DATE" ]}.
Proof.
  apply (@inverted_request_fails_at_the_first_rule iso_date_text string string
           "NOT_AVAILABLE" "No rules found" "start after end" "bad date"
           sample_error_response sample_expander sample_str
           [sample_rule "FIXED" "2024-01-01" "2024-01-31";
            sample_rule "NOT_AVAILABLE" "2024-01-01" "2024-01-31"]
           (AStr "2024-01-10") (AStr "2024-01-05")
           (sample_rule "NOT_AVAILABLE" "2024-01-01" "2024-01-31") []
           (Iso.on "2024-01-01") (Iso.on "2024-01-31")
           (Iso.on "2024-01-10") (Iso.on "2024-01-05"));
    vm_compute; reflexivity.
Defined.

(** When the request is well formed and the dates of the rules priced as not
    available are dates, the function succeeds with the union of what the
    expander returns for each of those rules on its clipped window (the later
    of the two starts, the earlier of the two ends, an empty window
    included).  A date is in the result exactly when one of those rules
    yields it: the order of the rules does not matter, and rules priced
    otherwise contribute nothing. *)
Theorem not_available_dates_are_the_union_over_the_rules `{DateText}
    (RepeatType RepeatDetails : Type)
    (NOTAVAILABLE NO_RULES_FOUND STARTDATEGREATERTHANENDDATE INVALIDDATEFORMAT
       : string)
    (error_response : string -> string -> Z -> gmap string pyval)
    (getUnAvailableDates : RuleData RepeatType RepeatDetails -> gset string)
    (py_str : pyval -> string)
    (rules : list (Rule RepeatType RepeatDetails))
    (start_date end_date : date_arg) (request_start request_end : date) :
  as_date start_date = inr request_start ->
  as_date end_date = inr request_end ->
  request_start <= request_end ->
  Exists (fun rule => pricing_type _ _ rule = NOTAVAILABLE) rules ->
  Forall (fun rule => pricing_type _ _ rule = NOTAVAILABLE ->
                      exists s e, as_date (rule_start_date _ _ rule) = inr s
                                  /\ as_date (rule_end_date _ _ rule) = inr e)
    rules ->
  exists dates,
    get_not_available_rule_dates RepeatType RepeatDetails NOTAVAILABLE
      NO_RULES_FOUND STARTDATEGREATERTHANENDDATE INVALIDDATEFORMAT error_response
      getUnAvailableDates py_str (WithRules rules) start_date end_date
    = NotAvailableDates dates
    /\ forall x,
         x ∈ dates
         <-> exists rule s e,
               In rule rules
               /\ pricing_type _ _ rule = NOTAVAILABLE
               /\ as_date (rule_start_date _ _ rule) = inr s
               /\ as_date (rule_end_date _ _ rule) = inr e
               /\ x ∈ getUnAvailableDates
                       (clipped_rule_data RepeatType RepeatDetails py_str rule
                          s e request_start request_end).
Proof.
  intros Hs He Hle Hsome Hparsed. unfold get_not_available_rule_dates.
  set (filtered := List.filter
         (fun item => String.eqb (pricing_type _ _ item) NOTAVAILABLE) rules).
  assert (Hin : forall r, In r filtered
                          <-> In r rules /\ pricing_type _ _ r = NOTAVAILABLE).
  { intros r. unfold filtered. rewrite List.filter_In, String.eqb_eq. tauto. }
  assert (Hfp : Forall (fun rule => exists s e,
                          as_date (rule_start_date _ _ rule) = inr s
                          /\ as_date (rule_end_date _ _ rule) = inr e) filtered).
  { apply List.Forall_forall. intros r Hr. apply Hin in Hr as [Hr Hp].
    rewrite List.Forall_forall in Hparsed. now apply Hparsed. }
  destruct (expand_rules_union RepeatType RepeatDetails
              STARTDATEGREATERTHANENDDATE INVALIDDATEFORMAT error_response
              getUnAvailableDates py_str filtered start_date end_date
              request_start request_end ∅ Hs He Hle Hfp)
    as (dates & Hrun & Hmem).
  exists dates. split.
  - destruct filtered as [| r rest] eqn:Hf; [| exact Hrun].
    exfalso. apply List.Exists_exists in Hsome as (r & Hr & Hp).
    apply (proj2 (Hin r)). now split.
  - intros x. rewrite Hmem. split.
    + intros [Hx | (r & s & e & Hr & H1 & H2 & Hx)].
      * now apply not_elem_of_empty in Hx.
      * apply Hin in Hr as [Hr Hp]. exists r, s, e. auto.
    + intros (r & s & e & Hr & Hp & H1 & H2 & Hx). right.
      exists r, s, e. repeat split; auto. apply Hin. now split.
Qed.

Lemma not_available_dates_are_the_union_over_the_rules_witness :
  exists dates,
    @get_not_available_rule_dates iso_date_text string string "NOT_AVAILABLE"
      "No rules found" "start after end" "bad date" sample_error_response
      sample_expander sample_str
      (WithRules [sample_rule "NOT_AVAILABLE" "2024-01-01" "2024-01-31";
                  sample_rule "FIXED" "never" "never";
                  sample_rule "NOT_AVAILABLE" "2024-03-01" "2024-03-31"])
      (AStr "2024-01-10") (AStr "2024-02-10")
    = NotAvailableDates dates
    /\ forall x,
         x ∈ dates
         <-> exists rule s e,
               In rule [sample_rule "NOT_AVAILABLE" "2024-01-01" "2024-01-31";
                        sample_rule "FIXED" "never" "never";
                        sample_rule "NOT_AVAILABLE" "2024-03-01" "2024-03-31"]
               /\ pricing_type _ _ rule = "NOT_AVAILABLE"
               /\ @as_date iso_date_text (rule_start_date _ _ rule) = inr s
               /\ @as_date iso_date_text (rule_end_date _ _ rule) = inr e
               /\ x ∈ sample_expander
                       (clipped_rule_data string string sample_str rule s e
                          (Iso.on "2024-01-10") (Iso.on "2024-02-10")).
Proof.
  apply (@not_available_dates_are_the_union_over_the_rules iso_date_text
           string string "NOT_AVAILABLE" "No rules found" "start after end"
           "bad date" sample_error_response sample_expander sample_str
           [sample_rule "NOT_AVAILABLE" "2024-01-01" "2024-01-31";
            sample_rule "FIXED" "never" "never";
            sample_rule "NOT_AVAILABLE" "2024-03-01" "2024-03-31"]
           (AStr "2024-01-10") (AStr "2024-02-10")
           (Iso.on "2024-01-10") (Iso.on "2024-02-10")).
  - vm_compute; reflexivity.
  - vm_compute; reflexivity.
  - vm_compute; discriminate.
  - apply Exists_cons_hd. reflexivity.
  - repeat constructor.
    + intros _. exists (Iso.on "2024-01-01"), (Iso.on "2024-01-31").
      split; vm_compute; reflexivity.
    + intros Hp. discriminate Hp.
    + intros _. exists (Iso.on "2024-03-01"), (Iso.on "2024-03-31").
      split; vm_compute; reflexivity.
Defined.

(** ** Deleting pools *)

Lemma insert_by_id_perm r l : Permutation (insert_by_id r l) (r :: l).
Proof.
  induction l as [| x l IH]; [reflexivity |].
  cbn [insert_by_id]. destruct (Models.pdr_id r <=? Models.pdr_id x).
  - reflexivity.
  - rewrite IH. apply perm_swap.
Qed.

Lemma order_by_id_perm l : Permutation (order_by_id l) l.
Proof.
  induction l as [| r l IH]; [reflexivity |].
  cbn [order_by_id List.fold_right]. fold (order_by_id l).
  rewrite insert_by_id_perm. now constructor.
Qed.

Lemma filter_none_negb {A} (p : A -> bool) (l : list A) :
  List.filter p l = [] -> List.filter (fun x => negb (p x)) l = l.
Proof.
  induction l as [| x l IH]; [reflexivity |].
  cbn [List.filter]. destruct (p x); [discriminate |].
  intros Hl. cbn [negb]. now rewrite IH.
Qed.

Lemma filter_or_perm {A} (p q : A -> bool) (l : list A) :
  Permutation (List.filter (fun x => p x || q x) l)
    (List.filter p l ++ List.filter q (List.filter (fun x => negb (p x)) l)).
Proof.
  induction l as [| x l IH]; [reflexivity |].
  cbn [List.filter]. destruct (p x); cbn [orb negb].
  - cbn [app]. now constructor.
  - cbn [List.filter]. destruct (q x).
    + rewrite IH. apply Permutation_middle.
    + exact IH.
Qed.

Lemma bulk_insert_history_rows d data :
  let d' := bulk_insert_history d data in
  pools d' = pools d
  /\ pool_date_ranges d' = pool_date_ranges d
  /\ next_pool_id d' = next_pool_id d
  /\ next_pool_date_range_id d' = next_pool_date_range_id d
  /\ next_history_id d' = next_history_id d + Z.of_nat (length data)
  /\ exists new,
       pool_date_range_history d' = pool_date_range_history d ++ new
       /\ List.map Models.h_id new
          = List.map (fun i => next_history_id d + Z.of_nat i)
              (seq 0 (length data))
       /\ List.map history_record new
          = List.map
              (fun e => (e_pool_id e, e_pool_date_range_id e, e_action_type e,
                         e_old_start_date e, e_old_end_date e, e_old_capacity e,
                         e_created_by_id e, e_subscriber_id e))
              data.
Proof.
  cbn zeta.
  assert (Hfold : forall data d,
            let d' := List.fold_left
                        (fun d entry =>
                           log_pool_date_range_history d (e_pool_id entry)
                             (e_pool_date_range_id entry) (e_action_type entry)
                             (e_old_start_date entry) (e_old_end_date entry)
                             (e_old_capacity entry) (e_created_by_id entry)
                             (e_subscriber_id entry)) data d in
            pools d' = pools d
            /\ pool_date_ranges d' = pool_date_ranges d
            /\ next_pool_id d' = next_pool_id d
            /\ next_pool_date_range_id d' = next_pool_date_range_id d
            /\ next_history_id d' = next_history_id d + Z.of_nat (length data)
            /\ exists new,
                 pool_date_range_history d' = pool_date_range_history d ++ new
                 /\ List.map Models.h_id new
                    = List.map (fun i => next_history_id d + Z.of_nat i)
                        (seq 0 (length data))
                 /\ List.map history_record new
                    = List.map
                        (fun e => (e_pool_id e, e_pool_date_range_id e,
                                   e_action_type e, e_old_start_date e,
                                   e_old_end_date e, e_old_capacity e,
                                   e_created_by_id e, e_subscriber_id e))
                        data).
  { clear. induction data as [| e rest IH]; intros d; cbn zeta.
    - cbn. rewrite Z.add_0_r. repeat split; auto. exists [].
      now rewrite app_nil_r.
    - cbn [List.fold_left].
      match goal with
      | |- context [List.fold_left _ rest ?d1] => specialize (IH d1)
      end.
      cbn zeta in IH. destruct IH as (Hp & Hr & Hn & Hc & Hh & new & Hnew & Hid & Hrec).
      cbn [log_pool_date_range_history pools pool_date_ranges next_pool_id
           next_pool_date_range_id next_history_id pool_date_range_history] in *.
      split; [exact Hp |]. split; [exact Hr |]. split; [exact Hn |].
      split; [exact Hc |]. split; [cbn [length]; lia |].
      eexists (_ :: new). rewrite Hnew, <- app_assoc. split; [reflexivity |].
      cbn [List.map length seq Models.h_id]. split.
      + rewrite Hid, Z.add_0_r. f_equal. rewrite <- seq_shift, List.map_map.
        apply List.map_ext. intros i. lia.
      + rewrite Hrec. reflexivity. }
  destruct data as [| e rest].
  - cbn. rewrite Z.add_0_r. repeat split; auto. exists [].
    now rewrite app_nil_r.
  - exact (Hfold (e :: rest) d).
Qed.

Lemma delete_capacities_rows d id user_id subscriber_id :
  let gone := List.filter (capacity_of id subscriber_id) (pool_date_ranges d) in
  let d' := delete_capacities d id user_id subscriber_id in
  pools d' = pools d
  /\ pool_date_ranges d'
     = List.filter (fun r => negb (capacity_of id subscriber_id r))
         (pool_date_ranges d)
  /\ next_pool_id d' = next_pool_id d
  /\ next_pool_date_range_id d' = next_pool_date_range_id d
  /\ next_history_id d' = next_history_id d + Z.of_nat (length gone)
  /\ exists new,
       pool_date_range_history d' = pool_date_range_history d ++ new
       /\ List.map Models.h_id new
          = List.map (fun i => next_history_id d + Z.of_nat i)
              (seq 0 (length gone))
       /\ List.map history_record new
          = List.map
              (fun r => deletion_record (Models.pool_id r) user_id subscriber_id r)
              (order_by_id gone).
Proof.
  cbn zeta. unfold delete_capacities.
  set (gone := List.filter (capacity_of id subscriber_id) (pool_date_ranges d)).
  assert (Hlen : length (order_by_id gone) = length gone)
    by apply Permutation_length, order_by_id_perm.
  destruct (order_by_id gone) as [| c rest] eqn:Hsorted.
  - destruct gone as [| g gone'] eqn:Hgone; [| discriminate Hlen].
    rewrite (filter_none_negb _ _ Hgone). cbn. rewrite Z.add_0_r.
    repeat split; auto. exists []. now rewrite app_nil_r.
  - match goal with
    | |- context [bulk_insert_history d ?data] =>
        pose proof (bulk_insert_history_rows d data) as Hbulk;
        set (entries := data) in *
    end.
    cbn zeta in Hbulk.
    destruct Hbulk as (Hp & Hr & Hn & Hc & Hh & new & Hnew & Hid & Hrec).
    cbn [pools pool_date_ranges next_pool_id next_pool_date_range_id
         next_history_id pool_date_range_history].
    assert (Hentries : length entries = length gone).
    { unfold entries. now rewrite length_map. }
    rewrite Hp, Hr, Hn, Hc, Hh, Hentries. repeat split; auto.
    exists new. rewrite Hentries in Hid. repeat split; auto.
    rewrite Hrec. unfold entries. rewrite List.map_map. reflexivity.
Qed.

Lemma existsb_find {A} (f : A -> bool) (l : list A) :
  existsb f l = match List.find f l with Some _ => true | None => false end.
Proof.
  induction l as [| x l IH]; [reflexivity |].
  cbn [existsb List.find]. now destruct (f x).
Qed.

Lemma existsb_filter {A} (f g : A -> bool) (l : list A) :
  existsb f (List.filter g l) = existsb (fun x => f x && g x) l.
Proof.
  induction l as [| x l IH]; [reflexivity |].
  cbn [existsb List.filter]. destruct (g x); cbn [existsb].
  - now rewrite IH, andb_true_r.
  - now rewrite IH, andb_false_r.
Qed.

Lemma find_filter {A} (f g : A -> bool) (l : list A) :
  List.find f (List.filter g l) = List.find (fun x => f x && g x) l.
Proof.
  induction l as [| x l IH]; [reflexivity |].
  cbn [List.find List.filter]. destruct (g x); cbn [List.find].
  - rewrite andb_true_r. now destruct (f x).
  - now rewrite andb_false_r.
Qed.

Lemma filter_negb_filter_negb {A} (p q : A -> bool) (l : list A) :
  List.filter (fun x => negb (q x)) (List.filter (fun x => negb (p x)) l)
  = List.filter (fun x => negb (p x || q x)) l.
Proof.
  induction l as [| x l IH]; [reflexivity |].
  cbn [List.filter]. destruct (p x); cbn [negb orb]; [exact IH |].
  cbn [List.filter]. destruct (q x); cbn [negb]; now rewrite IH.
Qed.

Lemma range_of_pools_cons id rest subscriber_id r :
  range_of_pools (id :: rest) subscriber_id r
  = capacity_of id subscriber_id r || range_of_pools rest subscriber_id r.
Proof.
  unfold range_of_pools, capacity_of, among. cbn [existsb].
  destruct (Models.pool_id r =? id), (existsb _ rest),
    (Models.pdr_subscriber_id r =? subscriber_id); reflexivity.
Qed.

Lemma seq_ids_app (next : Z) (a b : nat) :
  List.map (fun i => next + Z.of_nat i) (seq 0 a)
  ++ List.map (fun i => next + Z.of_nat a + Z.of_nat i) (seq 0 b)
  = List.map (fun i => next + Z.of_nat i) (seq 0 (a + b)).
Proof.
  assert (Hshift : forall s,
            List.map (fun i => next + Z.of_nat a + Z.of_nat i) (seq s b)
            = List.map (fun i => next + Z.of_nat i) (seq (a + s) b)).
  { induction b as [| b IH]; intros s; [reflexivity |].
    cbn [seq List.map]. f_equal; [lia |].
    rewrite IH. now rewrite Nat.add_succ_r. }
  rewrite seq_app, List.map_app, Hshift, Nat.add_0_r. reflexivity.
Qed.

Section DeletionFacts.
Variable services : list Admin.Service.
Variable DELETE_SUCCESS_MESSAGE ERROR_ON_DELETE : string.
Variable pooling_event : Registry -> Z -> Z -> Z -> option string.

Lemma delete_each_ext sp sp' user_id subscriber_id ids w :
  (forall id, In id ids ->
     List.find (fun pool => Models.id pool =? id) sp
     = List.find (fun pool => Models.id pool =? id) sp') ->
  delete_each services DELETE_SUCCESS_MESSAGE ERROR_ON_DELETE pooling_event
    sp user_id subscriber_id ids w
  = delete_each services DELETE_SUCCESS_MESSAGE ERROR_ON_DELETE pooling_event
    sp' user_id subscriber_id ids w.
Proof.
  revert w. induction ids as [| id rest IH]; intros w Hsame; [reflexivity |].
  cbn [delete_each]. rewrite <- (Hsame id) by now left.
  destruct (List.find _ sp) as [pool |].
  - destruct (check_linked_services _ _ _ _) as [[] message]; [reflexivity |].
    destruct (pooling_event _ _ _ _); [reflexivity |].
    apply IH. intros id' Hin. apply Hsame. now right.
  - apply IH. intros id' Hin. apply Hsame. now right.
Qed.

Lemma delete_each_skips sp user_id subscriber_id ids w :
  delete_each services DELETE_SUCCESS_MESSAGE ERROR_ON_DELETE pooling_event
    sp user_id subscriber_id
    (List.filter (fun id => existsb (fun pool => Models.id pool =? id) sp) ids) w
  = delete_each services DELETE_SUCCESS_MESSAGE ERROR_ON_DELETE pooling_event
    sp user_id subscriber_id ids w.
Proof.
  revert w. induction ids as [| id rest IH]; intros w; [reflexivity |].
  cbn [List.filter delete_each].
  destruct (List.find (fun pool => Models.id pool =? id) sp) as [pool |] eqn:Hfind.
  - assert (Hex : existsb (fun pool => Models.id pool =? id) sp = true).
    { apply List.find_some in Hfind as [Hin Hid]. apply existsb_exists.
      now exists pool. }
    rewrite Hex. cbn [delete_each]. rewrite Hfind.
    destruct (check_linked_services _ _ _ _) as [[] message]; [reflexivity |].
    destruct (pooling_event _ _ _ _); [reflexivity |]. apply IH.
  - assert (Hex : existsb (fun pool => Models.id pool =? id) sp = false).
    { apply not_true_is_false. intros Hex.
      apply existsb_exists in Hex as (pool & Hin & Hid).
      pose proof (List.find_none _ _ Hfind pool Hin) as Hne. cbn beta in Hne.
      congruence. }
    rewrite Hex. apply IH.
Qed.
Lemma delete_each_app sp user_id subscriber_id before rest w :
  delete_each services DELETE_SUCCESS_MESSAGE ERROR_ON_DELETE pooling_event
    sp user_id subscriber_id (before ++ rest) w
  = match delete_each services DELETE_SUCCESS_MESSAGE ERROR_ON_DELETE
            pooling_event sp user_id subscriber_id before w with
    | (reply, w1) =>
        match status_code reply with
        | None =>
            delete_each services DELETE_SUCCESS_MESSAGE ERROR_ON_DELETE
              pooling_event sp user_id subscriber_id rest w1
        | Some _ => (reply, w1)
        end
    end.
Proof.
  revert w. induction before as [| id before IH]; intros w.
  - cbn [app delete_each deleted_reply status_code]. reflexivity.
  - cbn [app delete_each].
    destruct (List.find _ sp) as [pool |]; [| apply IH].
    destruct (check_linked_services _ _ _ _) as [[] message]; [reflexivity |].
    destruct (pooling_event _ _ _ _); [reflexivity |]. apply IH.
Qed.

Lemma found_in_listed subscriber_id ids d :
  List.filter
    (fun id => existsb (fun pool => Models.id pool =? id)
                 (List.filter (listed subscriber_id) (pools d))) ids
  = found_ids subscriber_id ids d.
Proof.
  unfold found_ids. apply List.filter_ext. intros id. apply existsb_filter.
Qed.

Lemma service_pools_delete_eq ids user_id subscriber_id w :
  service_pools_delete services DELETE_SUCCESS_MESSAGE ERROR_ON_DELETE
    pooling_event ids user_id subscriber_id w
  = match found_ids subscriber_id ids (store w) with
    | [] => (nothing_to_delete_reply, w)
    | _ =>
        delete_each services DELETE_SUCCESS_MESSAGE ERROR_ON_DELETE
          pooling_event (List.filter (listed subscriber_id) (pools (store w)))
          user_id subscriber_id ids w
    end.
Proof.
  unfold service_pools_delete.
  remember (List.filter
              (fun pool => existsb (Z.eqb (Models.id pool)) ids
                           && listed subscriber_id pool)
              (pools (store w))) as sp eqn:Hsp.
  assert (Hfind : forall id, In id ids ->
            List.find (fun pool => Models.id pool =? id) sp
            = List.find (fun pool => Models.id pool =? id)
                (List.filter (listed subscriber_id) (pools (store w)))).
  { intros id Hin. rewrite Hsp, !find_filter. clear Hsp.
    induction (pools (store w)) as [| p l IH]; [reflexivity |].
    cbn [List.find]. rewrite IH.
    destruct (Models.id p =? id) eqn:Hid; [| reflexivity].
    apply Z.eqb_eq in Hid.
    assert (Hex : existsb (Z.eqb (Models.id p)) ids = true).
    { apply existsb_exists. exists id. split; [exact Hin |].
      now apply Z.eqb_eq. }
    now rewrite Hex. }
  assert (Hmem : forall pool, In pool sp <->
            In pool (pools (store w))
            /\ In (Models.id pool) (found_ids subscriber_id ids (store w))
            /\ listed subscriber_id pool = true).
  { intros pool. rewrite Hsp, List.filter_In, andb_true_iff.
    unfold found_ids. rewrite List.filter_In. split.
    - intros (Hpool & Hex & Hlisted).
      apply existsb_exists in Hex as (id & Hin & Hid). apply Z.eqb_eq in Hid.
      subst id. repeat split; auto. apply existsb_exists. exists pool.
      split; [exact Hpool |]. now rewrite Z.eqb_refl, Hlisted.
    - intros (Hpool & (Hin & _) & Hlisted). repeat split; auto.
      apply existsb_exists. exists (Models.id pool). split; [exact Hin |].
      apply Z.eqb_refl. }
  destruct sp as [| p sp'];
    destruct (found_ids subscriber_id ids (store w)) as [| id found'] eqn:Hfound.
  - reflexivity.
  - exfalso.
    assert (Hin : In id (found_ids subscriber_id ids (store w)))
      by (rewrite Hfound; now left).
    apply List.filter_In in Hin as [Hin Hex].
    apply existsb_exists in Hex as (pool & Hpool & Hok).
    apply andb_true_iff in Hok as [Hid Hlisted]. apply Z.eqb_eq in Hid.
    apply (proj2 (Hmem pool)). repeat split; auto.
    rewrite Hid. now left.
  - exfalso. destruct (proj1 (Hmem p)) as (_ & [] & _). now left.
  - now apply delete_each_ext.
Qed.

Lemma delete_each_deleted sp user_id subscriber_id ids :
  (forall p, In p sp -> Models.subscriber_id p = subscriber_id) ->
  forall w w',
    delete_each services DELETE_SUCCESS_MESSAGE ERROR_ON_DELETE pooling_event
      sp user_id subscriber_id ids w
    = (deleted_reply DELETE_SUCCESS_MESSAGE, w') ->
    let found :=
      List.filter (fun id => existsb (fun pool => Models.id pool =? id) sp) ids in
    pools (store w')
    = List.map
        (fun p =>
           if among found (Models.id p)
              && (Models.subscriber_id p =? subscriber_id)
           then soft_deleted user_id p else p)
        (pools (store w))
    /\ pool_date_ranges (store w')
       = List.filter (fun r => negb (range_of_pools found subscriber_id r))
           (pool_date_ranges (store w))
    /\ next_pool_id (store w') = next_pool_id (store w)
    /\ next_pool_date_range_id (store w') = next_pool_date_range_id (store w)
    /\ published w' = published w ++ found
    /\ exists new,
         pool_date_range_history (store w')
         = pool_date_range_history (store w) ++ new
         /\ List.map Models.h_id new
            = List.map (fun i => next_history_id (store w) + Z.of_nat i)
                (seq 0 (length new))
         /\ next_history_id (store w')
            = next_history_id (store w) + Z.of_nat (length new)
         /\ Permutation (List.map history_record new)
              (List.map
                 (fun r => deletion_record (Models.pool_id r) user_id
                             subscriber_id r)
                 (List.filter (range_of_pools found subscriber_id)
                    (pool_date_ranges (store w)))).
Proof.
  intros Hsub. induction ids as [| id rest IH]; intros w w' Hrun; cbn zeta.
  - cbn [delete_each] in Hrun. injection Hrun as <-.
    cbn [List.filter]. rewrite app_nil_r.
    split.
    { rewrite <- (List.map_id (pools (store w))) at 1.
      apply List.map_ext. intros p. reflexivity. }
    split.
    { induction (pool_date_ranges (store w)) as [| r l IHl]; [reflexivity |].
      cbn [List.filter range_of_pools among existsb andb negb]. now f_equal. }
    repeat split; auto. exists []. rewrite app_nil_r. cbn.
    rewrite Z.add_0_r. repeat split; auto.
    induction (pool_date_ranges (store w)) as [| r l IHl]; [constructor |].
    exact IHl.
  - cbn [delete_each List.filter] in Hrun |- *.
    rewrite existsb_find.
    destruct (List.find (fun pool => Models.id pool =? id) sp)
      as [pool |] eqn:Hfind.
    2: { exact (IH w w' Hrun). }
    apply List.find_some in Hfind as [Hin Hid]. apply Z.eqb_eq in Hid.
    pose proof (Hsub pool Hin) as Hps.
    destruct (check_linked_services _ _ _ _) as [[] message].
    { apply (f_equal (fun r => status_code (fst r))) in Hrun.
      discriminate Hrun. }
    destruct (pooling_event _ _ _ _) as [e |].
    { apply (f_equal (fun r => status_code (fst r))) in Hrun.
      discriminate Hrun. }
    specialize (IH _ _ Hrun). cbn zeta in IH.
    set (found := List.filter _ rest) in *.
    destruct IH as (Hp & Hr & Hn & Hc & Hpub & new & Hnew & Hids & Hnext & Hperm).
    cbn [store published] in Hp, Hr, Hn, Hc, Hpub, Hnew, Hids, Hnext, Hperm.
    pose proof (delete_capacities_rows (mark_deleted (store w) pool user_id) id
                  user_id subscriber_id) as Hdel.
    cbn zeta in Hdel.
    destruct Hdel as (Hp1 & Hr1 & Hn1 & Hc1 & Hh1 & new1 & Hnew1 & Hids1 & Hrec1).
    cbn [mark_deleted pools pool_date_ranges next_pool_id
         next_pool_date_range_id next_history_id pool_date_range_history]
      in Hp1, Hr1, Hn1, Hc1, Hh1, Hnew1, Hids1, Hrec1.
    set (gone := List.filter (capacity_of id subscriber_id)
                   (pool_date_ranges (store w))) in *.
    assert (Hlen1 : length new1 = length gone).
    { apply (f_equal (@length _)) in Hids1.
      now rewrite !length_map, length_seq in Hids1. }
    split.
    { rewrite Hp, Hp1, List.map_map. apply List.map_ext. intros p.
      unfold among. cbn [existsb]. rewrite Hid, Hps.
      destruct (Models.id p =? id) eqn:H1;
        destruct (Models.subscriber_id p =? subscriber_id) eqn:H2;
        cbn [andb orb soft_deleted Models.id Models.subscriber_id];
        rewrite ?H1, ?H2; cbn [andb orb];
        try reflexivity;
        destruct (existsb (Z.eqb (Models.id p)) found); reflexivity. }
    split.
    { rewrite Hr, Hr1, filter_negb_filter_negb. apply List.filter_ext.
      intros r. now rewrite range_of_pools_cons. }
    split; [now rewrite Hn, Hn1 |]. split; [now rewrite Hc, Hc1 |].
    split; [now rewrite Hpub, <- app_assoc |].
    exists (new1 ++ new). split; [now rewrite Hnew, Hnew1, <- app_assoc |].
    split.
    { rewrite List.map_app, Hids, Hids1, Hh1, length_app, Hlen1.
      apply seq_ids_app. }
    split; [rewrite Hnext, Hh1, length_app, Hlen1; lia |].
    rewrite List.map_app, Hrec1.
    rewrite Hperm, Hr1.
    rewrite (Permutation_map _ (order_by_id_perm gone)).
    rewrite <- List.map_app. apply Permutation_map.
    rewrite (List.filter_ext _ _ (range_of_pools_cons id found subscriber_id)).
    symmetry. apply filter_or_perm.
Qed.
Lemma delete_each_status sp user_id subscriber_id ids w :
  let reply := fst (delete_each services DELETE_SUCCESS_MESSAGE ERROR_ON_DELETE
                      pooling_event sp user_id subscriber_id ids w) in
  reply = deleted_reply DELETE_SUCCESS_MESSAGE
  \/ status_code reply = Some 400 \/ status_code reply = Some 500.
Proof.
  cbn zeta. revert w. induction ids as [| id rest IH]; intros w.
  - now left.
  - cbn [delete_each]. destruct (List.find _ sp) as [pool |]; [| apply IH].
    destruct (check_linked_services _ _ _ _) as [[] message].
    + right. now left.
    + destruct (pooling_event _ _ _ _); [| apply IH]. right. now right.
Qed.

Lemma delete_each_of_unknown sp user_id subscriber_id ids w :
  List.filter (fun id => existsb (fun pool => Models.id pool =? id) sp) ids = [] ->
  delete_each services DELETE_SUCCESS_MESSAGE ERROR_ON_DELETE pooling_event
    sp user_id subscriber_id ids w
  = (deleted_reply DELETE_SUCCESS_MESSAGE, w).
Proof.
  intros Hnone. rewrite <- delete_each_skips, Hnone. reflexivity.
Qed.

(** A request that extends an accepted one runs as the accepted one did, then
    goes on from the registry it left. *)
Lemma service_pools_delete_prefix before id rest user_id subscriber_id
    w reply1 w1 pool :
  service_pools_delete services DELETE_SUCCESS_MESSAGE ERROR_ON_DELETE
    pooling_event before user_id subscriber_id w = (reply1, w1) ->
  reply1 = deleted_reply DELETE_SUCCESS_MESSAGE
  \/ reply1 = nothing_to_delete_reply ->
  List.find (fun p => (Models.id p =? id) && listed subscriber_id p)
    (pools (store w)) = Some pool ->
  service_pools_delete services DELETE_SUCCESS_MESSAGE ERROR_ON_DELETE
    pooling_event (before ++ id :: rest) user_id subscriber_id w
  = delete_each services DELETE_SUCCESS_MESSAGE ERROR_ON_DELETE pooling_event
      (List.filter (listed subscriber_id) (pools (store w)))
      user_id subscriber_id (id :: rest) w1.
Proof.
  intros Hrun Hok Hfind.
  rewrite service_pools_delete_eq in Hrun |- *.
  assert (Hfound : In id (found_ids subscriber_id (before ++ id :: rest) (store w))).
  { apply List.filter_In. split; [apply in_elt |].
    rewrite existsb_find, Hfind. reflexivity. }
  destruct (found_ids subscriber_id (before ++ id :: rest) (store w)) as [| x l];
    [destruct Hfound |].
  rewrite delete_each_app.
  destruct (found_ids subscriber_id before (store w)) as [| y l'] eqn:Hbefore.
  - injection Hrun as <- <-. rewrite <- found_in_listed in Hbefore.
    rewrite (delete_each_of_unknown _ _ _ _ _ Hbefore). reflexivity.
  - rewrite Hrun. destruct Hok as [-> | ->]; [reflexivity |].
    pose proof (delete_each_status
                  (List.filter (listed subscriber_id) (pools (store w)))
                  user_id subscriber_id before w) as Hstatus.
    cbn zeta in Hstatus. rewrite Hrun in Hstatus. cbn [fst] in Hstatus.
    destruct Hstatus as [Heq | [Heq | Heq]].
    + apply (f_equal status_code) in Heq. discriminate Heq.
    + discriminate Heq.
    + discriminate Heq.
Qed.

Lemma found_ids_idempotent subscriber_id ids d :
  found_ids subscriber_id (found_ids subscriber_id ids d) d
  = found_ids subscriber_id ids d.
Proof.
  unfold found_ids. induction ids as [| id rest IH]; [reflexivity |].
  cbn [List.filter].
  destruct (existsb _ (pools d)) eqn:Hex; [| exact IH].
  cbn [List.filter]. rewrite Hex. now f_equal.
Qed.
End DeletionFacts.

(** A successful deletion, row by row.  The pools it reaches are the listed
    pools of the subscriber among the requested identifiers: their rows get
    [deleted = 1] and the user as updater, every other row of the table is
    left as it was.  The ranges of those pools are removed for the
    subscriber whatever their status, and only those; each removed row leaves
    one [DELETE] entry in the history, with consecutive identifiers.  One
    event is published for each requested identifier that selects a pool, a
    repeated identifier included. *)
Theorem deletion_marks_the_pools_and_drops_their_ranges
    (services : list Admin.Service)
    (DELETE_SUCCESS_MESSAGE ERROR_ON_DELETE : string)
    (pooling_event : Registry -> Z -> Z -> Z -> option string)
    (ids : list Z) (user_id subscriber_id : Z) (w w' : Registry) :
  delete_service_pool services DELETE_SUCCESS_MESSAGE ERROR_ON_DELETE
    pooling_event ids (Some (user_id, subscriber_id)) w
  = (deleted_reply DELETE_SUCCESS_MESSAGE, w') ->
  let found := found_ids subscriber_id ids (store w) in
  found <> []
  /\ pools (store w')
     = List.map
         (fun p =>
            if among found (Models.id p)
               && (Models.subscriber_id p =? subscriber_id)
            then soft_deleted user_id p else p)
         (pools (store w))
  /\ pool_date_ranges (store w')
     = List.filter (fun r => negb (range_of_pools found subscriber_id r))
         (pool_date_ranges (store w))
  /\ published w' = published w ++ found
  /\ exists new,
       pool_date_range_history (store w')
       = pool_date_range_history (store w) ++ new
       /\ List.map Models.h_id new
          = List.map (fun i => next_history_id (store w) + Z.of_nat i)
              (seq 0 (length new))
       /\ Permutation (List.map history_record new)
            (List.map
               (fun r => deletion_record (Models.pool_id r) user_id
                           subscriber_id r)
               (List.filter (range_of_pools found subscriber_id)
                  (pool_date_ranges (store w)))).
Proof.
  cbn [delete_service_pool]. intros Hrun. cbn zeta.
  rewrite service_pools_delete_eq in Hrun.
  destruct (found_ids subscriber_id ids (store w)) as [| id found'] eqn:Hfound.
  { apply (f_equal (fun r => status_code (fst r))) in Hrun. discriminate Hrun. }
  rewrite <- Hfound in *. split.
  { rewrite Hfound. discriminate. }
  assert (Hsub : forall p,
            In p (List.filter (listed subscriber_id) (pools (store w))) ->
            Models.subscriber_id p = subscriber_id).
  { intros p Hp. apply List.filter_In in Hp as [_ Hp]. unfold listed in Hp.
    apply andb_true_iff in Hp as [Hp _]. apply andb_true_iff in Hp as [Hp _].
    now apply Z.eqb_eq. }
  pose proof (delete_each_deleted services DELETE_SUCCESS_MESSAGE
                ERROR_ON_DELETE pooling_event _ user_id subscriber_id ids Hsub
                w w' Hrun) as Hpost.
  cbn zeta in Hpost. rewrite found_in_listed in Hpost.
  destruct Hpost as (Hp & Hr & _ & _ & Hpub & new & Hnew & Hids & _ & Hperm).
  split; [exact Hp |]. split; [exact Hr |]. split; [exact Hpub |].
  exists new. auto.
Qed.

Lemma deletion_marks_the_pools_and_drops_their_ranges_witness :
  let w' := snd (delete_service_pool sample_services "Deleted" "Error"
                   quiet_events [7; 99; 9; 7] (Some (5, 3)) sample_registry) in
  List.map Models.deleted (pools (store w')) = [1; 0; 0]
  /\ List.map Models.pdr_id (pool_date_ranges (store w')) = [3]
  /\ published w' = [7; 7].
Proof.
  cbn zeta.
  destruct (deletion_marks_the_pools_and_drops_their_ranges sample_services
              "Deleted" "Error" quiet_events [7; 99; 9; 7] 5 3 sample_registry
              (snd (delete_service_pool sample_services "Deleted" "Error"
                      quiet_events [7; 99; 9; 7] (Some (5, 3)) sample_registry)))
    as (_ & Hp & Hr & Hpub & _).
  - vm_compute. reflexivity.
  - rewrite Hp, Hr, Hpub. vm_compute. repeat split; reflexivity.
Defined.

(** Identifiers that select no listed pool of the subscriber (unknown,
    already deleted, or of another subscriber) are skipped without a trace:
    the request is answered, and changes the registry, as the request for
    the other identifiers alone. *)
Theorem deletion_skips_what_it_does_not_find
    (services : list Admin.Service)
    (DELETE_SUCCESS_MESSAGE ERROR_ON_DELETE : string)
    (pooling_event : Registry -> Z -> Z -> Z -> option string)
    (ids : list Z) (user_id subscriber_id : Z) (w : Registry) :
  service_pools_delete services DELETE_SUCCESS_MESSAGE ERROR_ON_DELETE
    pooling_event ids user_id subscriber_id w
  = service_pools_delete services DELETE_SUCCESS_MESSAGE ERROR_ON_DELETE
      pooling_event (found_ids subscriber_id ids (store w)) user_id
      subscriber_id w.
Proof.
  rewrite !service_pools_delete_eq, found_ids_idempotent.
  destruct (found_ids subscriber_id ids (store w)) as [| id found'] eqn:Hfound;
    [reflexivity |].
  rewrite <- Hfound, <- found_in_listed. symmetry. apply delete_each_skips.
Qed.

(** The deletion is not atomic.  When a request that went through is
    extended by a pool that a service uses, the answer is
    [SERVICE_POOL_IN_USE] with status 400, and the registry is the one the
    shorter request leaves: the pools in front of the one in use stay
    deleted, with their ranges removed and their events published. *)
Theorem deletion_stops_at_a_pool_in_use
    (services : list Admin.Service)
    (DELETE_SUCCESS_MESSAGE ERROR_ON_DELETE : string)
    (pooling_event : Registry -> Z -> Z -> Z -> option string)
    (before after : list Z) (id user_id subscriber_id : Z)
    (w w1 : Registry) (reply1 : Reply) (pool : Models.Pool)
    (message : option string) :
  service_pools_delete services DELETE_SUCCESS_MESSAGE ERROR_ON_DELETE
    pooling_event before user_id subscriber_id w = (reply1, w1) ->
  reply1 = deleted_reply DELETE_SUCCESS_MESSAGE
  \/ reply1 = nothing_to_delete_reply ->
  List.find (fun p => (Models.id p =? id) && listed subscriber_id p)
    (pools (store w)) = Some pool ->
  check_linked_services services id subscriber_id (Models.name pool)
  = (true, message) ->
  service_pools_delete services DELETE_SUCCESS_MESSAGE ERROR_ON_DELETE
    pooling_event (before ++ id :: after) user_id subscriber_id w
  = (in_use_reply message, w1).
Proof.
  intros Hrun Hok Hfind Hlinked.
  rewrite (service_pools_delete_prefix services DELETE_SUCCESS_MESSAGE
             ERROR_ON_DELETE pooling_event before id after user_id
             subscriber_id w reply1 w1 pool Hrun Hok Hfind).
  cbn [delete_each]. rewrite find_filter, Hfind, Hlinked. reflexivity.
Qed.

Lemma deletion_stops_at_a_pool_in_use_witness :
  exists message w1,
    service_pools_delete sample_services "Deleted" "Error" quiet_events
      [7; 8] 5 3 sample_registry
    = (in_use_reply message, w1)
    /\ List.map Models.deleted (pools (store w1)) = [1; 0; 0]
    /\ List.map Models.pdr_id (pool_date_ranges (store w1)) = [3].
Proof.
  eexists. eexists. split.
  - apply (deletion_stops_at_a_pool_in_use sample_services "Deleted" "Error"
             quiet_events [7] [] 8 5 3 sample_registry
             (snd (service_pools_delete sample_services "Deleted" "Error"
                     quiet_events [7] 5 3 sample_registry))
             (deleted_reply "Deleted") (sample_pool 8 3 "Pitch")).
    + vm_compute. reflexivity.
    + now left.
    + vm_compute. reflexivity.
    + vm_compute. reflexivity.
  - vm_compute. split; reflexivity.
Defined.

(** An event that fails does not undo the deletion it announces.  When a
    request that went through is extended by a listed pool that no service
    uses and the event of that pool raises, the answer is [ERROR_ON_DELETE]
    with status 500 and the text of the exception, yet the rows of that pool
    are flagged as deleted and none of its ranges is left; the pools in
    front of it stay deleted as well. *)
Theorem failed_event_leaves_the_pool_deleted
    (services : list Admin.Service)
    (DELETE_SUCCESS_MESSAGE ERROR_ON_DELETE : string)
    (pooling_event : Registry -> Z -> Z -> Z -> option string)
    (before after : list Z) (id user_id subscriber_id : Z)
    (w w1 : Registry) (reply1 : Reply) (pool : Models.Pool)
    (message : option string) (e : string) :
  service_pools_delete services DELETE_SUCCESS_MESSAGE ERROR_ON_DELETE
    pooling_event before user_id subscriber_id w = (reply1, w1) ->
  reply1 = deleted_reply DELETE_SUCCESS_MESSAGE
  \/ reply1 = nothing_to_delete_reply ->
  List.find (fun p => (Models.id p =? id) && listed subscriber_id p)
    (pools (store w)) = Some pool ->
  check_linked_services services id subscriber_id (Models.name pool)
  = (false, message) ->
  pooling_event
    {| store := delete_capacities (mark_deleted (store w1) pool user_id) id
                  user_id subscriber_id;
       published := published w1 |} id user_id subscriber_id = Some e ->
  exists w2,
    service_pools_delete services DELETE_SUCCESS_MESSAGE ERROR_ON_DELETE
      pooling_event (before ++ id :: after) user_id subscriber_id w
    = (error_on_delete_reply ERROR_ON_DELETE e, w2)
    /\ published w2 = published w1
    /\ List.map Models.id (pools (store w2)) = List.map Models.id (pools (store w1))
    /\ (forall p, In p (pools (store w2)) ->
          Models.id p = id -> Models.subscriber_id p = subscriber_id ->
          Models.deleted p = 1 /\ Models.updated_by_id p = Some user_id)
    /\ (forall p, In p (pools (store w1)) ->
          Models.id p <> id \/ Models.subscriber_id p <> subscriber_id ->
          In p (pools (store w2)))
    /\ pool_date_ranges (store w2)
       = List.filter (fun r => negb (capacity_of id subscriber_id r))
           (pool_date_ranges (store w1)).
Proof.
  intros Hrun Hok Hfind Hlinked Hevent.
  eexists. split.
  { rewrite (service_pools_delete_prefix services DELETE_SUCCESS_MESSAGE
               ERROR_ON_DELETE pooling_event before id after user_id
               subscriber_id w reply1 w1 pool Hrun Hok Hfind).
    cbn [delete_each]. rewrite find_filter, Hfind, Hlinked.
    cbn [store published]. rewrite Hevent. reflexivity. }
  cbn [store published].
  pose proof (delete_capacities_rows (mark_deleted (store w1) pool user_id) id
                user_id subscriber_id) as Hdel.
  cbn zeta in Hdel. destruct Hdel as (Hp & Hr & _).
  apply List.find_some in Hfind as [_ Hpool].
  apply andb_true_iff in Hpool as [Hid Hlisted]. apply Z.eqb_eq in Hid.
  assert (Hsub : Models.subscriber_id pool = subscriber_id).
  { unfold listed in Hlisted. apply andb_true_iff in Hlisted as [Hl _].
    apply andb_true_iff in Hl as [Hl _]. now apply Z.eqb_eq. }
  rewrite Hp, Hr. cbn [mark_deleted pools pool_date_ranges].
  rewrite Hid, Hsub. split; [reflexivity |]. split.
  { rewrite List.map_map. apply List.map_ext. intros p.
    now destruct (_ && _). }
  split.
  { intros p Hin Hpid Hps. apply List.in_map_iff in Hin as (p0 & <- & _).
    destruct ((Models.id p0 =? id) && (Models.subscriber_id p0 =? subscriber_id))
      eqn:Hkey.
    - split; reflexivity.
    - rewrite Hpid, Hps, !Z.eqb_refl in Hkey. discriminate Hkey. }
  split; [| reflexivity].
  intros p Hin Hother. apply List.in_map_iff. exists p. split; [| exact Hin].
  destruct Hother as [Hne | Hne]; apply Z.eqb_neq in Hne; rewrite Hne;
    [reflexivity | now rewrite andb_false_r].
Qed.

Lemma failed_event_leaves_the_pool_deleted_witness :
  exists w2,
    service_pools_delete sample_services "Deleted" "Error" broken_events
      [99; 7] 5 3 sample_registry
    = (error_on_delete_reply "Error" "broker unreachable", w2)
    /\ List.map Models.deleted (pools (store w2)) = [1; 0; 0].
Proof.
  destruct (failed_event_leaves_the_pool_deleted sample_services "Deleted"
              "Error" broken_events [99] [] 7 5 3 sample_registry
              sample_registry nothing_to_delete_reply (sample_pool 7 3 "Hall")
              None "broker unreachable")
    as (w2 & Hrun & _).
  - vm_compute. reflexivity.
  - now right.
  - vm_compute. reflexivity.
  - vm_compute. reflexivity.
  - reflexivity.
  - exists w2. split; [exact Hrun |].
    vm_compute in Hrun. injection Hrun as <-. vm_compute. reflexivity.
Defined.

(** After a deletion that succeeded, a request for any of the same
    identifiers, by any user of the subscriber, finds nothing: it is
    answered with [NO_SERVICE_POOLS_TO_DELETE] and status 404, and it leaves
    the registry as it is. *)
Theorem repeated_deletion_finds_nothing
    (services : list Admin.Service)
    (DELETE_SUCCESS_MESSAGE ERROR_ON_DELETE : string)
    (pooling_event : Registry -> Z -> Z -> Z -> option string)
    (ids again : list Z) (user_id other_user subscriber_id : Z)
    (w w' : Registry) :
  delete_service_pool services DELETE_SUCCESS_MESSAGE ERROR_ON_DELETE
    pooling_event ids (Some (user_id, subscriber_id)) w
  = (deleted_reply DELETE_SUCCESS_MESSAGE, w') ->
  incl again ids ->
  delete_service_pool services DELETE_SUCCESS_MESSAGE ERROR_ON_DELETE
    pooling_event again (Some (other_user, subscriber_id)) w'
  = (nothing_to_delete_reply, w').
Proof.
  cbn [delete_service_pool]. intros Hrun Hincl.
  rewrite service_pools_delete_eq in Hrun |- *.
  destruct (found_ids subscriber_id ids (store w)) as [| id found'] eqn:Hfound.
  { apply (f_equal (fun r => status_code (fst r))) in Hrun. discriminate Hrun. }
  clear Hfound.
  assert (Hsub : forall p,
            In p (List.filter (listed subscriber_id) (pools (store w))) ->
            Models.subscriber_id p = subscriber_id).
  { intros p Hp. apply List.filter_In in Hp as [_ Hp]. unfold listed in Hp.
    apply andb_true_iff in Hp as [Hp _]. apply andb_true_iff in Hp as [Hp _].
    now apply Z.eqb_eq. }
  pose proof (delete_each_deleted services DELETE_SUCCESS_MESSAGE
                ERROR_ON_DELETE pooling_event _ user_id subscriber_id ids Hsub
                w w' Hrun) as Hpost.
  cbn zeta in Hpost. rewrite found_in_listed in Hpost.
  destruct Hpost as (Hp & _).
  replace (found_ids subscriber_id again (store w')) with (@nil Z);
    [reflexivity |].
  symmetry. unfold found_ids at 1. rewrite Hp.
  induction again as [| a rest IH]; [reflexivity |].
  cbn [List.filter].
  replace (existsb _ (List.map _ (pools (store w)))) with false.
  { apply IH. intros x Hx. apply Hincl. now right. }
  symmetry. apply not_true_is_false. intros Hex.
  apply existsb_exists in Hex as (p' & Hin & Hok).
  apply List.in_map_iff in Hin as (p & <- & Hin).
  apply andb_true_iff in Hok as [Hid Hlisted].
  destruct (among (found_ids subscriber_id ids (store w)) (Models.id p)
            && (Models.subscriber_id p =? subscriber_id)) eqn:Hkey.
  - unfold listed, soft_deleted in Hlisted. cbn in Hlisted.
    rewrite andb_false_r in Hlisted. discriminate Hlisted.
  - apply Z.eqb_eq in Hid.
    assert (Hs : (Models.subscriber_id p =? subscriber_id) = true).
    { unfold listed in Hlisted. apply andb_true_iff in Hlisted as [Hl _].
      now apply andb_true_iff in Hl as [Hl _]. }
    rewrite Hs, andb_true_r in Hkey.
    assert (Hf : In (Models.id p) (found_ids subscriber_id ids (store w))).
    { apply List.filter_In. split.
      - rewrite Hid. apply Hincl. now left.
      - apply existsb_exists. exists p. split; [exact Hin |].
        now rewrite Z.eqb_refl, Hlisted. }
    assert (Ha : among (found_ids subscriber_id ids (store w)) (Models.id p) = true).
    { apply existsb_exists. exists (Models.id p). split; [exact Hf |].
      apply Z.eqb_refl. }
    rewrite Ha in Hkey. discriminate Hkey.
Qed.

Lemma repeated_deletion_finds_nothing_witness :
  let w' := snd (delete_service_pool sample_services "Deleted" "Error"
                   quiet_events [7; 99] (Some (5, 3)) sample_registry) in
  delete_service_pool sample_services "Deleted" "Error" quiet_events [7]
    (Some (6, 3)) w'
  = (nothing_to_delete_reply, w').
Proof.
  cbn zeta.
  apply (repeated_deletion_finds_nothing sample_services "Deleted" "Error"
           quiet_events [7; 99] [7] 5 6 3 sample_registry).
  - vm_compute. reflexivity.
  - intros x [<- | []]. now left.
Defined.

(** ** The message for a pool in use *)

Lemma append_cons (c : ascii) (u s : string) :
  String c u +:+ s = String c (u +:+ s).
Proof. reflexivity. Qed.

Lemma append_assoc (a b c : string) : (a +:+ b) +:+ c = a +:+ b +:+ c.
Proof.
  induction a as [| x a IH]; [reflexivity |].
  change (String x ((a +:+ b) +:+ c) = String x (a +:+ b +:+ c)).
  now f_equal.
Qed.

Lemma plain_append a b : plain (a +:+ b) = plain a && plain b.
Proof.
  induction a as [| x a IH]; [reflexivity |].
  change (negb (Ascii.eqb x "<") && plain (a +:+ b)
          = negb (Ascii.eqb x "<") && plain a && plain b).
  now rewrite IH, andb_assoc.
Qed.

Lemma plain_concat (names : list string) :
  Forall (fun n => plain n = true) names -> plain (String.concat ", " names) = true.
Proof.
  induction 1 as [| n rest Hn Hrest IH]; [reflexivity |].
  destruct rest as [| m rest]; [exact Hn |].
  change (String.concat ", " (n :: m :: rest))
    with (n +:+ ", " +:+ String.concat ", " (m :: rest)).
  now rewrite !plain_append, Hn, IH.
Qed.

Lemma prefix_append u s : String.prefix u (u +:+ s) = true.
Proof.
  induction u as [| c u IH]; [now destruct s |].
  rewrite append_cons. cbn [String.prefix].
  destruct (ascii_dec c c); [exact IH | contradiction].
Qed.

Lemma replace_from_skip old new u s :
  replace_from old new (String.length u) (u +:+ s) = replace_from old new 0 s.
Proof.
  induction u as [| c u IH]; [reflexivity |].
  rewrite append_cons. exact IH.
Qed.

Lemma replace_plain_prefix old new a s :
  plain a = true ->
  replace_from (String "<" old) new 0 (a +:+ s)
  = a +:+ replace_from (String "<" old) new 0 s.
Proof.
  induction a as [| c a IH]; [reflexivity |].
  cbn [plain]. intros Hplain. apply andb_true_iff in Hplain as [Hc Ha].
  rewrite !append_cons. cbn [replace_from String.prefix].
  destruct (ascii_dec "<" c) as [<- | _]; [discriminate Hc |].
  now rewrite IH.
Qed.

Lemma replace_at_marker old new s :
  replace_from (String "<" old) new 0 (String "<" old +:+ s)
  = new +:+ replace_from (String "<" old) new 0 s.
Proof.
  pose proof (prefix_append (String "<" old) s) as Hprefix.
  rewrite append_cons in Hprefix |- *. cbn [replace_from].
  rewrite Hprefix. cbn [String.length]. rewrite Nat.sub_succ, Nat.sub_0_r.
  now rewrite replace_from_skip.
Qed.

(** The three replacements on texts without a placeholder of their own. *)
Lemma fill_template pool_name services_list the :
  plain pool_name = true ->
  plain services_list = true ->
  replace
    (replace
       (replace PoolingParams.UNABLE_TO_DELETE_POOL "<pool-name>" pool_name)
       "<services-list>" services_list)
    "<the>" the
  = "The " +:+ pool_name +:+ " pool is used for " +:+ services_list
    +:+ ". You must remove it from " +:+ the
    +:+ " service before deleting this pool.".
Proof.
  intros Hpool Hlist. unfold replace.
  assert (E1 : replace_from "<pool-name>" pool_name 0
                 PoolingParams.UNABLE_TO_DELETE_POOL
               = "The " +:+ pool_name
                 +:+ " pool is used for <services-list>. You must remove it from <the> service before deleting this pool.").
  { change PoolingParams.UNABLE_TO_DELETE_POOL
      with ("The " +:+ "<pool-name>"
            +:+ " pool is used for <services-list>. You must remove it from <the> service before deleting this pool.").
    rewrite replace_plain_prefix by reflexivity. rewrite replace_at_marker.
    reflexivity. }
  assert (E2 : replace_from "<services-list>" services_list 0
                 ("The " +:+ pool_name
                  +:+ " pool is used for <services-list>. You must remove it from <the> service before deleting this pool.")
               = "The " +:+ pool_name +:+ " pool is used for "
                 +:+ services_list
                 +:+ ". You must remove it from <the> service before deleting this pool.").
  { change " pool is used for <services-list>. You must remove it from <the> service before deleting this pool."
      with (" pool is used for " +:+ "<services-list>"
            +:+ ". You must remove it from <the> service before deleting this pool.").
    rewrite replace_plain_prefix by reflexivity.
    rewrite replace_plain_prefix by exact Hpool.
    rewrite replace_plain_prefix by reflexivity. rewrite replace_at_marker.
    reflexivity. }
  assert (E3 : replace_from "<the>" the 0
                 ("The " +:+ pool_name +:+ " pool is used for "
                  +:+ services_list
                  +:+ ". You must remove it from <the> service before deleting this pool.")
               = "The " +:+ pool_name +:+ " pool is used for "
                 +:+ services_list +:+ ". You must remove it from " +:+ the
                 +:+ " service before deleting this pool.").
  { change ". You must remove it from <the> service before deleting this pool."
      with (". You must remove it from " +:+ "<the>"
            +:+ " service before deleting this pool.").
    rewrite replace_plain_prefix by reflexivity.
    rewrite replace_plain_prefix by exact Hpool.
    rewrite replace_plain_prefix by reflexivity.
    rewrite replace_plain_prefix by exact Hlist.
    rewrite replace_plain_prefix by reflexivity. rewrite replace_at_marker.
    reflexivity. }
  now rewrite E1, E2, E3.
Qed.

(** The message of [check_linked_services].  No service in use: no
    message.  Otherwise, when neither the name of the pool nor the name of a
    service in use holds the character that opens a placeholder, the message
    is the template with the name of the pool, the names of the services
    (one name, or the names separated by commas with [and] before the last
    one) and [that] or [each] in place of the three placeholders. *)
Theorem pool_in_use_message (services : list Admin.Service)
    (pool_id subscriber_id : Z) (pool_name : string) :
  plain pool_name = true ->
  Forall (fun service => linked pool_id subscriber_id service = true ->
                         plain (Admin.name service) = true) services ->
  check_linked_services services pool_id subscriber_id pool_name
  = match List.map Admin.name
            (List.filter (linked pool_id subscriber_id) services) with
    | [] => (false, None)
    | [one] =>
        (true,
         Some ("The " +:+ pool_name +:+ " pool is used for " +:+ one
               +:+ " service. You must remove it from that service before deleting this pool."))
    | names =>
        (true,
         Some ("The " +:+ pool_name +:+ " pool is used for "
               +:+ String.concat ", " (List.removelast names) +:+ " and "
               +:+ List.last names ""
               +:+ " services. You must remove it from each service before deleting this pool."))
    end.
Proof.
  intros Hpool Hservices. unfold check_linked_services.
  assert (Hnames : Forall (fun n => plain n = true)
                     (List.map Admin.name
                        (List.filter (linked pool_id subscriber_id) services))).
  { apply List.Forall_forall. intros n Hn.
    apply List.in_map_iff in Hn as (s & <- & Hs).
    apply List.filter_In in Hs as [Hin Hlinked].
    rewrite List.Forall_forall in Hservices. now apply Hservices. }
  destruct (List.filter (linked pool_id subscriber_id) services)
    as [| s1 [| s2 rest]]; [reflexivity | |].
  - cbn [List.map length Z.of_nat Pos.of_succ_nat Z.eqb Pos.eqb List.hd] in *.
    apply List.Forall_inv in Hnames.
    rewrite fill_template; [| exact Hpool | now rewrite plain_append, Hnames].
    rewrite !append_assoc. reflexivity.
  - set (names := List.map Admin.name (s1 :: s2 :: rest)) in *.
    replace (Z.of_nat (length names) =? 1) with false
      by (symmetry; apply Z.eqb_neq; unfold names; cbn [List.map length]; lia).
    assert (Hlast : plain (List.last names "") = true).
    { assert (Hin : In (List.last names "") names).
      { unfold names. cbn [List.map].
        generalize (Admin.name s1) (Admin.name s2 :: List.map Admin.name rest).
        intros a l. revert a. induction l as [| b l IH]; intros a.
        - now left.
        - right. apply (IH b). }
      rewrite List.Forall_forall in Hnames. now apply Hnames. }
    assert (Hfront : plain (String.concat ", " (List.removelast names)) = true).
    { apply plain_concat, List.Forall_forall. intros n Hn.
      rewrite List.Forall_forall in Hnames. apply Hnames.
      assert (Hne : names <> []) by (unfold names; discriminate).
      rewrite (app_removelast_last "" Hne). apply in_or_app. now left. }
    rewrite fill_template;
      [| exact Hpool | now rewrite !plain_append, Hfront, Hlast].
    unfold names. cbn [List.map]. rewrite !append_assoc. reflexivity.
Qed.

Lemma pool_in_use_message_witness :
  check_linked_services sample_services 8 3 "Pitch"
  = (true,
     Some "The Pitch pool is used for Football service. You must remove it from that service before deleting this pool.").
Proof.
  rewrite (pool_in_use_message sample_services 8 3 "Pitch").
  - reflexivity.
  - reflexivity.
  - repeat constructor.
Defined.

(** ** Listing pools *)

Section OrderBy.
Context {A : Type}.
Variable le : A -> A -> bool.

Lemma insert_sorted_perm x l : Permutation (insert_sorted le x l) (x :: l).
Proof.
  induction l as [| y l IH]; [reflexivity |].
  cbn [insert_sorted]. destruct (le x y); [reflexivity |].
  rewrite IH. apply perm_swap.
Qed.

Lemma order_by_permutation l : Permutation (order_by le l) l.
Proof.
  induction l as [| x l IH]; [reflexivity |].
  cbn [order_by List.fold_right]. fold (order_by le l).
  rewrite insert_sorted_perm. now constructor.
Qed.

Lemma insert_sorted_least x l :
  (forall z, In z l -> le x z = true) -> insert_sorted le x l = x :: l.
Proof.
  destruct l as [| y l]; [reflexivity |]. intros Hleast.
  cbn [insert_sorted]. now rewrite (Hleast y) by now left.
Qed.

Hypothesis le_total : forall x y, le x y = true \/ le y x = true.
Hypothesis le_trans : forall x y z, le x y = true -> le y z = true -> le x z = true.

Lemma insert_sorted_sorted x l :
  StronglySorted (fun a b => le a b = true) l ->
  StronglySorted (fun a b => le a b = true) (insert_sorted le x l).
Proof.
  induction 1 as [| y l Hsorted IH Hy]; [repeat constructor |].
  cbn [insert_sorted]. destruct (le x y) eqn:Hxy.
  - constructor; [now constructor |]. constructor; [exact Hxy |].
    eapply List.Forall_impl; [| exact Hy]. intros z Hz. now apply (le_trans x y z).
  - constructor; [exact IH |].
    apply List.Forall_forall. intros z Hz.
    apply (Permutation_in _ (insert_sorted_perm x l)) in Hz as [<- | Hz].
    + destruct (le_total x y) as [H1 | H1]; [congruence | exact H1].
    + rewrite List.Forall_forall in Hy. now apply Hy.
Qed.

Lemma order_by_sorted l :
  StronglySorted (fun a b => le a b = true) (order_by le l).
Proof.
  induction l as [| x l IH]; [constructor |].
  cbn [order_by List.fold_right]. now apply insert_sorted_sorted.
Qed.

Lemma filter_insert_sorted (f : A -> bool) x l :
  StronglySorted (fun a b => le a b = true) l ->
  List.filter f (insert_sorted le x l)
  = if f x then insert_sorted le x (List.filter f l) else List.filter f l.
Proof.
  induction 1 as [| y l Hsorted IH Hy].
  - cbn. now destruct (f x).
  - cbn [insert_sorted]. destruct (le x y) eqn:Hxy.
    + cbn [List.filter]. destruct (f x); [| reflexivity].
      symmetry. apply insert_sorted_least. intros z Hz.
      assert (Hin : In z (y :: l)).
      { destruct (f y); [destruct Hz as [<- | Hz]; [now left |] |];
          right; now apply List.filter_In in Hz as [Hz _]. }
      destruct Hin as [<- | Hin]; [exact Hxy |].
      rewrite List.Forall_forall in Hy. apply (le_trans x y z Hxy). now apply Hy.
    + cbn [List.filter]. rewrite IH.
      destruct (f y), (f x); cbn [insert_sorted]; rewrite ?Hxy; reflexivity.
Qed.

Lemma filter_order_by (f : A -> bool) l :
  List.filter f (order_by le l) = order_by le (List.filter f l).
Proof.
  induction l as [| x l IH]; [reflexivity |].
  cbn [order_by List.fold_right List.filter]. fold (order_by le l).
  rewrite filter_insert_sorted by apply order_by_sorted.
  rewrite IH. now destruct (f x).
Qed.
End OrderBy.

Lemma order_by_ext {A} (le le' : A -> A -> bool) (l : list A) :
  (forall x y, In x l -> In y l -> le x y = le' x y) ->
  order_by le l = order_by le' l.
Proof.
  induction l as [| x l IH]; [reflexivity |]. intros Hsame.
  cbn [order_by List.fold_right]. fold (order_by le l) (order_by le' l).
  rewrite <- IH by (intros; apply Hsame; now right).
  assert (Hins : forall m, (forall y, In y m -> In y l) ->
            insert_sorted le x m = insert_sorted le' x m).
  { induction m as [| y m IHm]; [reflexivity |]. intros Hm.
    cbn [insert_sorted].
    assert (Hxy : le x y = le' x y).
    { apply Hsame; [now left |]. right. apply Hm. now left. }
    rewrite Hxy, IHm; [reflexivity |]. intros z Hz. apply Hm. now right. }
  apply Hins. intros y Hy.
  now apply (Permutation_in _ (order_by_permutation le l)) in Hy.
Qed.

Lemma filter_filter_implied {A} (f g : A -> bool) (l : list A) :
  (forall x, f x = true -> g x = true) ->
  List.filter f (List.filter g l) = List.filter f l.
Proof.
  intros Himp. induction l as [| x l IH]; [reflexivity |].
  cbn [List.filter]. destruct (g x) eqn:Hg; cbn [List.filter].
  - now rewrite IH.
  - destruct (f x) eqn:Hf; [| exact IH].
    apply Himp in Hf. congruence.
Qed.

Lemma strongly_sorted_filter {A} (R : A -> A -> Prop) (f : A -> bool) l :
  StronglySorted R l -> StronglySorted R (List.filter f l).
Proof.
  induction 1 as [| x l Hsorted IH Hx]; [constructor |].
  cbn [List.filter]. destruct (f x); [| exact IH].
  constructor; [exact IH |]. apply List.Forall_forall. intros y Hy.
  apply List.filter_In in Hy as [Hy _]. rewrite List.Forall_forall in Hx.
  now apply Hx.
Qed.

Lemma strongly_sorted_skipn {A} (R : A -> A -> Prop) n l :
  StronglySorted R l -> StronglySorted R (skipn n l).
Proof.
  intros Hsorted. revert n. induction Hsorted as [| x l Hsorted IH Hx]; intros n.
  - rewrite skipn_nil. constructor.
  - destruct n as [| n]; [now constructor | apply IH].
Qed.

Lemma strongly_sorted_firstn {A} (R : A -> A -> Prop) n l :
  StronglySorted R l -> StronglySorted R (firstn n l).
Proof.
  intros Hsorted. revert n. induction Hsorted as [| x l Hsorted IH Hx]; intros n.
  - rewrite firstn_nil. constructor.
  - destruct n as [| n]; [constructor |]. cbn [firstn].
    constructor; [apply IH |]. apply List.Forall_forall. intros y Hy.
    rewrite List.Forall_forall in Hx. apply Hx.
    rewrite <- (firstn_skipn n l). apply in_or_app. now left.
Qed.

Lemma id_desc_total p q : id_desc p q = true \/ id_desc q p = true.
Proof. unfold id_desc. rewrite !Z.leb_le. lia. Qed.

Lemma id_desc_trans p q r :
  id_desc p q = true -> id_desc q r = true -> id_desc p r = true.
Proof. unfold id_desc. rewrite !Z.leb_le. lia. Qed.

Lemma pool_then_start_spec r s :
  pool_then_start r s = true
  <-> Models.pool_id r < Models.pool_id s
      \/ (Models.pool_id r = Models.pool_id s
          /\ Models.start_date r <= Models.start_date s).
Proof.
  unfold pool_then_start.
  now rewrite orb_true_iff, andb_true_iff, Z.ltb_lt, Z.eqb_eq, Z.leb_le.
Qed.

Lemma pool_then_start_total r s :
  pool_then_start r s = true \/ pool_then_start s r = true.
Proof. rewrite !pool_then_start_spec. lia. Qed.

Lemma pool_then_start_trans r s t :
  pool_then_start r s = true -> pool_then_start s t = true ->
  pool_then_start r t = true.
Proof. rewrite !pool_then_start_spec. lia. Qed.

Lemma by_start_total r s : by_start r s = true \/ by_start s r = true.
Proof. unfold by_start. rewrite !Z.leb_le. lia. Qed.

Lemma by_start_trans r s t :
  by_start r s = true -> by_start s t = true -> by_start r t = true.
Proof. unfold by_start. rewrite !Z.leb_le. lia. Qed.

Lemma group_by_pool_lookup date_ranges
    (pool_date_map : gmap Z (list (Z * option Z * Z))) (k : Z) :
  default [] (group_by_pool date_ranges pool_date_map !! k)
  = default [] (pool_date_map !! k)
    ++ List.map row_tuple
         (List.filter (fun r => Models.pool_id r =? k) date_ranges).
Proof.
  revert pool_date_map.
  induction date_ranges as [| r rest IH]; intros m.
  - cbn. now rewrite app_nil_r.
  - cbn [group_by_pool List.filter]. cbv zeta. rewrite IH.
    set (m1 := match m !! Models.pool_id r with
               | None => <[Models.pool_id r := []]> m
               | Some _ => m
               end).
    assert (Hm1 : forall j, default [] (m1 !! j) = default [] (m !! j)).
    { intros j. unfold m1.
      destruct (m !! Models.pool_id r) eqn:Hlook; [reflexivity |].
      destruct (decide (Models.pool_id r = j)) as [<- | Hne].
      - now rewrite lookup_insert_eq, Hlook.
      - now rewrite lookup_insert_ne. }
    destruct (Models.pool_id r =? k) eqn:Hk.
    + apply Z.eqb_eq in Hk. rewrite Hk. rewrite lookup_insert_eq.
      cbn [default from_option id List.map]. rewrite Hm1, <- app_assoc.
      reflexivity.
    + apply Z.eqb_neq in Hk. rewrite lookup_insert_ne by exact Hk.
      now rewrite Hm1.
Qed.

(** The ranges listed under a pool do not depend on the page the pool is on. *)
Lemma ranges_of_a_listed_pool (d : Database) (pool_ids : list Z) (id : Z) :
  In id pool_ids ->
  default []
    (group_by_pool
       (order_by pool_then_start
          (List.filter (fun r => among pool_ids (Models.pool_id r))
             (pool_date_ranges d))) ∅ !! id)
  = List.map row_tuple
      (order_by by_start
         (List.filter (fun r => Models.pool_id r =? id) (pool_date_ranges d))).
Proof.
  intros Hin. rewrite group_by_pool_lookup, lookup_empty. cbn [default from_option app].
  f_equal.
  rewrite (filter_order_by pool_then_start pool_then_start_total
             pool_then_start_trans).
  rewrite filter_filter_implied.
  - apply order_by_ext. intros r s Hr Hs.
    apply List.filter_In in Hr as [_ Hr]. apply List.filter_In in Hs as [_ Hs].
    apply Z.eqb_eq in Hr, Hs. unfold pool_then_start, by_start.
    rewrite Hr, Hs, Z.ltb_irrefl, Z.eqb_refl. reflexivity.
  - intros r Hr. apply Z.eqb_eq in Hr. apply existsb_exists. exists id.
    split; [exact Hin |]. now apply Z.eqb_eq.
Qed.

Section ListingFacts.
Variable out_of_window :
  Z -> Z -> list Models.Pool -> string + list Models.Pool.

(** [pools_list] in closed form. *)
Lemma pools_list_eq d subscriber_id pool_id page_size page :
  pools_list out_of_window d subscriber_id pool_id page_size page
  = match (match page_size with
           | Some size =>
               if size =? 0 then inr (listing_rows d subscriber_id pool_id)
               else window out_of_window ((page - 1) * size) size
                      (listing_rows d subscriber_id pool_id)
           | None => inr (listing_rows d subscriber_id pool_id)
           end) with
    | inl e => ListingError e
    | inr rows => Listed (List.map (pool_dict d) rows)
    end.
Proof.
  unfold pools_list.
  assert (Hrows : match pool_id with
                  | Some id =>
                      if id =? 0
                      then order_by id_desc
                             (List.filter (listed subscriber_id) (pools d))
                      else List.filter (fun pool => Models.id pool =? id)
                             (order_by id_desc
                                (List.filter (listed subscriber_id) (pools d)))
                  | None =>
                      order_by id_desc
                        (List.filter (listed subscriber_id) (pools d))
                  end = listing_rows d subscriber_id pool_id).
  { unfold listing_rows, selected. destruct pool_id as [id |].
    - destruct (id =? 0); cbn [orb].
      + symmetry. apply List.forallb_filter_id. apply forallb_forall. auto.
      + reflexivity.
    - symmetry. apply List.forallb_filter_id. apply forallb_forall. auto. }
  rewrite Hrows.
  match goal with
  | |- match ?paged with _ => _ end = _ => destruct paged as [e | rows]
  end; [reflexivity |].
  destruct rows as [| pool rows]; [reflexivity |].
  f_equal. apply List.map_ext_in. intros p Hp. unfold pool_dict. f_equal.
  apply ranges_of_a_listed_pool. now apply List.in_map.
Qed.
End ListingFacts.

Lemma listing_rows_descending d subscriber_id pool_id :
  StronglySorted (fun p q => Models.id p >= Models.id q)
    (listing_rows d subscriber_id pool_id).
Proof.
  unfold listing_rows. apply strongly_sorted_filter.
  pose proof (order_by_sorted id_desc id_desc_total id_desc_trans
                (List.filter (listed subscriber_id) (pools d))) as Hsorted.
  induction Hsorted as [| p l Hsorted IH Hp]; constructor; [exact IH |].
  eapply List.Forall_impl; [| exact Hp]. intros q Hq. unfold id_desc in Hq.
  apply Z.leb_le in Hq. lia.
Qed.

Lemma listing_rows_permutation d subscriber_id pool_id :
  Permutation (listing_rows d subscriber_id pool_id)
    (List.filter (fun p => listed subscriber_id p && selected pool_id p)
       (pools d)).
Proof.
  unfold listing_rows.
  rewrite (filter_order_by id_desc id_desc_total id_desc_trans).
  rewrite order_by_permutation.
  induction (pools d) as [| p l IH]; [reflexivity |].
  cbn [List.filter]. destruct (listed subscriber_id p); cbn [andb List.filter].
  - destruct (selected pool_id p); [now constructor | exact IH].
  - exact IH.
Qed.

Lemma strongly_sorted_map {A B} (R : B -> B -> Prop) (f : A -> B) l :
  StronglySorted (fun a b => R (f a) (f b)) l -> StronglySorted R (List.map f l).
Proof.
  induction 1 as [| x l Hsorted IH Hx]; [constructor |].
  cbn [List.map]. constructor; [exact IH |].
  apply List.Forall_map. exact Hx.
Qed.

(** An unpaged listing (no page size, or the page size 0) shows the listed
    pools of the subscriber, by descending identifier: all of them when no
    identifier or the identifier 0 is given, else those with the identifier.
    Under each pool come all the range rows that carry its identifier, by
    ascending start date: also the rows flagged as deleted or inactive, and
    the rows of another subscriber. *)
Theorem unpaged_listing_shows_the_listed_pools_with_all_their_ranges
    (out_of_window : Z -> Z -> list Models.Pool -> string + list Models.Pool)
    (d : Database) (subscriber_id : Z) (pool_id page_size : option Z)
    (page : Z) :
  page_size = None \/ page_size = Some 0 ->
  exists result,
    pools_list out_of_window d subscriber_id pool_id page_size page
    = Listed result
    /\ Permutation result
         (List.map (pool_dict d)
            (List.filter
               (fun p => listed subscriber_id p && selected pool_id p)
               (pools d)))
    /\ StronglySorted (fun a b => a >= b) (List.map pd_id result)
    /\ forall entry, In entry result ->
         Permutation (pd_date_ranges entry)
           (List.map row_tuple
              (List.filter (fun r => Models.pool_id r =? pd_id entry)
                 (pool_date_ranges d)))
         /\ StronglySorted (fun a b => a <= b)
              (List.map (fun t => fst (fst t)) (pd_date_ranges entry)).
Proof.
  intros Hsize. exists (List.map (pool_dict d) (listing_rows d subscriber_id pool_id)).
  split.
  { rewrite pools_list_eq. now destruct Hsize as [-> | ->]. }
  split; [apply Permutation_map, listing_rows_permutation |]. split.
  { rewrite List.map_map. cbn [pool_dict pd_id].
    apply strongly_sorted_map, listing_rows_descending. }
  intros entry Hentry. apply List.in_map_iff in Hentry as (pool & <- & _).
  cbn [pool_dict pd_date_ranges pd_id]. split.
  - apply Permutation_map, order_by_permutation.
  - rewrite List.map_map. cbn [row_tuple fst].
    apply strongly_sorted_map.
    pose proof (order_by_sorted by_start by_start_total by_start_trans
                  (List.filter (fun r => Models.pool_id r =? Models.id pool)
                     (pool_date_ranges d))) as Hsorted.
    induction Hsorted as [| r l Hsorted IH Hr]; constructor; [exact IH |].
    eapply List.Forall_impl; [| exact Hr]. intros s Hs. unfold by_start in Hs.
    now apply Z.leb_le in Hs.
Qed.

Lemma unpaged_listing_shows_the_listed_pools_with_all_their_ranges_witness :
  exists result,
    pools_list strict_window (store sample_registry) 3 (Some 0) (Some 0) 1
    = Listed result
    /\ List.map pd_id result = [8; 7]
    /\ List.map (fun entry => length (pd_date_ranges entry)) result
       = [1%nat; 2%nat].
Proof.
  destruct (unpaged_listing_shows_the_listed_pools_with_all_their_ranges
              strict_window (store sample_registry) 3 (Some 0) (Some 0) 1)
    as (result & Hrun & _).
  - now right.
  - exists result. split; [exact Hrun |].
    vm_compute in Hrun. injection Hrun as <-. split; reflexivity.
Defined.

(** The pages of a listing tile it.  For a page from 1 on and a positive
    page size, the page holds the entries of the unpaged listing from
    position [(page - 1) * page_size] on, at most [page_size] of them, each
    with the same ranges as in the unpaged listing; a page behind the last
    entry is empty. *)
Theorem pages_tile_the_listing
    (out_of_window : Z -> Z -> list Models.Pool -> string + list Models.Pool)
    (d : Database) (subscriber_id : Z) (pool_id : option Z) (page size : Z) :
  1 <= page -> 0 < size ->
  exists full,
    pools_list out_of_window d subscriber_id pool_id None page = Listed full
    /\ pools_list out_of_window d subscriber_id pool_id (Some size) page
       = Listed (firstn (Z.to_nat size)
                   (skipn (Z.to_nat ((page - 1) * size)) full))
    /\ (Z.of_nat (length full) <= (page - 1) * size ->
        pools_list out_of_window d subscriber_id pool_id (Some size) page
        = Listed []).
Proof.
  intros Hpage Hsize.
  exists (List.map (pool_dict d) (listing_rows d subscriber_id pool_id)).
  split; [now rewrite pools_list_eq |].
  assert (Hpaged :
            pools_list out_of_window d subscriber_id pool_id (Some size) page
            = Listed (firstn (Z.to_nat size)
                        (skipn (Z.to_nat ((page - 1) * size))
                           (List.map (pool_dict d)
                              (listing_rows d subscriber_id pool_id))))).
  { rewrite pools_list_eq.
    replace (size =? 0) with false by (symmetry; apply Z.eqb_neq; lia).
    unfold window.
    replace ((page - 1) * size <? 0) with false
      by (symmetry; apply Z.ltb_ge; nia).
    replace (size <? 0) with false by (symmetry; apply Z.ltb_ge; lia).
    cbn [orb]. now rewrite skipn_map, firstn_map. }
  split; [exact Hpaged |].
  intros Hbehind. rewrite Hpaged. f_equal.
  rewrite skipn_all2; [now rewrite firstn_nil |]. lia.
Qed.

Lemma pages_tile_the_listing_witness :
  pools_list strict_window (store sample_registry) 3 None (Some 1) 2
  = Listed [pool_dict (store sample_registry) (sample_pool 7 3 "Hall")].
Proof.
  destruct (pages_tile_the_listing strict_window (store sample_registry) 3 None
              2 1) as (full & Hfull & Hpage & _); [lia | lia |].
  rewrite Hpage. vm_compute in Hfull. injection Hfull as <-.
  vm_compute. reflexivity.
Defined.

(** The count that [list_service_pools] reports is the size of the page, not
    the number of pools of the subscriber.  For a page from 0 on (0 counts as
    1) and a positive page size given with the request, the settings are not
    consulted, and the answer is either the dict without records, when the
    page is behind the last pool, or the records of the page with
    [recordsTotal] their number, which is at most the page size. *)
Theorem records_total_counts_the_page
    (out_of_window : Z -> Z -> list Models.Pool -> string + list Models.Pool)
    (get_org_settings_from_cache : Database -> Z -> OrgSettings)
    (d : Database) (subscriber_id page size : Z) (id : option Z) :
  0 <= page -> 0 < size ->
  let first := (Z.max page 1 - 1) * size in
  let rows :=
    firstn (Z.to_nat size)
      (skipn (Z.to_nat first) (listing_rows d subscriber_id id)) in
  list_service_pools out_of_window get_org_settings_from_cache d subscriber_id
    page (Some size) id
  = match rows with
    | [] => NoRecordsFound
    | _ => FoundRecords (List.map (pool_dict d) rows) (Z.of_nat (length rows))
    end
  /\ Z.of_nat (length rows) <= size
  /\ (rows = [] <-> Z.of_nat (length (listing_rows d subscriber_id id)) <= first).
Proof.
  intros Hpage Hsize. cbn zeta. unfold list_service_pools.
  rewrite pools_list_eq.
  replace (size =? 0) with false by (symmetry; apply Z.eqb_neq; lia).
  replace (if page =? 0 then 1 else page) with (Z.max page 1).
  2: { destruct (page =? 0) eqn:H0; [apply Z.eqb_eq in H0 | apply Z.eqb_neq in H0];
       lia. }
  unfold window.
  replace ((Z.max page 1 - 1) * size <? 0) with false
    by (symmetry; apply Z.ltb_ge; nia).
  replace (size <? 0) with false by (symmetry; apply Z.ltb_ge; lia).
  cbn [orb].
  set (rows := firstn (Z.to_nat size)
                 (skipn (Z.to_nat ((Z.max page 1 - 1) * size))
                    (listing_rows d subscriber_id id))).
  split; [| split].
  - destruct rows as [| p rows']; [reflexivity |].
    cbn [List.map length]. now rewrite length_map.
  - unfold rows. rewrite length_firstn. lia.
  - unfold rows. split.
    + intros Hempty. apply (f_equal (@length _)) in Hempty.
      rewrite length_firstn, length_skipn in Hempty. cbn [length] in Hempty. nia.
    + intros Hbehind. rewrite skipn_all2; [now rewrite firstn_nil |]. nia.
Qed.

Lemma records_total_counts_the_page_witness :
  list_service_pools strict_window no_settings (store sample_registry) 3 0
    (Some 1) None
  = FoundRecords [pool_dict (store sample_registry) (sample_pool 8 3 "Pitch")] 1.
Proof.
  destruct (records_total_counts_the_page strict_window no_settings
              (store sample_registry) 3 0 1 None) as (Hrun & _); [lia | lia |].
  rewrite Hrun. vm_compute. reflexivity.
Defined.

(** Zero counts as absent in [list_service_pools]: the page 0 is the page 1,
    the identifier 0 selects every pool, and with the page size 0 the
    settings are not consulted and the listing is not paged. *)
Theorem zero_counts_as_absent_in_the_listing
    (out_of_window : Z -> Z -> list Models.Pool -> string + list Models.Pool)
    (get_org_settings_from_cache : Database -> Z -> OrgSettings)
    (d : Database) (subscriber_id page : Z) (page_size id : option Z) :
  list_service_pools out_of_window get_org_settings_from_cache d subscriber_id
    0 page_size id
  = list_service_pools out_of_window get_org_settings_from_cache d subscriber_id
      1 page_size id
  /\ list_service_pools out_of_window get_org_settings_from_cache d
       subscriber_id page page_size (Some 0)
     = list_service_pools out_of_window get_org_settings_from_cache d
         subscriber_id page page_size None
  /\ list_service_pools out_of_window get_org_settings_from_cache d
       subscriber_id page (Some 0) id
     = match listing_rows d subscriber_id id with
       | [] => NoRecordsFound
       | rows =>
           FoundRecords (List.map (pool_dict d) rows) (Z.of_nat (length rows))
       end.
Proof.
  split; [reflexivity |]. split.
  - unfold list_service_pools.
    destruct page_size as [size |];
      [| destruct (get_org_settings_from_cache d subscriber_id);
         try reflexivity];
      rewrite !pools_list_eq; reflexivity.
  - unfold list_service_pools. rewrite pools_list_eq. cbn [Z.eqb].
    destruct (listing_rows d subscriber_id id) as [| p rows]; [reflexivity |].
    cbn [List.map length]. now rewrite length_map.
Qed.
